(** * Line counter: a shallow embedding of [line_counter_mod.py]

    The file models the class [LineCounter] of
    [third_party/Line_counter/line_counter_mod.py]: its constructor and its
    [update] method.  Python dictionaries are mutable objects that the
    tracker holds by reference, so the model keeps an explicit store of dict
    objects; the attributes of [self] that name a dict are locations in that
    store.  Exceptions are values: a computation returns the store as the
    exception left it, together with either the exception or a result.

    Python integers (class identifiers, tracker identifiers, counts) are
    [Z]; class names are strings; coordinates, floats in the source, are
    rationals.

    The second class of the file, [LineCounterAnnotator], reads a tracker:
    [result] copies its counts into new dicts, [annotate] draws its lines
    and counts onto an image.  The drawing is done by [cv2] and
    [supervision], which the repository does not contain; the model keeps
    their functions abstract and follows the calls that [annotate] makes of
    them. *)

From Stdlib Require Import ZArith QArith.
From stdpp Require Import base option list gmap strings fin_maps pretty.

Open Scope Z_scope.

(** ** Geometry (package [supervision.geometry.dataclasses]) *)

Module Point.
Record t : Type := mk { x : Q; y : Q }.
End Point.

Module Vector.
Record t : Type := mk { start : Point.t; end_ : Point.t }.

(** Modelled from the spec: [Vector.is_in] belongs to the [supervision]
    package, which the repository imports but does not contain.  Section
    4.1 of the specification gives the side test as the sign of the cross
    product of (B - A) and (P - A), the side being [cross < 0].
    Coordinates are rationals here; no statement below depends on the
    arithmetic of the test, only on its boolean result. *)
Definition is_in (v : t) (point : Point.t) : bool :=
  let cross_product :=
    ((Point.x (end_ v) - Point.x (start v)) * (Point.y point - Point.y (start v))
     - (Point.y (end_ v) - Point.y (start v)) * (Point.x point - Point.x (start v)))%Q in
  match (cross_product ?= 0)%Q with
  | Lt => true
  | _ => false
  end.
End Vector.

(** ** Detections *)

(** One element of the iteration [for xyxy, confidence, class_id, tracker_id
    in detections]. *)
Record Detection : Type := mkDetection {
  xyxy : Q * Q * Q * Q;
  confidence : Q;
  det_class_id : Z;
  det_tracker_id : option Z;   (* [None] is Python's [None] *)
}.

(** ** Exceptions *)

Inductive pykey : Type :=
| KInt (z : Z)
| KStr (s : string).

Inductive exn : Type :=
| IndexError
| KeyError (k : pykey).

(** ** The store of dict objects

    A location is an index into the list of the dict objects of its kind; a
    new object goes to the end of the list.  [deref] reads an object; at a
    location that holds none it yields the empty dict, which no run of the
    tracker does: its references are live ([wf_count_live],
    [wf_side_live]). *)

Definition loc : Type := nat.

Record Store : Type := mkStore {
  count_objs : list (gmap string Z);    (* dicts  class name -> int  *)
  side_objs : list (gmap Z bool);       (* dicts  tracker id -> bool *)
  tracker_line : gmap Z (list Z);       (* the dict [self.tracker_line] and its lists *)
}.

Definition deref {A} `{Empty A} (h : list A) (l : loc) : A := default ∅ (h !! l).
Global Arguments deref : simpl never.

(** The attributes of a [LineCounter].  [update] never rebinds an attribute,
    it only mutates the dicts they refer to, so the record itself is fixed
    once [__init__] returns. *)
Record LineCounter : Type := mkLineCounter {
  vector_batch : list Vector.t;
  start_points : list Point.t;
  end_points : list Point.t;
  tracker_state : loc;
  in_count_dict : loc;
  out_count_dict : loc;
  in_count_dict_batch : list loc;
  out_count_dict_batch : list loc;
  tracker_state_batch : list loc;
  in_count : Z;
  out_count : Z;
  class_id : list Z;
  class_name_dict : gmap Z string;
}.

(** ** A store-and-exception monad *)

Definition M (A : Type) : Type := Store → Store * (exn + A).

#[export] Instance M_ret : MRet M := λ A a σ, (σ, inr a).
#[export] Instance M_bind : MBind M := λ A B f m σ,
  match m σ with
  | (σ', inr a) => f a σ'
  | (σ', inl e) => (σ', inl e)
  end.

Definition raise {A} (e : exn) : M A := λ σ, (σ, inl e).

(** [xs[i]] for a list and a non-negative index. *)
Definition index {A} (xs : list A) (i : nat) : M A :=
  match xs !! i with
  | Some a => mret a
  | None => raise IndexError
  end.

(** [d[k]] for a dict. *)
Definition getitem_int {V} (d : gmap Z V) (k : Z) : M V :=
  match d !! k with
  | Some v => mret v
  | None => raise (KeyError (KInt k))
  end.

Definition getitem_str {V} (d : gmap string V) (k : string) : M V :=
  match d !! k with
  | Some v => mret v
  | None => raise (KeyError (KStr k))
  end.

(** Writing a dict object in place. *)
Definition with_count (l : loc) (d : gmap string Z) (σ : Store) : Store :=
  mkStore (<[l := d]> (count_objs σ)) (side_objs σ) (tracker_line σ).
Definition with_side (l : loc) (d : gmap Z bool) (σ : Store) : Store :=
  mkStore (count_objs σ) (<[l := d]> (side_objs σ)) (tracker_line σ).
Definition with_line (d : gmap Z (list Z)) (σ : Store) : Store :=
  mkStore (count_objs σ) (side_objs σ) d.

Definition count_get (l : loc) : M (gmap string Z) := λ σ, (σ, inr (deref (count_objs σ) l)).
Definition count_put (l : loc) (d : gmap string Z) : M unit := λ σ, (with_count l d σ, inr ()).
(** A new dict object; the result is its location. *)
Definition count_new (d : gmap string Z) : M loc := λ σ,
  (mkStore (count_objs σ ++ [d]) (side_objs σ) (tracker_line σ), inr (length (count_objs σ))).
(** [d.copy()] *)
Definition count_copy (l : loc) : M loc := d ← count_get l; count_new d.

Definition side_get (l : loc) : M (gmap Z bool) := λ σ, (σ, inr (deref (side_objs σ) l)).
Definition side_put (l : loc) (d : gmap Z bool) : M unit := λ σ, (with_side l d σ, inr ()).
Definition side_new (d : gmap Z bool) : M loc := λ σ,
  (mkStore (count_objs σ) (side_objs σ ++ [d]) (tracker_line σ), inr (length (side_objs σ))).
Definition side_copy (l : loc) : M loc := d ← side_get l; side_new d.

Definition line_get : M (gmap Z (list Z)) := λ σ, (σ, inr (tracker_line σ)).
Definition line_put (d : gmap Z (list Z)) : M unit := λ σ, (with_line d σ, inr ()).

(** [for a in l: body a] *)
Fixpoint for_ {A} (l : list A) (body : A → M unit) : M unit :=
  match l with
  | [] => mret ()
  | a :: l' => body a;; for_ l' body
  end.

(** A loop that appends one result per iteration to a list. *)
Fixpoint collect {A B} (l : list A) (body : A → M B) : M (list B) :=
  match l with
  | [] => mret []
  | a :: l' => b ← body a; bs ← collect l' body; mret (b :: bs)
  end.

(** [enumerate(l)], counting from [k]. *)
Fixpoint enumerate_from {A} (k : nat) (l : list A) : list (nat * A) :=
  match l with
  | [] => []
  | a :: l' => (k, a) :: enumerate_from (S k) l'
  end.

Definition enumerate {A} (l : list A) : list (nat * A) := enumerate_from 0 l.

(** ** [LineCounter.__init__] *)

(** First loop: [vector_batch.append(Vector(start[i], end[i]))]. *)
Definition pair_up (start end_ : list Point.t) (i : nat) : M Vector.t :=
  s ← index start i;
  e ← index end_ i;
  mret (Vector.mk s e).

Definition init_vectors (start end_ : list Point.t) : M (list Vector.t) :=
  collect (seq 0 (length start)) (pair_up start end_).

(** Second loop: a zero count for the name of every [id] of [class_id], in
    both templates. *)
Definition zero_both (class_name_dict : gmap Z string)
    (in_count_dict out_count_dict : loc) (id : Z) : M unit :=
  name ← getitem_int class_name_dict id;
  d ← count_get in_count_dict;
  count_put in_count_dict (<[name := 0]> d);;
  name' ← getitem_int class_name_dict id;
  d' ← count_get out_count_dict;
  count_put out_count_dict (<[name' := 0]> d').

Definition init_counts (class_id : list Z) (class_name_dict : gmap Z string)
    (in_count_dict out_count_dict : loc) : M unit :=
  for_ class_id (zero_both class_name_dict in_count_dict out_count_dict).

(** Third loop: one copy of each template per line. *)
Definition copy_templates (in_count_dict out_count_dict tracker_state : loc)
    : M (loc * loc * loc) :=
  i ← count_copy in_count_dict;
  o ← count_copy out_count_dict;
  s ← side_copy tracker_state;
  mret (i, o, s).

Definition init_batches (n : nat) (in_count_dict out_count_dict tracker_state : loc)
    : M (list (loc * loc * loc)) :=
  collect (seq 0 n) (λ _, copy_templates in_count_dict out_count_dict tracker_state).

Definition __init__ (start end_ : list Point.t) (class_id : list Z)
    (class_name_dict : gmap Z string) : M LineCounter :=
  vector_batch ← init_vectors start end_;
  tracker_state ← side_new ∅;
  line_put ∅;;
  in_count_dict ← count_new ∅;
  out_count_dict ← count_new ∅;
  init_counts class_id class_name_dict in_count_dict out_count_dict;;
  batches ← init_batches (length start) in_count_dict out_count_dict tracker_state;
  mret {|
    vector_batch := vector_batch;
    start_points := start;
    end_points := end_;
    tracker_state := tracker_state;
    in_count_dict := in_count_dict;
    out_count_dict := out_count_dict;
    in_count_dict_batch := (λ b, b.1.1) <$> batches;
    out_count_dict_batch := (λ b, b.1.2) <$> batches;
    tracker_state_batch := (λ b, b.2) <$> batches;
    in_count := 0;
    out_count := 0;
    class_id := class_id;
    class_name_dict := class_name_dict;
  |}.

(** ** [LineCounter.update] *)

Definition mean_anchor (box : Q * Q * Q * Q) : Point.t :=
  let '(x1, y1, x2, y2) := box in
  Point.mk ((x1 + x2) / 2)%Q ((y1 + y2) / 2)%Q.

(** [batch[id][self.class_name_dict[class_id]] += 1] *)
Definition count_incr (self : LineCounter) (batch : list loc) (id : nat) (class_id : Z) : M unit :=
  l ← index batch id;
  name ← getitem_int (class_name_dict self) class_id;
  d ← count_get l;
  v ← getitem_str d name;
  count_put l (<[name := v + 1]> d).

(** The body of [for id, triggers in enumerate(triggers_batch)]. *)
Definition line_step (self : LineCounter) (class_id tracker_id : Z)
    (id : nat) (triggers : bool) : M unit :=
  let tracker_state := triggers in
  l ← index (tracker_state_batch self) id;
  d ← side_get l;
  match d !! tracker_id with
  | None =>
      (* new detection *)
      side_put l (<[tracker_id := tracker_state]> d);;
      tl ← line_get;
      line_put (<[tracker_id := [class_id]]> tl)
  | Some b =>
      if bool_decide (b = tracker_state) then
        (* same side of the line *)
        mret ()
      else
        side_put l (<[tracker_id := tracker_state]> d);;
        tl ← line_get;
        log ← getitem_int tl tracker_id;
        line_put (<[tracker_id := log ++ [Z.of_nat id]]> tl);;
        if tracker_state
        then count_incr self (in_count_dict_batch self) id class_id
        else count_incr self (out_count_dict_batch self) id class_id
  end.

(** [for id, triggers in ts: ...], the inner loop. *)
Definition line_loop (self : LineCounter) (class_id tracker_id : Z)
    (ts : list (nat * bool)) : M unit :=
  for_ ts (λ '(id, triggers), line_step self class_id tracker_id id triggers).

(** The side of the box centre for each line, in configuration order. *)
Definition triggers_batch (self : LineCounter) (det : Detection) : list bool :=
  (λ v, Vector.is_in v (mean_anchor (xyxy det))) <$> vector_batch self.

(** The body of [for xyxy, confidence, class_id, tracker_id in detections]. *)
Definition update_body (self : LineCounter) (det : Detection) : M unit :=
  match det_tracker_id det with
  | None => mret ()
  | Some tracker_id =>
      line_loop self (det_class_id det) tracker_id (enumerate (triggers_batch self det))
  end.

Definition update (self : LineCounter) (detections : list Detection) : M unit :=
  for_ detections (update_body self).

(** ** The surroundings of [LineCounterAnnotator]

    The annotator draws with [cv2] and uses [Color] and [Rect] of
    [supervision]; neither package is part of the repository.  What the
    source calls of them is the interface [Drawing]: images and colours are
    abstract types, a drawing function of [cv2] takes an image to the image
    with the shape drawn on it, and the other functions are pure.  A call of
    the interface returns; what the packages raise on arguments that they
    refuse is not modelled.  The constant arguments of the [cv2] calls (font,
    line type, shift) are left out. *)

Module Rect.
Record t : Type := mk { x : Z; y : Z; width : Z; height : Z }.
End Rect.

Class Drawing : Type := {
  Frame : Type;                                   (* [np.ndarray] images *)
  Color : Type;                                   (* [supervision.draw.color.Color] *)
  Color_white : Color;
  Color_black : Color;
  Color_red : Color;
  Color_green : Color;
  Color_blue : Color;
  Color_as_bgr : Color → Z * Z * Z;
  Point_as_xy_int_tuple : Point.t → Z * Z;
  Rect_pad : Rect.t → Z → Rect.t;
  Rect_top_left : Rect.t → Point.t;
  Rect_bottom_right : Rect.t → Point.t;
  (* text, fontScale, thickness; the result is ((width, height), baseline) *)
  cv2_getTextSize : string → Q → Q → (Z * Z) * Z;
  (* pt1, pt2, color, thickness *)
  cv2_line : Frame → Z * Z → Z * Z → Z * Z * Z → Q → Frame;
  (* center, radius, color, thickness *)
  cv2_circle : Frame → Z * Z → Z → Z * Z * Z → Z → Frame;
  (* pt1, pt2, color, thickness *)
  cv2_rectangle : Frame → Z * Z → Z * Z → Z * Z * Z → Z → Frame;
  (* text, org, fontScale, color, thickness *)
  cv2_putText : Frame → string → Z * Z → Q → Z * Z * Z → Q → Frame;
}.

(** Python visits the keys of a dict in the order of their insertion,
    which a [gmap] does not record.  [iter_keys l d] is the order in which
    [for id in ...] visits the keys of the dict object at [l] when its
    content is [d]; all that is known of it is that it lists every key
    once. *)
Class DictOrder : Type := {
  iter_keys : loc → gmap string Z → list string;
  iter_keys_perm l d : iter_keys l d ≡ₚ (map_to_list d).*1;
}.

(** The order of [map_to_list] is one such order. *)
Definition map_order : DictOrder := {|
  iter_keys _ d := (map_to_list d).*1;
  iter_keys_perm _ _ := reflexivity _;
|}.

(** ** Drawing computations

    [annotate] changes the image in place and reads the tracker's dicts; it
    writes to no dict.  A drawing computation threads the image and returns
    an exception or a result; the store is an argument of [annotate]. *)

Definition Draw `{Drawing} (A : Type) : Type := Frame → Frame * (exn + A).

#[export] Instance Draw_ret `{Drawing} : MRet Draw := λ A a frame, (frame, inr a).
#[export] Instance Draw_bind `{Drawing} : MBind Draw := λ A B f m frame,
  match m frame with
  | (frame', inr a) => f a frame'
  | (frame', inl e) => (frame', inl e)
  end.

(** A call of a drawing function of [cv2] on the image. *)
Definition draw `{Drawing} (shape : Frame → Frame) : Draw unit :=
  λ frame, (shape frame, inr ()).

(** [xs[i]] and [d[k]] in a drawing computation. *)
Definition item `{Drawing} {A} (xs : list A) (i : nat) : Draw A :=
  λ frame, (frame, match xs !! i with Some a => inr a | None => inl IndexError end).

Definition item_str `{Drawing} {V} (d : gmap string V) (k : string) : Draw V :=
  λ frame, (frame, match d !! k with Some v => inr v | None => inl (KeyError (KStr k)) end).

(** [for a in l: acc = body acc a], for a local variable [acc] that the loop
    updates. *)
Fixpoint fold_for `{Drawing} {A B} (l : list A) (body : B → A → Draw B) (acc : B) : Draw B :=
  match l with
  | [] => mret acc
  | a :: l' => acc' ← body acc a; fold_for l' body acc'
  end.

(** [int(x)] for a float [x]: rounding towards zero. *)
Definition int (q : Q) : Z := Z.quot (Qnum q) (Z.pos (Qden q)).

(** ** [LineCounterAnnotator] *)

Module LineCounterAnnotator.
Section annotator.
Context `{Drawing} `{DictOrder}.

Record t : Type := mk {
  thickness : Q;
  color : Color;
  text_thickness : Q;
  text_color : Color;
  text_scale : Q;
  text_offset : Q;
  text_padding : Z;
  color_batch : list Color;
}.

(** The constructor; its parameters default to [2], [Color.white()], [2],
    [Color.black()], [0.5], [1.5] and [10]. *)
Definition __init__ (thickness : Q) (color : Color) (text_thickness : Q)
    (text_color : Color) (text_scale text_offset : Q) (text_padding : Z) : t := {|
  thickness := thickness;
  color := color;
  text_thickness := text_thickness;
  text_color := text_color;
  text_scale := text_scale;
  text_offset := text_offset;
  text_padding := text_padding;
  color_batch := [Color_white; Color_red; Color_green; Color_blue];
|}.

(** *** [result] *)

(** The body of [for id in line_counter.in_count_dict_batch[i]]. *)
Definition result_entry (line_counter : LineCounter) (i : nat) (in_dict out_dict : loc)
    (id : string) : M unit :=
  li ← index (in_count_dict_batch line_counter) i;
  di ← count_get li;
  a ← getitem_str di id;
  d ← count_get in_dict;
  count_put in_dict (<[id := a]> d);;
  lo ← index (out_count_dict_batch line_counter) i;
  do ← count_get lo;
  b ← getitem_str do id;
  d' ← count_get out_dict;
  count_put out_dict (<[id := b]> d').

(** The body of [for i in range(len(line_counter.vector_batch))]; its result
    is the list [[in_dict, out_dict]]. *)
Definition result_line (line_counter : LineCounter) (i : nat) : M (loc * loc) :=
  in_dict ← count_new ∅;
  out_dict ← count_new ∅;
  li ← index (in_count_dict_batch line_counter) i;
  di ← count_get li;
  for_ (iter_keys li di) (result_entry line_counter i in_dict out_dict);;
  mret (in_dict, out_dict).

Definition result (self : t) (line_counter : LineCounter) : M (list (loc * loc)) :=
  collect (seq 0 (length (vector_batch line_counter))) (result_line line_counter).

(** *** [annotate] *)

(** The text of one label: [head] followed by an entry [id : count] for
    every key of the count dict of line [i] in [batch]. *)
Definition label (σ : Store) (batch : list loc) (i : nat) (head : string) : Draw string :=
  l ← item batch i;
  fold_for (iter_keys l (deref (count_objs σ) l))
    (λ text_result id,
       l' ← item batch i;
       n ← item_str (deref (count_objs σ) l') id;
       mret (text_result +:+ id +:+ " : " +:+ pretty n +:+ " "))
    head.

Definition text_x (v : Vector.t) (text_width : Z) : Z :=
  int ((Point.x (Vector.end_ v) + Point.x (Vector.start v) - inject_Z text_width) / 2)%Q.

Definition in_text_y (self : t) (v : Vector.t) (text_height : Z) : Z :=
  int ((Point.y (Vector.end_ v) + Point.y (Vector.start v) + inject_Z text_height) / 2
       - text_offset self * inject_Z text_height)%Q.

Definition out_text_y (self : t) (v : Vector.t) (text_height : Z) : Z :=
  int ((Point.y (Vector.end_ v) + Point.y (Vector.start v) + inject_Z text_height) / 2
       + text_offset self * inject_Z text_height)%Q.

(** The body of [for i in range(len(line_counter.vector_batch))]. *)
Definition annotate_line (self : t) (line_counter : LineCounter) (σ : Store)
    (i : nat) : Draw unit :=
  (* the line *)
  v ← item (vector_batch line_counter) i;
  c ← item (color_batch self) i;
  draw (λ frame, cv2_line frame
          (Point_as_xy_int_tuple (Vector.start v)) (Point_as_xy_int_tuple (Vector.end_ v))
          (Color_as_bgr c) (thickness self));;
  (* its two end points *)
  v ← item (vector_batch line_counter) i;
  draw (λ frame, cv2_circle frame
          (Point_as_xy_int_tuple (Vector.start v)) 5 (Color_as_bgr (text_color self)) (-1));;
  v ← item (vector_batch line_counter) i;
  draw (λ frame, cv2_circle frame
          (Point_as_xy_int_tuple (Vector.end_ v)) 5 (Color_as_bgr (text_color self)) (-1));;
  (* the two labels *)
  in_text ← label σ (in_count_dict_batch line_counter) i ("# " +:+ pretty i +:+ ", (in) ");
  out_text ← label σ (out_count_dict_batch line_counter) i ("# " +:+ pretty i +:+ ", (out) ");
  let '((in_text_width, in_text_height), _) :=
    cv2_getTextSize in_text (text_scale self) (text_thickness self) in
  let '((out_text_width, out_text_height), _) :=
    cv2_getTextSize out_text (text_scale self) (text_thickness self) in
  v ← item (vector_batch line_counter) i;
  let in_text_x := text_x v in_text_width in
  let in_text_y := in_text_y self v in_text_height in
  let out_text_x := text_x v out_text_width in
  let out_text_y := out_text_y self v out_text_height in
  let in_text_background_rect :=
    Rect_pad (Rect.mk in_text_x (in_text_y - in_text_height) in_text_width in_text_height)
      (text_padding self) in
  let out_text_background_rect :=
    Rect_pad (Rect.mk out_text_x (out_text_y - out_text_height) out_text_width out_text_height)
      (text_padding self) in
  c ← item (color_batch self) i;
  draw (λ frame, cv2_rectangle frame
          (Point_as_xy_int_tuple (Rect_top_left in_text_background_rect))
          (Point_as_xy_int_tuple (Rect_bottom_right in_text_background_rect))
          (Color_as_bgr c) (-1));;
  c ← item (color_batch self) i;
  draw (λ frame, cv2_rectangle frame
          (Point_as_xy_int_tuple (Rect_top_left out_text_background_rect))
          (Point_as_xy_int_tuple (Rect_bottom_right out_text_background_rect))
          (Color_as_bgr c) (-1));;
  draw (λ frame, cv2_putText frame in_text (in_text_x, in_text_y)
          (text_scale self) (Color_as_bgr (text_color self)) (text_thickness self));;
  draw (λ frame, cv2_putText frame out_text (out_text_x, out_text_y)
          (text_scale self) (Color_as_bgr (text_color self)) (text_thickness self)).

(** [annotate] returns nothing: the caller finds the drawing in [frame]. *)
Definition annotate (self : t) (line_counter : LineCounter) (σ : Store) : Draw unit :=
  fold_for (seq 0 (length (vector_batch line_counter)))
    (λ _ i, annotate_line self line_counter σ i) ().
End annotator.
End LineCounterAnnotator.

Global Arguments LineCounterAnnotator.label : simpl never.

(** * Vocabulary of the statements *)

(** ** Reading a line's state *)

(** The side map and the count dicts of line [i], read through the
    references that [self] holds. *)
Definition side_of (self : LineCounter) (σ : Store) (i : nat) : option (gmap Z bool) :=
  deref (side_objs σ) <$> tracker_state_batch self !! i.
Definition in_of (self : LineCounter) (σ : Store) (i : nat) : option (gmap string Z) :=
  deref (count_objs σ) <$> in_count_dict_batch self !! i.
Definition out_of (self : LineCounter) (σ : Store) (i : nat) : option (gmap string Z) :=
  deref (count_objs σ) <$> out_count_dict_batch self !! i.

(** The batch whose count a flip to side [triggers] increments. *)
Definition count_batch (self : LineCounter) (triggers : bool) : list loc :=
  if triggers then in_count_dict_batch self else out_count_dict_batch self.

(** What line [i] holds: its side map, its in counts and its out counts. *)
Definition line_view (self : LineCounter) (σ : Store) (i : nat)
    : option (gmap Z bool) * option (gmap string Z) * option (gmap string Z) :=
  (side_of self σ i, in_of self σ i, out_of self σ i).

(** The in and the out count of line [i] for a class name. *)
Definition in_count_of (self : LineCounter) (σ : Store) (i : nat) (name : string) : option Z :=
  in_of self σ i ≫= (.!! name).
Definition out_count_of (self : LineCounter) (σ : Store) (i : nat) (name : string) : option Z :=
  out_of self σ i ≫= (.!! name).

(** The sum of the values of a count dict. *)
Definition dict_sum (d : gmap string Z) : Z := map_fold (λ _ v acc, v + acc) 0 d.

(** The sum over all classes of the in and the out counts of line [i]. *)
Definition line_total (self : LineCounter) (σ : Store) (i : nat) : Z :=
  default 0 (dict_sum <$> in_of self σ i) + default 0 (dict_sum <$> out_of self σ i).

(** ** All outcomes of [line_step]

    [line_step_outcome self σ c t id s σ' r] lists the ways in which the
    body of the inner loop, started in store [σ], can end in store [σ']
    with result [r]. *)

(** The store after the side map of line [id] (the dict at [l]) and the
    crossing log were written at a flip, before the count is touched. *)
Definition flipped (σ : Store) (tracker_id : Z) (id : nat) (triggers : bool) (l : loc)
    (log : list Z) : Store :=
  with_line (<[tracker_id := log ++ [Z.of_nat id]]> (tracker_line σ))
    (with_side l (<[tracker_id := triggers]> (deref (side_objs σ) l)) σ).

Variant line_step_outcome (self : LineCounter) (σ : Store) (class_id tracker_id : Z)
    (id : nat) (triggers : bool) : Store → exn + unit → Prop :=
| step_no_line :
    tracker_state_batch self !! id = None →
    line_step_outcome self σ class_id tracker_id id triggers σ (inl IndexError)
| step_first l :
    tracker_state_batch self !! id = Some l →
    deref (side_objs σ) l !! tracker_id = None →
    line_step_outcome self σ class_id tracker_id id triggers
      (with_line (<[tracker_id := [class_id]]> (tracker_line σ))
         (with_side l (<[tracker_id := triggers]> (deref (side_objs σ) l)) σ))
      (inr ())
| step_same l :
    tracker_state_batch self !! id = Some l →
    deref (side_objs σ) l !! tracker_id = Some triggers →
    line_step_outcome self σ class_id tracker_id id triggers σ (inr ())
| step_unlogged l b :
    tracker_state_batch self !! id = Some l →
    deref (side_objs σ) l !! tracker_id = Some b → b ≠ triggers →
    tracker_line σ !! tracker_id = None →
    line_step_outcome self σ class_id tracker_id id triggers
      (with_side l (<[tracker_id := triggers]> (deref (side_objs σ) l)) σ)
      (inl (KeyError (KInt tracker_id)))
| step_flip_no_counts l b log :
    tracker_state_batch self !! id = Some l →
    deref (side_objs σ) l !! tracker_id = Some b → b ≠ triggers →
    tracker_line σ !! tracker_id = Some log →
    count_batch self triggers !! id = None →
    line_step_outcome self σ class_id tracker_id id triggers
      (flipped σ tracker_id id triggers l log) (inl IndexError)
| step_flip_unknown_class l b log lc :
    tracker_state_batch self !! id = Some l →
    deref (side_objs σ) l !! tracker_id = Some b → b ≠ triggers →
    tracker_line σ !! tracker_id = Some log →
    count_batch self triggers !! id = Some lc →
    class_name_dict self !! class_id = None →
    line_step_outcome self σ class_id tracker_id id triggers
      (flipped σ tracker_id id triggers l log) (inl (KeyError (KInt class_id)))
| step_flip_uncounted l b log lc name :
    tracker_state_batch self !! id = Some l →
    deref (side_objs σ) l !! tracker_id = Some b → b ≠ triggers →
    tracker_line σ !! tracker_id = Some log →
    count_batch self triggers !! id = Some lc →
    class_name_dict self !! class_id = Some name →
    deref (count_objs σ) lc !! name = None →
    line_step_outcome self σ class_id tracker_id id triggers
      (flipped σ tracker_id id triggers l log) (inl (KeyError (KStr name)))
| step_flip_counted l b log lc name v :
    tracker_state_batch self !! id = Some l →
    deref (side_objs σ) l !! tracker_id = Some b → b ≠ triggers →
    tracker_line σ !! tracker_id = Some log →
    count_batch self triggers !! id = Some lc →
    class_name_dict self !! class_id = Some name →
    deref (count_objs σ) lc !! name = Some v →
    line_step_outcome self σ class_id tracker_id id triggers
      (with_count lc (<[name := v + 1]> (deref (count_objs σ) lc))
         (flipped σ tracker_id id triggers l log))
      (inr ()).

(** ** How a store changes over time

    [evolves σ σ'] holds between a store and any later store of the same
    tracker: no dict object is created, count dicts keep their keys and
    their values never decrease, side maps and the crossing log only gain
    keys. *)
Record evolves (σ σ' : Store) : Prop := {
  ev_count_len : length (count_objs σ') = length (count_objs σ);
  ev_side_len : length (side_objs σ') = length (side_objs σ);
  ev_count_dom : ∀ l, dom (deref (count_objs σ') l) = dom (deref (count_objs σ) l);
  ev_count_le : ∀ l name v,
    deref (count_objs σ) l !! name = Some v →
    ∃ v', deref (count_objs σ') l !! name = Some v' ∧ v ≤ v';
  ev_side_dom : ∀ l, dom (deref (side_objs σ) l) ⊆ dom (deref (side_objs σ') l);
  ev_line_dom : dom (tracker_line σ) ⊆ dom (tracker_line σ');
}.

(** A step adds at most the identity it evaluates to a side map. *)
Definition adds_only (tracker_id : Z) (σ σ' : Store) : Prop :=
  ∀ l, dom (deref (side_objs σ') l) ⊆ dom (deref (side_objs σ) l) ∪ {[tracker_id]}.

(** ** The invariant of a tracker *)

(** The locations of the count dicts of all lines. *)
Definition count_locs (self : LineCounter) : list loc :=
  in_count_dict_batch self ++ out_count_dict_batch self.

(** Every identity that a side map holds has an entry in the crossing log. *)
Definition logged (self : LineCounter) (σ : Store) : Prop :=
  ∀ l, l ∈ tracker_state_batch self →
    dom (deref (side_objs σ) l) ⊆ dom (tracker_line σ).

(** What every step of [update] keeps. *)
Record wf (self : LineCounter) (σ : Store) : Prop := {
  wf_len_in : length (in_count_dict_batch self) = length (vector_batch self);
  wf_len_out : length (out_count_dict_batch self) = length (vector_batch self);
  wf_len_side : length (tracker_state_batch self) = length (vector_batch self);
  (* the batches refer to live dict objects, each to one of its own *)
  wf_count_live : ∀ l, l ∈ count_locs self → (l < length (count_objs σ))%nat;
  wf_side_live : ∀ l, l ∈ tracker_state_batch self → (l < length (side_objs σ))%nat;
  wf_count_nodup : NoDup (count_locs self);
  wf_side_nodup : NoDup (tracker_state_batch self);
  wf_logged : logged self σ;
  (* all count dicts have the same keys, among them the names of [class_id] *)
  wf_keys : ∀ l l', l ∈ count_locs self → l' ∈ count_locs self →
    dom (deref (count_objs σ) l) = dom (deref (count_objs σ) l');
  wf_classes : ∀ c, c ∈ class_id self →
    ∃ name, class_name_dict self !! c = Some name ∧
      ∀ l, l ∈ count_locs self → name ∈ dom (deref (count_objs σ) l);
  wf_nonneg : ∀ l name v, l ∈ count_locs self →
    deref (count_objs σ) l !! name = Some v → 0 ≤ v;
}.

(** Identities are known to all lines or to none: an observation is
    evaluated against every line, and a first sighting cannot raise, so
    between two observations all side maps hold the same identities. *)
Definition seen_alike (self : LineCounter) (σ : Store) : Prop :=
  ∀ l l', l ∈ tracker_state_batch self → l' ∈ tracker_state_batch self →
    dom (deref (side_objs σ) l) = dom (deref (side_objs σ) l').

(** The invariant between two observations. *)
Definition inv (self : LineCounter) (σ : Store) : Prop := wf self σ ∧ seen_alike self σ.

(** ** Flips and class resolution *)

(** [update] detects a flip of identity [tracker_id] on line [id] when the
    line's side map records the identity on the side opposite to [triggers]. *)
Definition is_flip (self : LineCounter) (σ : Store) (tracker_id : Z)
    (id : nat) (triggers : bool) : bool :=
  match side_of self σ id with
  | Some d =>
      match d !! tracker_id with
      | Some b => bool_decide (b ≠ triggers)
      | None => false
      end
  | None => false
  end.

(** Class identifier [c] has a name, and every line has counts for it. *)
Definition counted (self : LineCounter) (σ : Store) (c : Z) : Prop :=
  ∃ name, class_name_dict self !! c = Some name ∧
    ∀ l, l ∈ count_locs self → name ∈ dom (deref (count_objs σ) l).

(** Some line detects a flip of the identity. *)
Definition any_flip (self : LineCounter) (σ : Store) (tracker_id : Z)
    (det : Detection) : bool :=
  existsb (λ p, is_flip self σ tracker_id p.1 p.2) (enumerate (triggers_batch self det)).

(** The lines of [ts] on which the identity flips, in the order of [ts]. *)
Definition crossed (self : LineCounter) (tracker_id : Z) (σ : Store)
    (ts : list (nat * bool)) : list nat :=
  (filter (λ p, is_flip self σ tracker_id p.1 p.2 = true) ts).*1.

(** ** The constructor in closed form *)

(** The template that the second loop builds from dict [d]. *)
Definition zero_counts (class_id : list Z) (class_name_dict : gmap Z string)
    (d : gmap string Z) : gmap string Z :=
  foldl (λ d id,
    match class_name_dict !! id with
    | Some name => <[name := 0]> d
    | None => d
    end) d class_id.

(** The locations that the third loop assigns to line [i]. *)
Definition line_locs (lc ls : nat) (i : nat) : loc * loc * loc :=
  ((lc + 2 + 2 * i)%nat, (lc + 3 + 2 * i)%nat, (ls + 1 + i)%nat).

(** The tracker and the store that a successful construction returns, for
    [n = length start] lines: the templates are the dict objects after the
    last object of the initial store, the per-line copies follow them. *)
Definition init_self (start end_ : list Point.t) (class_id : list Z)
    (class_name_dict : gmap Z string) (σ0 : Store) : LineCounter :=
  let batches :=
    line_locs (length (count_objs σ0)) (length (side_objs σ0)) <$> seq 0 (length start) in
  {|
    vector_batch := zip_with Vector.mk start end_;
    start_points := start;
    end_points := end_;
    tracker_state := length (side_objs σ0);
    in_count_dict := length (count_objs σ0);
    out_count_dict := S (length (count_objs σ0));
    in_count_dict_batch := (λ b, b.1.1) <$> batches;
    out_count_dict_batch := (λ b, b.1.2) <$> batches;
    tracker_state_batch := (λ b, b.2) <$> batches;
    in_count := 0;
    out_count := 0;
    class_id := class_id;
    class_name_dict := class_name_dict;
  |}.

Definition init_store (start : list Point.t) (class_id : list Z)
    (class_name_dict : gmap Z string) (σ0 : Store) : Store :=
  let zeros := zero_counts class_id class_name_dict ∅ in
  mkStore (count_objs σ0 ++ zeros :: zeros :: replicate (2 * length start) zeros)
          (side_objs σ0 ++ ∅ :: replicate (length start) ∅)
          ∅.

(** ** The states of a tracker

    A tracker comes from the constructor; afterwards only [update] changes
    its dicts.  A call that raised has changed them as well, and the caller
    may go on using the tracker. *)
Inductive reachable (self : LineCounter) : Store → Prop :=
| reachable_init start end_ class_id class_name_dict σ0 σ :
    __init__ start end_ class_id class_name_dict σ0 = (σ, inr self) →
    reachable self σ
| reachable_update detections σ :
    reachable self σ →
    reachable self (update self detections σ).1.

(** The store after the calls [cs], made one after the other. *)
Fixpoint run (self : LineCounter) (calls : list (list Detection)) (σ : Store) : Store :=
  match calls with
  | [] => σ
  | detections :: calls' => run self calls' (update self detections σ).1
  end.

(** ** Counting the flips that [update] detects

    The functions below run the loops of [update] and count, on the way, the
    steps at which line [i] detects a flip: an observation evaluated against
    line [i] whose side differs from the side that the line's side map
    records for its identity.  They stop where the loops stop. *)

Fixpoint line_loop_flips (self : LineCounter) (class_id tracker_id : Z) (i : nat)
    (ts : list (nat * bool)) (σ : Store) : nat :=
  match ts with
  | [] => 0
  | (id, s) :: ts' =>
      (if bool_decide (id = i) && is_flip self σ tracker_id id s then 1 else 0)
      + match line_step self class_id tracker_id id s σ with
        | (σ', inr _) => line_loop_flips self class_id tracker_id i ts' σ'
        | (_, inl _) => 0
        end
  end%nat.

Definition update_body_flips (self : LineCounter) (i : nat) (det : Detection)
    (σ : Store) : nat :=
  match det_tracker_id det with
  | None => 0%nat
  | Some tracker_id =>
      line_loop_flips self (det_class_id det) tracker_id i
        (enumerate (triggers_batch self det)) σ
  end.

Fixpoint update_flips (self : LineCounter) (i : nat) (detections : list Detection)
    (σ : Store) : nat :=
  match detections with
  | [] => 0
  | det :: detections' =>
      update_body_flips self i det σ
      + match update_body self det σ with
        | (σ', inr _) => update_flips self i detections' σ'
        | (_, inl _) => 0
        end
  end%nat.

(** The flips of line [i] over the calls [calls], made one after the other. *)
Fixpoint run_flips (self : LineCounter) (i : nat) (calls : list (list Detection))
    (σ : Store) : nat :=
  match calls with
  | [] => 0
  | detections :: calls' =>
      update_flips self i detections σ
      + run_flips self i calls' (update self detections σ).1
  end%nat.

(** ** A worked scenario

    Two vertical lines, at x = 0 and x = 10, classes 2 ("car") and 5
    ("bus"), and boxes of width and height 2 around a centre. *)

Definition ex_point (a b : Z) : Point.t := Point.mk (inject_Z a) (inject_Z b).

Definition ex_box (cx cy : Z) : Q * Q * Q * Q :=
  (inject_Z (cx - 1), inject_Z (cy - 1), inject_Z (cx + 1), inject_Z (cy + 1)).

(** An object of class [c] and identity [t] centred at [(cx, 50)]. *)
Definition ex_det (c t cx : Z) : Detection := mkDetection (ex_box cx 50) 1 c (Some t).

Definition ex_start : list Point.t := [ex_point 0 0; ex_point 10 0].
Definition ex_end : list Point.t := [ex_point 0 100; ex_point 10 100].
Definition ex_names : gmap Z string := <[2 := "car"]> (<[5 := "bus"]> ∅).
Definition ex_store0 : Store := mkStore [] [] ∅.

Definition ex_self : LineCounter := init_self ex_start ex_end [2; 5] ex_names ex_store0.
Definition ex_store : Store := init_store ex_start [2; 5] ex_names ex_store0.

(** The scenario after identity 7, a car, was first seen at x = 5, to the
    right of line 0 and to the left of line 1. *)
Definition ex_store1 : Store := (update ex_self [ex_det 2 7 5] ex_store).1.

(** The same lines and names, with only class 2 listed in [class_id]. *)
Definition ex_cars_self : LineCounter := init_self ex_start ex_end [2] ex_names ex_store0.
Definition ex_cars_store : Store := init_store ex_start [2] ex_names ex_store0.

(** ** Vocabulary of the further properties *)

(** Two boxes with the same centre. *)
Definition same_centre (box box' : Q * Q * Q * Q) : Prop :=
  (Point.x (mean_anchor box) == Point.x (mean_anchor box'))%Q
  ∧ (Point.y (mean_anchor box) == Point.y (mean_anchor box'))%Q.

(** Every line has recorded identity [tracker_id]. *)
Definition seen_by_all (self : LineCounter) (tracker_id : Z) (σ : Store) : Prop :=
  ∀ l, l ∈ tracker_state_batch self → tracker_id ∈ dom (deref (side_objs σ) l).

(** The crossing log of [tracker_id] in [σ'] is its log in [σ] with further
    entries after it. *)
Definition log_extends (tracker_id : Z) (σ σ' : Store) : Prop :=
  ∀ log, tracker_line σ !! tracker_id = Some log →
    ∃ more, tracker_line σ' !! tracker_id = Some (log ++ more).

(** Exception [e] is the [KeyError] of a class [c] that is not listed in
    [class_id]: for the identifier when it has no name, for the name when no
    listed identifier bears it. *)
Definition uncounted_class (self : LineCounter) (c : Z) (e : exn) : Prop :=
  (c ∉ class_id self)
  ∧ ((e = KeyError (KInt c) ∧ class_name_dict self !! c = None)
     ∨ ∃ name, e = KeyError (KStr name)
         ∧ class_name_dict self !! c = Some name
         ∧ ∀ c', c' ∈ class_id self → class_name_dict self !! c' ≠ Some name).


(** ** Reports

    What [result] returns is a list with one pair of new dicts per line. *)

(** Store [σ'] is store [σ] with further count dicts after those of [σ]. *)
Definition adds_counts (σ σ' : Store) : Prop :=
  side_objs σ' = side_objs σ
  ∧ tracker_line σ' = tracker_line σ
  ∧ ∃ new, count_objs σ' = count_objs σ ++ new.

(** Store [σ] with the count dicts [new] after its own. *)
Definition with_new_counts (new : list (gmap string Z)) (σ : Store) : Store :=
  mkStore (count_objs σ ++ new) (side_objs σ) (tracker_line σ).

(** The two dicts that the report [result_batch] holds for line [i]. *)
Definition report_of (σ : Store) (result_batch : list (loc * loc)) (i : nat)
    : option (gmap string Z * gmap string Z) :=
  (λ p, (deref (count_objs σ) p.1, deref (count_objs σ) p.2)) <$> result_batch !! i.

(** The dict [dst] after [dst[k] = src[k]] for the keys [ks]. *)
Definition copy_keys (ks : list string) (src dst : gmap string Z) : gmap string Z :=
  foldl (λ acc k, match src !! k with Some v => <[k := v]> acc | None => acc end) dst ks.

(** The entries of [d] whose keys [keys] holds as well. *)
Definition restrict_to (keys d : gmap string Z) : gmap string Z :=
  filter (λ kv, kv.1 ∈ dom keys) d.

(** Line [i] of the tracker has its two count dicts in store [σ]. *)
Definition has_counts (line_counter : LineCounter) (σ : Store) (i : nat) : Prop :=
  ∃ li lo : loc, in_count_dict_batch line_counter !! i = Some li
    ∧ out_count_dict_batch line_counter !! i = Some lo
    ∧ (li < length (count_objs σ))%nat ∧ (lo < length (count_objs σ))%nat.

(** ** Drawing the first lines

    The first [k] iterations of the loop of [annotate]. *)
Definition annotate_lines `{Drawing} `{DictOrder} (self : LineCounterAnnotator.t)
    (line_counter : LineCounter) (σ : Store) (k : nat) : Draw unit :=
  fold_for (seq 0 k) (λ _ i, LineCounterAnnotator.annotate_line self line_counter σ i) ().

(** ** A stand-in for the packages

    In the examples an image is the list of what was drawn on it, in
    order; a colour is its red, green and blue parts; a text is ten pixels
    wide per character and twelve high. *)
Definition ex_drawing : Drawing := {|
  Frame := list string;
  Color := Z * Z * Z;
  Color_white := (255, 255, 255);
  Color_black := (0, 0, 0);
  Color_red := (255, 0, 0);
  Color_green := (0, 255, 0);
  Color_blue := (0, 0, 255);
  Color_as_bgr := λ '(r, g, b), (b, g, r);
  Point_as_xy_int_tuple := λ p, (int (Point.x p), int (Point.y p));
  Rect_pad := λ r padding,
    Rect.mk (Rect.x r - padding) (Rect.y r - padding)
      (Rect.width r + 2 * padding) (Rect.height r + 2 * padding);
  Rect_top_left := λ r, Point.mk (inject_Z (Rect.x r)) (inject_Z (Rect.y r));
  Rect_bottom_right := λ r,
    Point.mk (inject_Z (Rect.x r + Rect.width r)) (inject_Z (Rect.y r + Rect.height r));
  cv2_getTextSize := λ text _ _, ((10 * Z.of_nat (String.length text), 12), 4);
  cv2_line := λ frame _ _ _ _, frame ++ ["line"];
  cv2_circle := λ frame _ _ _ _, frame ++ ["circle"];
  cv2_rectangle := λ frame _ _ _ _, frame ++ ["rectangle"];
  cv2_putText := λ frame text _ _ _ _, frame ++ [text];
|}.

(** The annotator that [LineCounterAnnotator()] builds. *)
Definition ex_annotator : @LineCounterAnnotator.t ex_drawing :=
  @LineCounterAnnotator.__init__ ex_drawing 2 (255, 255, 255) 2 (0, 0, 0) (1 # 2) (3 # 2) 10.

(** Five vertical lines, at x = 0, 10, 20, 30 and 40. *)
Definition ex_five_start : list Point.t :=
  [ex_point 0 0; ex_point 10 0; ex_point 20 0; ex_point 30 0; ex_point 40 0].
Definition ex_five_end : list Point.t :=
  [ex_point 0 100; ex_point 10 100; ex_point 20 100; ex_point 30 100; ex_point 40 100].
Definition ex_five_self : LineCounter :=
  init_self ex_five_start ex_five_end [2; 5] ex_names ex_store0.
Definition ex_five_store : Store := init_store ex_five_start [2; 5] ex_names ex_store0.

(** ** Counts and sides

    The number of identities that a side map records on the in side, and for
    line [i] the in counts less the out counts, over all classes. *)
Definition on_in_side (d : gmap Z bool) : Z :=
  Z.of_nat (size (filter (λ kv, kv.2 = true) d)).

Definition identities_in (self : LineCounter) (σ : Store) (i : nat) : Z :=
  default 0 (on_in_side <$> side_of self σ i).

Definition net_count (self : LineCounter) (σ : Store) (i : nat) : Z :=
  default 0 (dict_sum <$> in_of self σ i) - default 0 (dict_sum <$> out_of self σ i).

(** ** A call on listed classes, in closed form

    For observations of classes of [class_id] no step raises, and the store
    after [update] is a function of the store before it.  [step_effect] is
    the store after [line_step]: the side map of the line is written with
    the observed side, the crossing log and a count change with what the
    line had found ([found], the side that the side map held). *)

Definition set_side (l : loc) (tracker_id : Z) (triggers : bool)
    (sides : list (gmap Z bool)) : list (gmap Z bool) :=
  <[l := <[tracker_id := triggers]> (deref sides l)]> sides.

Definition add_one (l : loc) (name : string)
    (counts : list (gmap string Z)) : list (gmap string Z) :=
  <[l := alter (λ v, v + 1) name (deref counts l)]> counts.

Definition log_effect (class_id tracker_id : Z) (id : nat) (triggers : bool)
    (found : option bool) (tl : gmap Z (list Z)) : gmap Z (list Z) :=
  match found with
  | None => <[tracker_id := [class_id]]> tl
  | Some b =>
      if bool_decide (b = triggers) then tl
      else alter (λ log, log ++ [Z.of_nat id]) tracker_id tl
  end.

Definition count_effect (l : loc) (name : string) (triggers : bool)
    (found : option bool) (counts : list (gmap string Z)) : list (gmap string Z) :=
  match found with
  | None => counts
  | Some b => if bool_decide (b = triggers) then counts else add_one l name counts
  end.

Definition step_effect (self : LineCounter) (class_id tracker_id : Z)
    (id : nat) (triggers : bool) (σ : Store) : Store :=
  match tracker_state_batch self !! id, count_batch self triggers !! id,
        class_name_dict self !! class_id with
  | Some l, Some lc, Some name =>
      let found := deref (side_objs σ) l !! tracker_id in
      mkStore (count_effect lc name triggers found (count_objs σ))
        (set_side l tracker_id triggers (side_objs σ))
        (log_effect class_id tracker_id id triggers found (tracker_line σ))
  | _, _, _ => σ
  end.

Definition update_body_effect (self : LineCounter) (det : Detection) (σ : Store) : Store :=
  match det_tracker_id det with
  | None => σ
  | Some tracker_id =>
      foldl (λ σ p, step_effect self (det_class_id det) tracker_id p.1 p.2 σ) σ
        (enumerate (triggers_batch self det))
  end.

Definition update_effect (self : LineCounter) (detections : list Detection)
    (σ : Store) : Store :=
  foldl (λ σ det, update_body_effect self det σ) σ detections.

(** * Lemmas *)

(** ** The four cases of [line_step] *)

(** [run_M] unfolds the monad and the primitive operations of the store;
    [run_M with H] first rewrites with a lookup [H] that decides a branch. *)
Ltac run_M :=
  repeat progress
    (unfold mbind, M_bind, mret, M_ret, raise, index, getitem_int, getitem_str,
       count_get, count_put, side_get, side_put, line_get, line_put; simpl).

Tactic Notation "run_M" "with" constr(H) := rewrite H; run_M.

Section line_step_cases.
Context (self : LineCounter) (σ : Store).
Context (class_id tracker_id : Z) (id : nat) (triggers : bool) (l : loc).
Hypothesis Hl : tracker_state_batch self !! id = Some l.

Lemma line_step_out_of_range i :
  tracker_state_batch self !! i = None →
  line_step self class_id tracker_id i triggers σ = (σ, inl IndexError).
Proof. intros Hi. unfold line_step. run_M. by run_M with Hi. Qed.

Lemma line_step_first :
  deref (side_objs σ) l !! tracker_id = None →
  line_step self class_id tracker_id id triggers σ =
    (with_line (<[tracker_id := [class_id]]> (tracker_line σ))
       (with_side l (<[tracker_id := triggers]> (deref (side_objs σ) l)) σ), inr ()).
Proof. intros Hd. unfold line_step. run_M. run_M with Hl. by run_M with Hd. Qed.

Lemma line_step_same :
  deref (side_objs σ) l !! tracker_id = Some triggers →
  line_step self class_id tracker_id id triggers σ = (σ, inr ()).
Proof.
  intros Hd. unfold line_step. run_M. run_M with Hl. run_M with Hd.
  by rewrite bool_decide_eq_true_2.
Qed.

Lemma line_step_flip b log :
  deref (side_objs σ) l !! tracker_id = Some b →
  b ≠ triggers →
  tracker_line σ !! tracker_id = Some log →
  line_step self class_id tracker_id id triggers σ =
    count_incr self (count_batch self triggers) id class_id
      (flipped σ tracker_id id triggers l log).
Proof.
  intros Hd Hb Hlog. unfold line_step. run_M. run_M with Hl. run_M with Hd.
  rewrite bool_decide_eq_false_2 by done. run_M with Hlog.
  unfold flipped, count_batch. by destruct triggers.
Qed.

Lemma line_step_unlogged b :
  deref (side_objs σ) l !! tracker_id = Some b →
  b ≠ triggers →
  tracker_line σ !! tracker_id = None →
  line_step self class_id tracker_id id triggers σ =
    (with_side l (<[tracker_id := triggers]> (deref (side_objs σ) l)) σ,
     inl (KeyError (KInt tracker_id))).
Proof.
  intros Hd Hb Hlog. unfold line_step. run_M. run_M with Hl. run_M with Hd.
  rewrite bool_decide_eq_false_2 by done. by run_M with Hlog.
Qed.
End line_step_cases.

Section count_incr_cases.
Context (self : LineCounter) (σ : Store).
Context (batch : list loc) (id : nat) (class_id : Z) (l : loc).
Hypothesis Hl : batch !! id = Some l.

Lemma count_incr_ok name v :
  class_name_dict self !! class_id = Some name →
  deref (count_objs σ) l !! name = Some v →
  count_incr self batch id class_id σ =
    (with_count l (<[name := v + 1]> (deref (count_objs σ) l)) σ, inr ()).
Proof.
  intros Hn Hv. unfold count_incr. run_M. run_M with Hl. run_M with Hn.
  by run_M with Hv.
Qed.

Lemma count_incr_unknown_class :
  class_name_dict self !! class_id = None →
  count_incr self batch id class_id σ = (σ, inl (KeyError (KInt class_id))).
Proof. intros Hn. unfold count_incr. run_M. run_M with Hl. by run_M with Hn. Qed.

Lemma count_incr_uncounted name :
  class_name_dict self !! class_id = Some name →
  deref (count_objs σ) l !! name = None →
  count_incr self batch id class_id σ = (σ, inl (KeyError (KStr name))).
Proof.
  intros Hn Hv. unfold count_incr. run_M. run_M with Hl. run_M with Hn.
  by run_M with Hv.
Qed.
End count_incr_cases.

(** ** The list of outcomes of [line_step] is complete *)

Lemma count_incr_no_counts self batch id class_id σ :
  batch !! id = None →
  count_incr self batch id class_id σ = (σ, inl IndexError).
Proof. intros Hl. unfold count_incr. run_M. by run_M with Hl. Qed.

Lemma line_step_inv self σ class_id tracker_id id triggers :
  line_step_outcome self σ class_id tracker_id id triggers
    (line_step self class_id tracker_id id triggers σ).1
    (line_step self class_id tracker_id id triggers σ).2.
Proof.
  destruct (tracker_state_batch self !! id) as [l|] eqn:Hl;
    [|rewrite line_step_out_of_range by done; by constructor].
  destruct (deref (side_objs σ) l !! tracker_id) as [b|] eqn:Hd;
    [|rewrite (line_step_first _ _ _ _ _ _ l) by done; by constructor].
  destruct (decide (b = triggers)) as [->|Hb];
    [rewrite (line_step_same _ _ _ _ _ _ l) by done; by econstructor|].
  destruct (tracker_line σ !! tracker_id) as [log|] eqn:Hlog;
    [|rewrite (line_step_unlogged _ _ _ _ _ _ l Hl b) by done; by econstructor].
  rewrite (line_step_flip _ _ _ _ _ _ l Hl b log) by done.
  destruct (count_batch self triggers !! id) as [lc|] eqn:Hlc;
    [|rewrite count_incr_no_counts by done; by econstructor].
  destruct (class_name_dict self !! class_id) as [name|] eqn:Hn;
    [|rewrite (count_incr_unknown_class _ _ _ _ _ lc) by done; by econstructor].
  assert (deref (count_objs (flipped σ tracker_id id triggers l log)) lc
          = deref (count_objs σ) lc) as Hsame by done.
  destruct (deref (count_objs σ) lc !! name) as [v|] eqn:Hv.
  - rewrite (count_incr_ok _ _ _ _ _ lc Hlc name v) by (by rewrite ?Hsame).
    rewrite Hsame. by econstructor.
  - rewrite (count_incr_uncounted _ _ _ _ _ lc Hlc name) by (by rewrite ?Hsame).
    by econstructor.
Qed.

(** ** Dict objects in the store *)

Section deref.
Context {A : Type} `{Empty A}.
Implicit Types (h : list A) (l : loc) (d : A).

Lemma deref_lookup h l d : h !! l = Some d → deref h l = d.
Proof. unfold deref. by intros ->. Qed.

Lemma deref_insert_eq h l d : (l < length h)%nat → deref (<[l := d]> h) l = d.
Proof. intros Hl. unfold deref. by rewrite list_lookup_insert_eq. Qed.

Lemma deref_insert_ne h l l' d : l ≠ l' → deref (<[l := d]> h) l' = deref h l'.
Proof. intros Hl. unfold deref. by rewrite list_lookup_insert_ne. Qed.

Lemma deref_app_l h h' l : (l < length h)%nat → deref (h ++ h') l = deref h l.
Proof. intros Hl. unfold deref. by rewrite lookup_app_l. Qed.
End deref.

(** A dict that holds a key is a live object of the store. *)
Lemma deref_Some_lt {K A} `{Countable K} (h : list (gmap K A)) l k v :
  deref h l !! k = Some v → (l < length h)%nat.
Proof.
  unfold deref. destruct (h !! l) eqn:Hl; simpl.
  - intros _. by eapply lookup_lt_Some.
  - by rewrite lookup_empty.
Qed.

Lemma evolves_refl σ : evolves σ σ.
Proof. split; eauto with lia. Qed.

Lemma evolves_trans σ1 σ2 σ3 : evolves σ1 σ2 → evolves σ2 σ3 → evolves σ1 σ3.
Proof.
  intros H12 H23. split.
  - rewrite (ev_count_len _ _ H23). apply H12.
  - rewrite (ev_side_len _ _ H23). apply H12.
  - intros l. rewrite (ev_count_dom _ _ H23). apply H12.
  - intros l name v Hv. destruct (ev_count_le _ _ H12 _ _ _ Hv) as (v2 & Hv2 & ?).
    destruct (ev_count_le _ _ H23 _ _ _ Hv2) as (v3 & ? & ?). exists v3. split; [done|lia].
  - intros l. etrans; [apply H12|apply H23].
  - etrans; [apply H12|apply H23].
Qed.

Lemma evolves_with_side σ l k s :
  evolves σ (with_side l (<[k := s]> (deref (side_objs σ) l)) σ).
Proof.
  split; simpl; try done.
  - by rewrite length_insert.
  - intros ??? ->. eexists. split; [done|lia].
  - intros l'. destruct (decide (l = l')) as [<-|Hne]; [|by rewrite deref_insert_ne].
    destruct (decide (l < length (side_objs σ))%nat).
    + rewrite deref_insert_eq by done. set_solver.
    + by rewrite list_insert_ge by lia.
Qed.

Lemma evolves_with_line σ k log :
  evolves σ (with_line (<[k := log]> (tracker_line σ)) σ).
Proof.
  split; simpl; try done.
  - intros ??? ->. eexists. split; [done|lia].
  - set_solver.
Qed.

Lemma evolves_with_count σ l name v :
  deref (count_objs σ) l !! name = Some v →
  evolves σ (with_count l (<[name := v + 1]> (deref (count_objs σ) l)) σ).
Proof.
  intros Hv. pose proof (deref_Some_lt _ _ _ _ Hv) as Hl.
  split; simpl; try done.
  - by rewrite length_insert.
  - intros l'. destruct (decide (l = l')) as [<-|Hne]; [|by rewrite deref_insert_ne].
    rewrite deref_insert_eq by done. rewrite dom_insert_L.
    apply subseteq_union_1_L, singleton_subseteq_l. by eapply elem_of_dom_2.
  - intros l' name' v' Hv'.
    destruct (decide (l = l')) as [<-|Hne]; [|rewrite deref_insert_ne by done; eauto with lia].
    rewrite deref_insert_eq by done.
    destruct (decide (name = name')) as [<-|Hn].
    + rewrite lookup_insert_eq. eexists. split; [done|]. simplify_eq. lia.
    + rewrite lookup_insert_ne by done. eauto with lia.
Qed.

Lemma evolves_flipped σ tracker_id id triggers l log :
  evolves σ (flipped σ tracker_id id triggers l log).
Proof.
  unfold flipped. eapply evolves_trans; [apply evolves_with_side|].
  apply (evolves_with_line (with_side _ _ σ)).
Qed.

Lemma line_step_evolves self class_id tracker_id id triggers σ :
  evolves σ (line_step self class_id tracker_id id triggers σ).1.
Proof.
  destruct (line_step_inv self σ class_id tracker_id id triggers);
    eauto using evolves_refl, evolves_with_side, evolves_flipped.
  - eapply evolves_trans; [apply evolves_with_side|].
    apply (evolves_with_line (with_side _ _ σ)).
  - eapply evolves_trans; [apply evolves_flipped|].
    by apply (evolves_with_count (flipped _ _ _ _ _ _)).
Qed.

(** ** Consequences of the invariant *)

Section wf_facts.
Context (self : LineCounter) (σ : Store).
Hypothesis Hwf : wf self σ.

Lemma in_batch_count_locs i l : in_count_dict_batch self !! i = Some l → l ∈ count_locs self.
Proof. intros Hl. apply elem_of_app. left. by eapply list_elem_of_lookup_2. Qed.

Lemma out_batch_count_locs i l : out_count_dict_batch self !! i = Some l → l ∈ count_locs self.
Proof. intros Hl. apply elem_of_app. right. by eapply list_elem_of_lookup_2. Qed.

Lemma count_batch_count_locs s i l : count_batch self s !! i = Some l → l ∈ count_locs self.
Proof. destruct s; [apply in_batch_count_locs|apply out_batch_count_locs]. Qed.

Lemma side_batch_inj i j l :
  tracker_state_batch self !! i = Some l → tracker_state_batch self !! j = Some l → i = j.
Proof. apply NoDup_lookup, Hwf. Qed.

Lemma in_batch_inj i j l :
  in_count_dict_batch self !! i = Some l → in_count_dict_batch self !! j = Some l → i = j.
Proof.
  pose proof (wf_count_nodup _ _ Hwf) as Hnd. apply NoDup_app in Hnd as (Hnd & _ & _).
  by apply NoDup_lookup.
Qed.

Lemma out_batch_inj i j l :
  out_count_dict_batch self !! i = Some l → out_count_dict_batch self !! j = Some l → i = j.
Proof.
  pose proof (wf_count_nodup _ _ Hwf) as Hnd. apply NoDup_app in Hnd as (_ & _ & Hnd).
  by apply NoDup_lookup.
Qed.

Lemma in_out_batch_disjoint i j l :
  in_count_dict_batch self !! i = Some l → out_count_dict_batch self !! j = Some l → False.
Proof.
  pose proof (wf_count_nodup _ _ Hwf) as Hnd. apply NoDup_app in Hnd as (_ & Hnd & _).
  intros Hi Hj. eapply Hnd; by eapply list_elem_of_lookup_2.
Qed.

(** Every configured line has its three dict objects. *)
Lemma line_has_state i :
  (i < length (vector_batch self))%nat →
  ∃ ls li lo, tracker_state_batch self !! i = Some ls
    ∧ in_count_dict_batch self !! i = Some li
    ∧ out_count_dict_batch self !! i = Some lo.
Proof.
  intros Hi.
  destruct (lookup_lt_is_Some_2 (tracker_state_batch self) i) as [ls ?];
    [by rewrite (wf_len_side _ _ Hwf)|].
  destruct (lookup_lt_is_Some_2 (in_count_dict_batch self) i) as [li ?];
    [by rewrite (wf_len_in _ _ Hwf)|].
  destruct (lookup_lt_is_Some_2 (out_count_dict_batch self) i) as [lo ?];
    [by rewrite (wf_len_out _ _ Hwf)|].
  by exists ls, li, lo.
Qed.
End wf_facts.

(** The invariant is kept by any evolution of the store that keeps the
    crossing log in step with the side maps. *)
Lemma wf_evolves self σ σ' :
  wf self σ → evolves σ σ' → logged self σ' → wf self σ'.
Proof.
  intros Hwf Hev Hlog. split; try apply Hwf; try done.
  - intros l Hl. rewrite (ev_count_len _ _ Hev). by apply Hwf.
  - intros l Hl. rewrite (ev_side_len _ _ Hev). by apply Hwf.
  - intros l l' Hl Hl'. rewrite !(ev_count_dom _ _ Hev). by apply Hwf.
  - intros c Hc. destruct (wf_classes _ _ Hwf c Hc) as (name & Hn & Hin).
    exists name. split; [done|]. intros l Hl. rewrite (ev_count_dom _ _ Hev). by apply Hin.
  - intros l name v Hl Hv.
    assert (name ∈ dom (deref (count_objs σ) l)) as [v0 Hv0]%elem_of_dom.
    { rewrite <-(ev_count_dom _ _ Hev). by eapply elem_of_dom_2. }
    destruct (ev_count_le _ _ Hev _ _ _ Hv0) as (v' & Hv' & Hle).
    pose proof (wf_nonneg _ _ Hwf _ _ _ Hl Hv0). simplify_eq. lia.
Qed.

Lemma logged_with_count self σ l d : logged self σ → logged self (with_count l d σ).
Proof. done. Qed.

Lemma logged_first_or_flip self σ l tracker_id s log :
  logged self σ →
  logged self (with_line (<[tracker_id := log]> (tracker_line σ))
                 (with_side l (<[tracker_id := s]> (deref (side_objs σ) l)) σ)).
Proof.
  intros Hlog l' Hl'. simpl. rewrite dom_insert_L.
  destruct (decide (l = l')) as [<-|Hne].
  - destruct (decide (l < length (side_objs σ))%nat).
    + rewrite deref_insert_eq by done. rewrite dom_insert_L.
      apply union_mono_l. by apply Hlog.
    + rewrite list_insert_ge by lia. etrans; [by apply Hlog|]. apply union_subseteq_r.
  - rewrite deref_insert_ne by done. etrans; [by apply Hlog|]. apply union_subseteq_r.
Qed.

Lemma line_step_wf self class_id tracker_id id triggers σ :
  wf self σ → wf self (line_step self class_id tracker_id id triggers σ).1.
Proof.
  intros Hwf. eapply wf_evolves; [done|apply line_step_evolves|].
  pose proof (wf_logged _ _ Hwf) as Hlog.
  destruct (line_step_inv self σ class_id tracker_id id triggers);
    try apply logged_with_count; try (by apply logged_first_or_flip); try done.
  (* a side map never holds an identity that the crossing log lacks *)
  exfalso. assert (tracker_id ∈ dom (tracker_line σ)) as Hin.
  { eapply Hlog; [by eapply list_elem_of_lookup_2|]. by eapply elem_of_dom_2. }
  by apply not_elem_of_dom in Hin.
Qed.

(** ** Loops *)

Section for_loop.
Context {A : Type} (body : A → M unit).

Lemma for_cons a l σ :
  for_ (a :: l) body σ =
    match body a σ with
    | (σ', inr _) => for_ l body σ'
    | (σ', inl e) => (σ', inl e)
    end.
Proof. done. Qed.

Lemma for_app l1 l2 σ :
  for_ (l1 ++ l2) body σ =
    match for_ l1 body σ with
    | (σ', inr _) => for_ l2 body σ'
    | (σ', inl e) => (σ', inl e)
    end.
Proof.
  revert σ. induction l1 as [|a l1 IH]; intros σ; [done|].
  rewrite <-app_comm_cons, !for_cons.
  destruct (body a σ) as [σ' [e|[]]]; [done|]. apply IH.
Qed.

(** A loop keeps what each iteration keeps, and moves the store along any
    preorder that each iteration respects. *)
Lemma for_invariant (P : Store → Prop) (R : Store → Store → Prop) l σ :
  (∀ σ, R σ σ) →
  (∀ σ1 σ2 σ3, R σ1 σ2 → R σ2 σ3 → R σ1 σ3) →
  (∀ a σ, a ∈ l → P σ → P (body a σ).1 ∧ R σ (body a σ).1) →
  P σ → P (for_ l body σ).1 ∧ R σ (for_ l body σ).1.
Proof.
  intros Hrefl Htrans. revert σ. induction l as [|a l IH]; intros σ Hbody HP; [by split|].
  rewrite for_cons. destruct (Hbody a σ) as [HP' HR']; [by left|done|].
  destruct (body a σ) as [σ' [e|[]]]; [done|]. simpl in *.
  destruct (IH σ') as [? ?]; [|done|].
  - intros a' σ'' Ha'. apply Hbody. by right.
  - split; [done|]. by eapply Htrans.
Qed.
End for_loop.

Section enumerate.
Context {A : Type}.
Implicit Types (l : list A) (k i : nat).

Lemma enumerate_from_fst k l : (enumerate_from k l).*1 = seq k (length l).
Proof. revert k. induction l as [|a l IH]; intros k; [done|]. simpl. by rewrite IH. Qed.

Lemma enumerate_from_lookup k l i :
  enumerate_from k l !! i = (λ a, (k + i, a)%nat) <$> l !! i.
Proof.
  revert k i. induction l as [|a l IH]; intros k [|i]; simpl; try done.
  - by rewrite Nat.add_0_r.
  - rewrite IH. by replace (S k + i)%nat with (k + S i)%nat by lia.
Qed.

Lemma enumerate_NoDup l : NoDup (enumerate l).*1.
Proof. unfold enumerate. rewrite enumerate_from_fst. apply NoDup_seq. Qed.

Lemma enumerate_lookup l i : enumerate l !! i = (λ a, (i, a)) <$> l !! i.
Proof. unfold enumerate. by rewrite enumerate_from_lookup. Qed.

Lemma elem_of_enumerate l i a : (i, a) ∈ enumerate l ↔ l !! i = Some a.
Proof.
  rewrite list_elem_of_lookup. split.
  - intros [j Hj]. rewrite enumerate_lookup in Hj.
    destruct (l !! j) eqn:?; by simplify_eq/=.
  - intros Hi. exists i. by rewrite enumerate_lookup, Hi.
Qed.

(** The loop over [enumerate l] visits line [i] once, after lines
    [0 .. i-1] and before lines [i+1 ..]. *)
Lemma enumerate_split l i a :
  l !! i = Some a →
  ∃ pre post, enumerate l = pre ++ (i, a) :: post
    ∧ (i ∉ pre.*1) ∧ (i ∉ post.*1)
    ∧ (∀ j b, (j, b) ∈ pre ↔ (j < i)%nat ∧ l !! j = Some b)
    ∧ (∀ j b, (j, b) ∈ post ↔ (i < j)%nat ∧ l !! j = Some b).
Proof.
  intros Hi. exists (take i (enumerate l)), (drop (S i) (enumerate l)).
  assert (enumerate l !! i = Some (i, a)) as Hi' by (by rewrite enumerate_lookup, Hi).
  assert (∀ j b, (j, b) ∈ take i (enumerate l) ↔ (j < i)%nat ∧ l !! j = Some b) as Hpre.
  { intros j b. rewrite list_elem_of_lookup. split.
    - intros [k Hk]. apply lookup_take_Some in Hk as [Hk ?].
      rewrite enumerate_lookup in Hk. destruct (l !! k) eqn:?; simplify_eq/=. done.
    - intros [? Hj]. exists j. rewrite lookup_take_lt by done.
      by rewrite enumerate_lookup, Hj. }
  assert (∀ j b, (j, b) ∈ drop (S i) (enumerate l) ↔ (i < j)%nat ∧ l !! j = Some b) as Hpost.
  { intros j b. rewrite list_elem_of_lookup. split.
    - intros [k Hk]. rewrite lookup_drop, enumerate_lookup in Hk.
      destruct (l !! (S i + k)%nat) eqn:?; simplify_eq/=. split; [lia|done].
    - intros [? Hj]. exists (j - S i)%nat. rewrite lookup_drop.
      replace (S i + (j - S i))%nat with j by lia. by rewrite enumerate_lookup, Hj. }
  split_and!; try done.
  - rewrite <-(take_drop_middle _ _ _ Hi') at 1. done.
  - intros [[j b] [? Hjb]]%list_elem_of_fmap. simpl in *. subst j.
    apply Hpre in Hjb. lia.
  - intros [[j b] [? Hjb]]%list_elem_of_fmap. simpl in *. subst j.
    apply Hpost in Hjb. lia.
Qed.
End enumerate.

(** ** What one line's step leaves alone *)

Section frame.
Context (self : LineCounter) (class_id tracker_id : Z) (id : nat) (triggers : bool).
Context (σ : Store).
Local Abbreviation σ' := (line_step self class_id tracker_id id triggers σ).1.

(** Only the side map of line [id] is written. *)
Lemma line_step_frame_side l :
  tracker_state_batch self !! id ≠ Some l →
  deref (side_objs σ') l = deref (side_objs σ) l.
Proof.
  intros Hne. destruct (line_step_inv self σ class_id tracker_id id triggers);
    simpl; try done; by rewrite deref_insert_ne by congruence.
Qed.

(** Only one count dict is written: the one of line [id] in the batch
    chosen by the new side. *)
Lemma line_step_frame_count l :
  count_batch self triggers !! id ≠ Some l →
  deref (count_objs σ') l = deref (count_objs σ) l.
Proof.
  intros Hne. destruct (line_step_inv self σ class_id tracker_id id triggers);
    simpl; try done; by rewrite deref_insert_ne by congruence.
Qed.

Hypothesis Hwf : wf self σ.

Lemma line_step_side_of_ne i : i ≠ id → side_of self σ' i = side_of self σ i.
Proof.
  intros Hne. unfold side_of.
  destruct (tracker_state_batch self !! i) as [l|] eqn:Hl; [|done]. simpl. f_equal.
  apply line_step_frame_side. intros Hid. by pose proof (side_batch_inj _ _ Hwf _ _ _ Hl Hid).
Qed.

Lemma line_step_in_of_ne i : i ≠ id ∨ triggers = false → in_of self σ' i = in_of self σ i.
Proof.
  intros Hne. unfold in_of.
  destruct (in_count_dict_batch self !! i) as [l|] eqn:Hl; [|done]. simpl. f_equal.
  apply line_step_frame_count. intros Hid. destruct triggers; simpl in Hid.
  - pose proof (in_batch_inj _ _ Hwf _ _ _ Hl Hid). destruct Hne; congruence.
  - by eapply in_out_batch_disjoint.
Qed.

Lemma line_step_out_of_ne i : i ≠ id ∨ triggers = true → out_of self σ' i = out_of self σ i.
Proof.
  intros Hne. unfold out_of.
  destruct (out_count_dict_batch self !! i) as [l|] eqn:Hl; [|done]. simpl. f_equal.
  apply line_step_frame_count. intros Hid. destruct triggers; simpl in Hid.
  - by eapply in_out_batch_disjoint.
  - pose proof (out_batch_inj _ _ Hwf _ _ _ Hl Hid). destruct Hne; congruence.
Qed.
End frame.

(** The same for the inner loop: a line that the loop does not visit keeps
    its side map and its counts. *)
Section loop_frame.
Context (self : LineCounter) (class_id tracker_id : Z).

Lemma line_loop_wf ts σ :
  wf self σ →
  wf self (line_loop self class_id tracker_id ts σ).1
  ∧ evolves σ (line_loop self class_id tracker_id ts σ).1.
Proof.
  apply for_invariant; eauto using evolves_refl, evolves_trans.
  intros [id s] σ1 _ Hwf. split; [by apply line_step_wf|apply line_step_evolves].
Qed.

Lemma line_loop_frame ts σ i :
  wf self σ → i ∉ (ts.*1) →
  let σ' := (line_loop self class_id tracker_id ts σ).1 in
  side_of self σ' i = side_of self σ i
  ∧ in_of self σ' i = in_of self σ i
  ∧ out_of self σ' i = out_of self σ i.
Proof.
  intros Hwf Hi.
  pose (R := λ σ1 σ2 : Store, side_of self σ2 i = side_of self σ1 i
    ∧ in_of self σ2 i = in_of self σ1 i ∧ out_of self σ2 i = out_of self σ1 i).
  enough (wf self (line_loop self class_id tracker_id ts σ).1
    ∧ R σ (line_loop self class_id tracker_id ts σ).1) as [_ ?] by done.
  apply for_invariant; [done| |  |done].
  - intros σ1 σ2 σ3 (?&?&?) (?&?&?). unfold R. split_and!; congruence.
  - intros [id s] σ1 Hin Hwf1. split; [by apply line_step_wf|].
    assert (i ≠ id) as Hne.
    { intros ->. apply Hi. apply list_elem_of_fmap. by exists (id, s). }
    split_and!; [by apply line_step_side_of_ne|apply line_step_in_of_ne|
                 apply line_step_out_of_ne]; auto.
Qed.
End loop_frame.

(** ** Flips and class resolution *)

Lemma counted_evolves self σ σ' c : counted self σ c → evolves σ σ' → counted self σ' c.
Proof.
  intros (name & Hn & Hin) Hev. exists name. split; [done|].
  intros l Hl. rewrite (ev_count_dom _ _ Hev). by apply Hin.
Qed.

Lemma is_flip_Some self σ tracker_id id triggers l b :
  tracker_state_batch self !! id = Some l →
  deref (side_objs σ) l !! tracker_id = Some b →
  is_flip self σ tracker_id id triggers = bool_decide (b ≠ triggers).
Proof. intros Hl Hb. unfold is_flip, side_of. rewrite Hl. simpl. by rewrite Hb. Qed.

Section step_result.
Context (self : LineCounter) (class_id tracker_id : Z).
Implicit Types (σ : Store) (id : nat) (triggers : bool).

Lemma wf_side_batch_Some σ id :
  wf self σ → (id < length (vector_batch self))%nat →
  tracker_state_batch self !! id ≠ None.
Proof.
  intros Hwf Hid Hl%lookup_ge_None. rewrite (wf_len_side _ _ Hwf) in Hl. lia.
Qed.

Lemma wf_count_batch_Some σ id triggers :
  wf self σ → (id < length (vector_batch self))%nat →
  count_batch self triggers !! id ≠ None.
Proof.
  intros Hwf Hid Hl%lookup_ge_None.
  destruct triggers; simpl in Hl;
    [rewrite (wf_len_in _ _ Hwf) in Hl|rewrite (wf_len_out _ _ Hwf) in Hl]; lia.
Qed.

Lemma wf_logged_lookup σ id l b :
  wf self σ → tracker_state_batch self !! id = Some l →
  deref (side_objs σ) l !! tracker_id = Some b →
  tracker_line σ !! tracker_id ≠ None.
Proof.
  intros Hwf Hl Hd Hlog. apply not_elem_of_dom in Hlog. apply Hlog.
  eapply (wf_logged _ _ Hwf); [by eapply list_elem_of_lookup_2|].
  by eapply elem_of_dom_2.
Qed.

Lemma line_step_ok σ id triggers :
  wf self σ → (id < length (vector_batch self))%nat →
  (is_flip self σ tracker_id id triggers = true → counted self σ class_id) →
  (line_step self class_id tracker_id id triggers σ).2 = inr ().
Proof.
  intros Hwf Hid Hc.
  destruct (line_step_inv self σ class_id tracker_id id triggers)
    as [Hl|l Hl Hd|l Hl Hd|l b Hl Hd Hb Hlog|l b log Hl Hd Hb Hlog Hlc
       |l b log lc Hl Hd Hb Hlog Hlc Hn|l b log lc name Hl Hd Hb Hlog Hlc Hn Hv
       |l b log lc name v Hl Hd Hb Hlog Hlc Hn Hv]; try done.
  - by destruct (wf_side_batch_Some σ id).
  - by destruct (wf_logged_lookup σ id l b).
  - by destruct (wf_count_batch_Some σ id triggers).
  - destruct Hc as (? & ? & _); [|congruence].
    erewrite is_flip_Some by done. by apply bool_decide_eq_true_2.
  - destruct Hc as (name' & ? & Hin).
    { erewrite is_flip_Some by done. by apply bool_decide_eq_true_2. }
    simplify_eq. apply not_elem_of_dom in Hv. destruct Hv.
    apply Hin. by eapply count_batch_count_locs.
Qed.

Lemma line_step_raises σ id triggers :
  wf self σ → (id < length (vector_batch self))%nat →
  is_flip self σ tracker_id id triggers = true →
  class_name_dict self !! class_id = None →
  (line_step self class_id tracker_id id triggers σ).2 = inl (KeyError (KInt class_id)).
Proof.
  intros Hwf Hid Hflip Hn.
  destruct (line_step_inv self σ class_id tracker_id id triggers)
    as [Hl|l Hl Hd|l Hl Hd|l b Hl Hd Hb Hlog|l b log Hl Hd Hb Hlog Hlc
       |l b log lc Hl Hd Hb Hlog Hlc Hn'|l b log lc name Hl Hd Hb Hlog Hlc Hn' Hv
       |l b log lc name v Hl Hd Hb Hlog Hlc Hn' Hv]; try done; try congruence.
  - by destruct (wf_side_batch_Some σ id).
  - unfold is_flip, side_of in Hflip. rewrite Hl in Hflip. simpl in Hflip.
    by rewrite Hd in Hflip.
  - erewrite is_flip_Some in Hflip by done.
    by apply bool_decide_eq_true_1 in Hflip.
  - by destruct (wf_logged_lookup σ id l b).
  - by destruct (wf_count_batch_Some σ id triggers).
Qed.

Lemma line_step_is_flip_ne σ id triggers t i s :
  wf self σ → i ≠ id →
  is_flip self (line_step self class_id tracker_id id triggers σ).1 t i s
  = is_flip self σ t i s.
Proof. intros Hwf Hne. unfold is_flip. by rewrite line_step_side_of_ne. Qed.

(** The inner loop returns normally when every flip it meets is of a
    counted class. *)
Lemma line_loop_ok ts σ :
  wf self σ → NoDup (ts.*1) →
  (∀ id s, (id, s) ∈ ts → (id < length (vector_batch self))%nat
     ∧ (is_flip self σ tracker_id id s = true → counted self σ class_id)) →
  (line_loop self class_id tracker_id ts σ).2 = inr ().
Proof.
  revert σ. induction ts as [|[id s] ts IH]; intros σ Hwf Hnd Hts; [done|].
  unfold line_loop. rewrite for_cons. fold (line_loop self class_id tracker_id ts).
  apply NoDup_cons in Hnd as [Hid Hnd].
  destruct (Hts id s) as [Hlt Hc]; [by left|].
  pose proof (line_step_ok σ id s Hwf Hlt Hc) as Hok.
  pose proof (line_step_wf self class_id tracker_id id s σ Hwf) as Hwf1.
  pose proof (line_step_evolves self class_id tracker_id id s σ) as Hev.
  pose proof (line_step_is_flip_ne σ id s) as Hflip.
  destruct (line_step self class_id tracker_id id s σ) as [σ1 [e|[]]]; [done|].
  simpl in *. apply IH; [done..|].
  intros id' s' Hin. destruct (Hts id' s') as [? Hc']; [by right|]. split; [done|].
  rewrite Hflip; [|done|].
  - intros. eapply counted_evolves; eauto.
  - intros ->. apply Hid. apply list_elem_of_fmap. by exists (id, s').
Qed.

(** It raises [KeyError] when it meets a flip and the class has no name. *)
Lemma line_loop_raises ts σ :
  wf self σ → NoDup (ts.*1) →
  (∀ id s, (id, s) ∈ ts → (id < length (vector_batch self))%nat) →
  class_name_dict self !! class_id = None →
  (∃ id s, (id, s) ∈ ts ∧ is_flip self σ tracker_id id s = true) →
  (line_loop self class_id tracker_id ts σ).2 = inl (KeyError (KInt class_id)).
Proof.
  revert σ. induction ts as [|[id s] ts IH]; intros σ Hwf Hnd Hts Hn (id' & s' & Hin & Hflip').
  { by apply elem_of_nil in Hin. }
  unfold line_loop. rewrite for_cons. fold (line_loop self class_id tracker_id ts).
  apply NoDup_cons in Hnd as [Hid Hnd].
  assert (id < length (vector_batch self))%nat as Hlt by (apply (Hts id s); by left).
  pose proof (line_step_wf self class_id tracker_id id s σ Hwf) as Hwf1.
  pose proof (line_step_is_flip_ne σ id s) as Hframe.
  destruct (is_flip self σ tracker_id id s) eqn:Hflip.
  - pose proof (line_step_raises σ id s Hwf Hlt Hflip Hn) as Herr.
    by destruct (line_step self class_id tracker_id id s σ) as [σ1 [e|[]]]; simplify_eq/=.
  - pose proof (line_step_ok σ id s Hwf Hlt) as Hok. rewrite Hflip in Hok.
    destruct (line_step self class_id tracker_id id s σ) as [σ1 [e|[]]];
      [by specialize (Hok ltac:(done))|].
    simpl in *. apply IH; [done|done| |done|].
    + intros ???. apply (Hts id0 s0). by right.
    + apply elem_of_cons in Hin as [?|Hin]; [congruence|].
      exists id', s'. split; [done|]. rewrite Hframe; [done..|].
      intros ->. apply Hid. apply list_elem_of_fmap. by exists (id, s').
Qed.
End step_result.

(** ** What a step does to its own line *)

Lemma side_of_Some self σ i d :
  side_of self σ i = Some d ↔
  ∃ l, tracker_state_batch self !! i = Some l ∧ d = deref (side_objs σ) l.
Proof.
  unfold side_of. destruct (tracker_state_batch self !! i) as [l|]; simpl.
  - split; [intros [= <-]; eauto|]. by intros (? & [= <-] & ->).
  - split; [done|]. by intros (? & ? & _).
Qed.

Section own_line.
Context (self : LineCounter) (class_id tracker_id : Z) (id : nat) (triggers : bool).
Context (σ : Store) (d : gmap Z bool).
Hypothesis Hwf : wf self σ.
Hypothesis Hside : side_of self σ id = Some d.
Local Abbreviation σ' := (line_step self class_id tracker_id id triggers σ).1.
Local Abbreviation r := (line_step self class_id tracker_id id triggers σ).2.

Lemma side_of_with_side (l : loc) (σ0 : Store) d' :
  tracker_state_batch self !! id = Some l →
  (l < length (side_objs σ0))%nat →
  side_of self (with_side l d' σ0) id = Some d'.
Proof. intros Hl Hlt. unfold side_of. rewrite Hl. simpl. by rewrite deref_insert_eq. Qed.

Lemma line_step_first_sighting :
  d !! tracker_id = None →
  r = inr ()
  ∧ side_of self σ' id = Some (<[tracker_id := triggers]> d)
  ∧ count_objs σ' = count_objs σ
  ∧ tracker_line σ' = <[tracker_id := [class_id]]> (tracker_line σ).
Proof.
  intros Hd. apply side_of_Some in Hside as (l & Hl & ->).
  rewrite (line_step_first _ _ _ _ _ _ l) by done. simpl. split_and!; try done.
  apply (side_of_with_side l σ); [done|].
  apply (wf_side_live _ _ Hwf). by eapply list_elem_of_lookup_2.
Qed.

Lemma line_step_same_side :
  d !! tracker_id = Some triggers →
  line_step self class_id tracker_id id triggers σ = (σ, inr ()).
Proof.
  intros Hd. apply side_of_Some in Hside as (l & Hl & ->).
  by rewrite (line_step_same _ _ _ _ _ _ l).
Qed.

(** At a flip the side map and the crossing log are written first,
    whatever happens to the count afterwards. *)
Lemma line_step_flip_state b :
  d !! tracker_id = Some b → b ≠ triggers →
  side_of self σ' id = Some (<[tracker_id := triggers]> d)
  ∧ ∃ log, tracker_line σ !! tracker_id = Some log
      ∧ tracker_line σ' = <[tracker_id := log ++ [Z.of_nat id]]> (tracker_line σ).
Proof.
  intros Hd Hb. apply side_of_Some in Hside as (l0 & Hl0 & ->).
  assert (l0 < length (side_objs σ))%nat as Hlt.
  { apply (wf_side_live _ _ Hwf). by eapply list_elem_of_lookup_2. }
  destruct (line_step_inv self σ class_id tracker_id id triggers)
    as [Hl|l Hl Hd'|l Hl Hd'|l b' Hl Hd' Hb' Hlog|l b' log Hl Hd' Hb' Hlog Hlc
       |l b' log lc Hl Hd' Hb' Hlog Hlc Hn|l b' log lc name Hl Hd' Hb' Hlog Hlc Hn Hv
       |l b' log lc name v Hl Hd' Hb' Hlog Hlc Hn Hv]; simplify_eq.
  - exfalso. eapply wf_logged_lookup; eassumption.
  - split; [by apply (side_of_with_side l0 σ)|]. by exists log.
  - split; [by apply (side_of_with_side l0 σ)|]. by exists log.
  - split; [by apply (side_of_with_side l0 σ)|]. by exists log.
  - split; [by apply (side_of_with_side l0 σ)|]. by exists log.
Qed.

Lemma line_step_flip_unknown_class b :
  d !! tracker_id = Some b → b ≠ triggers →
  class_name_dict self !! class_id = None →
  (id < length (vector_batch self))%nat →
  r = inl (KeyError (KInt class_id)) ∧ count_objs σ' = count_objs σ.
Proof.
  intros Hd Hb Hn Hid. apply side_of_Some in Hside as (l0 & Hl0 & ->).
  destruct (line_step_inv self σ class_id tracker_id id triggers)
    as [Hl|l Hl Hd'|l Hl Hd'|l b' Hl Hd' Hb' Hlog|l b' log Hl Hd' Hb' Hlog Hlc
       |l b' log lc Hl Hd' Hb' Hlog Hlc Hn'|l b' log lc name Hl Hd' Hb' Hlog Hlc Hn' Hv
       |l b' log lc name v Hl Hd' Hb' Hlog Hlc Hn' Hv]; simplify_eq; try done.
  - exfalso. eapply wf_logged_lookup; eassumption.
  - by destruct (wf_count_batch_Some self σ id triggers).
Qed.

Lemma line_step_flip_counts b name di do a c :
  d !! tracker_id = Some b → b ≠ triggers →
  class_name_dict self !! class_id = Some name →
  in_of self σ id = Some di → di !! name = Some a →
  out_of self σ id = Some do → do !! name = Some c →
  r = inr ()
  ∧ in_of self σ' id = Some (if triggers then <[name := a + 1]> di else di)
  ∧ out_of self σ' id = Some (if triggers then do else <[name := c + 1]> do).
Proof.
  intros Hd Hb Hn Hin Ha Hout Hc. apply side_of_Some in Hside as (l0 & Hl0 & ->).
  unfold in_of, out_of in *.
  destruct (in_count_dict_batch self !! id) as [li|] eqn:Hli; [|done].
  destruct (out_count_dict_batch self !! id) as [lo|] eqn:Hlo; [|done].
  simpl in Hin, Hout. simplify_eq.
  pose proof (deref_Some_lt _ _ _ _ Ha) as Hlti.
  pose proof (deref_Some_lt _ _ _ _ Hc) as Hlto.
  assert (li ≠ lo) as Hne by (intros ->; by eapply in_out_batch_disjoint).
  destruct (line_step_inv self σ class_id tracker_id id triggers)
    as [Hl|l Hl Hd'|l Hl Hd'|l b' Hl Hd' Hb' Hlog|l b' log Hl Hd' Hb' Hlog Hlc
       |l b' log lc Hl Hd' Hb' Hlog Hlc Hn'|l b' log lc name' Hl Hd' Hb' Hlog Hlc Hn' Hv
       |l b' log lc name' v Hl Hd' Hb' Hlog Hlc Hn' Hv]; simplify_eq.
  - exfalso. eapply wf_logged_lookup; eassumption.
  - destruct triggers; simpl in Hlc; congruence.
  - destruct triggers; simpl in Hlc; congruence.
  - split; [done|]. simpl.
    destruct triggers; simpl in Hlc; simplify_eq.
    + by rewrite deref_insert_eq, deref_insert_ne.
    + by rewrite deref_insert_eq, deref_insert_ne.
Qed.
End own_line.

(** ** The constructor in closed form *)

Section init_vectors.
Context (start end_ : list Point.t) (σ : Store).

Lemma pair_up_Some i s e :
  start !! i = Some s → end_ !! i = Some e →
  pair_up start end_ i σ = (σ, inr (Vector.mk s e)).
Proof. intros Hs He. unfold pair_up. run_M. run_M with Hs. by run_M with He. Qed.

Lemma pair_up_None i s :
  start !! i = Some s → end_ !! i = None →
  pair_up start end_ i σ = (σ, inl IndexError).
Proof. intros Hs He. unfold pair_up. run_M. run_M with Hs. by run_M with He. Qed.

Lemma collect_cons {A B} (body : A → M B) a l σ0 :
  collect (a :: l) body σ0 =
    match body a σ0 with
    | (σ1, inr b) =>
        match collect l body σ1 with
        | (σ2, inr bs) => (σ2, inr (b :: bs))
        | (σ2, inl e) => (σ2, inl e)
        end
    | (σ1, inl e) => (σ1, inl e)
    end.
Proof. done. Qed.

Lemma collect_vectors_ok k m :
  (k + m = length start)%nat → (k + m ≤ length end_)%nat →
  collect (seq k m) (pair_up start end_) σ
  = (σ, inr (zip_with Vector.mk (drop k start) (drop k end_))).
Proof.
  revert k. induction m as [|m IH]; intros k Hs He.
  - rewrite drop_ge by lia. done.
  - destruct (lookup_lt_is_Some_2 start k) as [s Hks]; [lia|].
    destruct (lookup_lt_is_Some_2 end_ k) as [e Hke]; [lia|].
    simpl seq. rewrite collect_cons, (pair_up_Some k s e) by done.
    rewrite IH by lia.
    by rewrite (drop_S start s k), (drop_S end_ e k).
Qed.

Lemma collect_vectors_fail k m :
  (k + m = length start)%nat → (k ≤ length end_)%nat → (length end_ < k + m)%nat →
  collect (seq k m) (pair_up start end_) σ = (σ, inl IndexError).
Proof.
  revert k. induction m as [|m IH]; intros k Hs Hk He; [lia|].
  destruct (lookup_lt_is_Some_2 start k) as [s Hks]; [lia|].
  simpl seq. rewrite collect_cons.
  destruct (end_ !! k) as [e|] eqn:Hke.
  - rewrite (pair_up_Some k s e) by done.
    apply lookup_lt_Some in Hke. by rewrite IH by lia.
  - by rewrite (pair_up_None k s).
Qed.

Lemma init_vectors_ok :
  (length start ≤ length end_)%nat →
  init_vectors start end_ σ = (σ, inr (zip_with Vector.mk start end_)).
Proof. intros. unfold init_vectors. by rewrite collect_vectors_ok by lia. Qed.

Lemma init_vectors_fail :
  (length end_ < length start)%nat →
  init_vectors start end_ σ = (σ, inl IndexError).
Proof. intros. unfold init_vectors. by rewrite collect_vectors_fail by lia. Qed.
End init_vectors.

Lemma zero_both_ok class_name_dict (h : list (gmap string Z)) d1 d2 rest s t c name :
  class_name_dict !! c = Some name →
  zero_both class_name_dict (length h) (S (length h)) c
    (mkStore (h ++ d1 :: d2 :: rest) s t)
  = (mkStore (h ++ <[name := 0]> d1 :: <[name := 0]> d2 :: rest) s t, inr ()).
Proof.
  intros Hname. unfold zero_both. run_M. run_M with Hname.
  unfold with_count, deref. simpl.
  rewrite (list_lookup_middle h _ d1 (length h)) by done. simpl.
  rewrite (insert_app_r_alt h _ (length h)) by lia. rewrite Nat.sub_diag. simpl.
  rewrite (lookup_app_r h) by lia. replace (S (length h) - length h)%nat with 1%nat by lia.
  simpl. rewrite (insert_app_r_alt h _ (S (length h))) by lia.
  by replace (S (length h) - length h)%nat with 1%nat by lia.
Qed.

Lemma init_counts_ok class_id class_name_dict (h : list (gmap string Z)) d1 d2 rest s t :
  (∀ c, c ∈ class_id → is_Some (class_name_dict !! c)) →
  init_counts class_id class_name_dict (length h) (S (length h))
    (mkStore (h ++ d1 :: d2 :: rest) s t)
  = (mkStore (h ++ zero_counts class_id class_name_dict d1
                :: zero_counts class_id class_name_dict d2 :: rest) s t, inr ()).
Proof.
  revert d1 d2. induction class_id as [|c cs IH]; intros d1 d2 Hall; [done|].
  destruct (Hall c) as [name Hname]; [by left|].
  unfold init_counts. rewrite for_cons, (zero_both_ok _ _ _ _ _ _ _ _ name) by done.
  fold (init_counts cs class_name_dict (length h) (S (length h))).
  rewrite IH; [simpl; by rewrite Hname|]. intros c' Hc'. apply Hall. by right.
Qed.

Lemma snoc_replicate {A} (h : list A) x m :
  (h ++ x :: replicate m x) ++ [x] = h ++ x :: replicate (S m) x.
Proof. by rewrite <-app_assoc, <-app_comm_cons, <-replicate_S_end. Qed.

Lemma snoc_replicate2 {A} (h : list A) x m :
  ((h ++ x :: x :: replicate m x) ++ [x]) ++ [x] = h ++ x :: x :: replicate (S (S m)) x.
Proof.
  assert (∀ l, h ++ x :: l = (h ++ [x]) ++ l) as Hmid by (intros; by rewrite <-app_assoc).
  by rewrite (Hmid (x :: replicate m x)), !snoc_replicate, <-app_assoc.
Qed.

Lemma copy_templates_ok (h : list (gmap string Z)) (s : list (gmap Z bool)) T E t k m :
  m = (2 * k)%nat →
  copy_templates (length h) (S (length h)) (length s)
    (mkStore (h ++ T :: T :: replicate m T) (s ++ E :: replicate k E) t)
  = (mkStore (h ++ T :: T :: replicate (S (S m)) T) (s ++ E :: replicate (S k) E) t,
     inr (line_locs (length h) (length s) k)).
Proof.
  intros Hm.
  assert (deref (h ++ T :: T :: replicate m T) (length h) = T) as Hin.
  { apply deref_lookup. by apply list_lookup_middle. }
  assert (deref ((h ++ T :: T :: replicate m T) ++ [T]) (S (length h)) = T) as Hout.
  { apply deref_lookup. rewrite lookup_app_l by (rewrite length_app; simpl; lia).
    rewrite lookup_app_r by lia. by replace (S (length h) - length h)%nat with 1%nat by lia. }
  assert (deref (s ++ E :: replicate k E) (length s) = E) as Hside.
  { apply deref_lookup. by apply list_lookup_middle. }
  unfold copy_templates, count_copy, side_copy, count_new, side_new. run_M.
  rewrite Hin, Hout, Hside, snoc_replicate, snoc_replicate2.
  do 2 f_equal. unfold line_locs. rewrite !length_app. simpl.
  rewrite !length_replicate. f_equal; [f_equal|]; lia.
Qed.

Lemma init_batches_ok (h : list (gmap string Z)) (s : list (gmap Z bool)) T E t j n k m :
  m = (2 * k)%nat →
  collect (seq j n) (λ _, copy_templates (length h) (S (length h)) (length s))
    (mkStore (h ++ T :: T :: replicate m T) (s ++ E :: replicate k E) t)
  = (mkStore (h ++ T :: T :: replicate (m + 2 * n) T) (s ++ E :: replicate (k + n) E) t,
     inr ((λ i, line_locs (length h) (length s) (k + i)) <$> seq 0 n)).
Proof.
  revert j k m. induction n as [|n IH]; intros j k m Hm.
  { simpl. by rewrite !Nat.add_0_r. }
  simpl seq. rewrite collect_cons, copy_templates_ok by done.
  rewrite (IH _ (S k) (S (S m))) by lia.
  replace (S k + n)%nat with (k + S n)%nat by lia.
  replace (S (S m) + 2 * n)%nat with (m + 2 * S n)%nat by lia.
  f_equal. f_equal.
  rewrite fmap_cons, Nat.add_0_r. f_equal.
  rewrite <-fmap_S_seq, <-list_fmap_compose. apply list_fmap_ext.
  intros _ i _. simpl. f_equal. lia.
Qed.

Section init_closed.
Context (start end_ : list Point.t) (class_id : list Z) (class_name_dict : gmap Z string).
Context (σ0 : Store).

Lemma init_ok :
  (length start ≤ length end_)%nat →
  (∀ c, c ∈ class_id → is_Some (class_name_dict !! c)) →
  __init__ start end_ class_id class_name_dict σ0
  = (init_store start class_id class_name_dict σ0,
     inr (init_self start end_ class_id class_name_dict σ0)).
Proof.
  intros Hlen Hall. unfold __init__. unfold mbind at 1, M_bind at 1.
  rewrite init_vectors_ok by done.
  unfold side_new, count_new. run_M. unfold with_line. simpl.
  rewrite length_app. simpl. rewrite Nat.add_1_r, <-app_assoc. simpl.
  rewrite (init_counts_ok _ _ (count_objs σ0) ∅ ∅ []) by done.
  unfold init_batches.
  rewrite (init_batches_ok (count_objs σ0) (side_objs σ0) _ ∅ ∅ 0 (length start) 0 0) by done.
  done.
Qed.

(** A missing end point stops the constructor in its first loop. *)
Lemma init_index_error :
  (length end_ < length start)%nat →
  __init__ start end_ class_id class_name_dict σ0 = (σ0, inl IndexError).
Proof.
  intros Hlen. unfold __init__. unfold mbind at 1, M_bind at 1.
  by rewrite init_vectors_fail.
Qed.
End init_closed.

(** ** The state after construction *)

Lemma zero_counts_keep class_id class_name_dict d name :
  d !! name = Some 0 → zero_counts class_id class_name_dict d !! name = Some 0.
Proof.
  revert d. induction class_id as [|c cs IH]; intros d Hd; [done|]. simpl. apply IH.
  destruct (class_name_dict !! c) as [name'|]; [|done].
  destruct (decide (name' = name)) as [->|]; [by rewrite lookup_insert_eq|].
  by rewrite lookup_insert_ne.
Qed.

Lemma zero_counts_lookup class_id class_name_dict d c name :
  c ∈ class_id → class_name_dict !! c = Some name →
  zero_counts class_id class_name_dict d !! name = Some 0.
Proof.
  revert d. induction class_id as [|c' cs IH]; intros d Hc Hname.
  { by apply elem_of_nil in Hc. }
  simpl. apply elem_of_cons in Hc as [<-|Hc]; [|by apply IH].
  rewrite Hname. apply zero_counts_keep, lookup_insert_eq.
Qed.

Lemma zero_counts_value class_id class_name_dict d name v :
  zero_counts class_id class_name_dict d !! name = Some v → v = 0 ∨ d !! name = Some v.
Proof.
  revert d. induction class_id as [|c cs IH]; intros d Hv; [by right|].
  simpl in Hv. apply IH in Hv as [?|Hv]; [by left|].
  destruct (class_name_dict !! c) as [name'|]; [|by right].
  destruct (decide (name' = name)) as [->|].
  - rewrite lookup_insert_eq in Hv. left. congruence.
  - rewrite lookup_insert_ne in Hv by done. by right.
Qed.

(** A key of the template comes from [d] or is the name of an identifier of
    [class_id]. *)
Lemma zero_counts_origin class_id class_name_dict d name v :
  zero_counts class_id class_name_dict d !! name = Some v →
  d !! name = Some v
  ∨ (v = 0 ∧ ∃ c, c ∈ class_id ∧ class_name_dict !! c = Some name).
Proof.
  revert d. induction class_id as [|c cs IH]; intros d Hd; [by left|].
  simpl in Hd. apply IH in Hd as [Hd|(-> & c' & ? & ?)].
  - destruct (class_name_dict !! c) as [name'|] eqn:Hc; [|by left].
    destruct (decide (name' = name)) as [->|].
    + rewrite lookup_insert_eq in Hd. right. split; [congruence|].
      exists c. split; [by left|done].
    + rewrite lookup_insert_ne in Hd by done. by left.
  - right. split; [done|]. exists c'. split; [by right|done].
Qed.

Section init_state.
Context (start end_ : list Point.t) (class_id : list Z) (class_name_dict : gmap Z string).
Context (σ0 : Store).

Local Abbreviation self := (init_self start end_ class_id class_name_dict σ0).
Local Abbreviation σ := (init_store start class_id class_name_dict σ0).
Local Abbreviation lc := (length (count_objs σ0)).
Local Abbreviation ls := (length (side_objs σ0)).
Local Abbreviation n := (length start).
Local Abbreviation zeros := (zero_counts class_id class_name_dict ∅).

Lemma init_in_batch : in_count_dict_batch self = (λ i, lc + 2 + 2 * i)%nat <$> seq 0 n.
Proof. simpl. by rewrite <-list_fmap_compose. Qed.

Lemma init_out_batch : out_count_dict_batch self = (λ i, lc + 3 + 2 * i)%nat <$> seq 0 n.
Proof. simpl. by rewrite <-list_fmap_compose. Qed.

Lemma init_side_batch : tracker_state_batch self = (λ i, ls + 1 + i)%nat <$> seq 0 n.
Proof. simpl. by rewrite <-list_fmap_compose. Qed.

Lemma init_count_locs l :
  l ∈ count_locs self → (lc + 2 ≤ l < lc + 2 + 2 * n)%nat.
Proof.
  unfold count_locs. rewrite init_in_batch, init_out_batch.
  intros [Hl|Hl]%elem_of_app; apply list_elem_of_fmap in Hl as (i & -> & Hi);
    apply elem_of_seq in Hi; lia.
Qed.

Lemma init_side_locs l :
  l ∈ tracker_state_batch self → (ls + 1 ≤ l < ls + 1 + n)%nat.
Proof.
  rewrite init_side_batch. intros (i & -> & Hi)%list_elem_of_fmap.
  apply elem_of_seq in Hi. lia.
Qed.

(** Every count dict of a line is a copy of the zero template... *)
Lemma init_count_deref l :
  (lc ≤ l < lc + 2 + 2 * n)%nat → deref (count_objs σ) l = zeros.
Proof.
  intros Hl. apply deref_lookup. simpl. rewrite lookup_app_r by lia.
  destruct (l - lc)%nat as [|[|k]] eqn:Hk; simpl; [done|done|].
  apply lookup_replicate_2. lia.
Qed.

(** ... and every side map of a line is empty. *)
Lemma init_side_deref l :
  (ls ≤ l < ls + 1 + n)%nat → deref (side_objs σ) l = ∅.
Proof.
  intros Hl. apply deref_lookup. simpl. rewrite lookup_app_r by lia.
  destruct (l - ls)%nat as [|k] eqn:Hk; simpl; [done|].
  apply lookup_replicate_2. lia.
Qed.

Lemma init_count_NoDup : NoDup (in_count_dict self :: out_count_dict self :: count_locs self).
Proof.
  assert (NoDup (count_locs self)) as Hnd.
  { unfold count_locs. rewrite init_in_batch, init_out_batch. apply NoDup_app. split_and!.
    - apply NoDup_fmap_2; [intros i j ?; lia|apply NoDup_seq].
    - intros l (i & -> & _)%list_elem_of_fmap (j & ? & _)%list_elem_of_fmap. lia.
    - apply NoDup_fmap_2; [intros i j ?; lia|apply NoDup_seq]. }
  apply NoDup_cons. split; [|apply NoDup_cons; split; [|done]].
  - intros [?|Hl%init_count_locs]%elem_of_cons; simpl in *; lia.
  - intros Hl%init_count_locs. simpl in *. lia.
Qed.

Lemma init_side_NoDup : NoDup (tracker_state self :: tracker_state_batch self).
Proof.
  apply NoDup_cons. split.
  - intros Hl%init_side_locs. simpl in *. lia.
  - rewrite init_side_batch. apply NoDup_fmap_2; [intros i j ?; lia|apply NoDup_seq].
Qed.

(** Each line starts with an empty side map and the zero counts. *)
Lemma init_line_state i :
  (i < n)%nat →
  side_of self σ i = Some ∅ ∧ in_of self σ i = Some zeros ∧ out_of self σ i = Some zeros.
Proof.
  intros Hi. unfold side_of, in_of, out_of.
  rewrite init_in_batch, init_out_batch, init_side_batch.
  rewrite !list_lookup_fmap, !lookup_seq_lt by done. simpl.
  by rewrite !init_count_deref, init_side_deref by lia.
Qed.
Hypothesis Hlen : (length start ≤ length end_)%nat.

Lemma init_vector_batch_length : length (vector_batch self) = n.
Proof. simpl. rewrite length_zip_with. lia. Qed.

Hypothesis Hall : ∀ c, c ∈ class_id → is_Some (class_name_dict !! c).

Lemma init_wf : wf self σ.
Proof.
  split.
  - by rewrite init_in_batch, length_fmap, length_seq, init_vector_batch_length.
  - by rewrite init_out_batch, length_fmap, length_seq, init_vector_batch_length.
  - by rewrite init_side_batch, length_fmap, length_seq, init_vector_batch_length.
  - intros l Hl%init_count_locs. simpl. rewrite length_app. simpl.
    rewrite length_replicate. lia.
  - intros l Hl%init_side_locs. simpl. rewrite length_app. simpl.
    rewrite length_replicate. lia.
  - pose proof init_count_NoDup as Hnd. by do 2 apply NoDup_cons_1_2 in Hnd.
  - pose proof init_side_NoDup as Hnd. by apply NoDup_cons_1_2 in Hnd.
  - intros l Hl%init_side_locs. rewrite init_side_deref by lia. by rewrite dom_empty_L.
  - intros l l' Hl%init_count_locs Hl'%init_count_locs.
    by rewrite !init_count_deref by lia.
  - intros c Hc. destruct (Hall c Hc) as [name Hname]. exists name. split; [done|].
    intros l Hl%init_count_locs. rewrite init_count_deref by lia.
    eapply elem_of_dom_2. by eapply zero_counts_lookup.
  - intros l name v Hl%init_count_locs. rewrite init_count_deref by lia.
    intros [->|Hv]%zero_counts_value; [done|]. by rewrite lookup_empty in Hv.
Qed.

End init_state.

(** ** Which identities a side map gains *)

Lemma adds_only_refl tracker_id σ : adds_only tracker_id σ σ.
Proof. intros l. apply union_subseteq_l. Qed.

Lemma adds_only_trans tracker_id σ1 σ2 σ3 :
  adds_only tracker_id σ1 σ2 → adds_only tracker_id σ2 σ3 → adds_only tracker_id σ1 σ3.
Proof.
  intros H12 H23 l. etrans; [apply H23|].
  apply union_least; [apply H12|apply union_subseteq_r].
Qed.

Section seen.
Context (self : LineCounter) (class_id tracker_id : Z).

Lemma adds_only_with_side σ l s :
  adds_only tracker_id σ (with_side l (<[tracker_id := s]> (deref (side_objs σ) l)) σ).
Proof.
  intros l'. simpl. destruct (decide (l = l')) as [<-|Hne].
  - destruct (decide (l < length (side_objs σ))%nat).
    + rewrite deref_insert_eq by done. rewrite dom_insert_L.
      apply union_least; [apply union_subseteq_r|apply union_subseteq_l].
    + rewrite list_insert_ge by lia. apply union_subseteq_l.
  - rewrite deref_insert_ne by done. apply union_subseteq_l.
Qed.

Lemma line_step_adds_only id triggers σ :
  adds_only tracker_id σ (line_step self class_id tracker_id id triggers σ).1.
Proof.
  destruct (line_step_inv self σ class_id tracker_id id triggers);
    try apply adds_only_refl; apply adds_only_with_side.
Qed.

Lemma line_loop_adds_only ts σ :
  adds_only tracker_id σ (line_loop self class_id tracker_id ts σ).1.
Proof.
  enough (True ∧ adds_only tracker_id σ (line_loop self class_id tracker_id ts σ).1)
    as [_ ?] by done.
  apply (for_invariant _ (λ _, True) (adds_only tracker_id));
    eauto using adds_only_refl, adds_only_trans.
  intros [id s] σ1 _ _. split; [done|apply line_step_adds_only].
Qed.

(** After a step that returned, the line knows the identity. *)
Lemma line_step_seen id triggers σ l :
  wf self σ →
  (line_step self class_id tracker_id id triggers σ).2 = inr () →
  tracker_state_batch self !! id = Some l →
  tracker_id ∈ dom (deref (side_objs (line_step self class_id tracker_id id triggers σ).1) l).
Proof.
  intros Hwf Hok Hl.
  assert (l < length (side_objs σ))%nat as Hlt.
  { apply (wf_side_live _ _ Hwf). by eapply list_elem_of_lookup_2. }
  destruct (line_step_inv self σ class_id tracker_id id triggers)
    as [Hl'|l' Hl' Hd|l' Hl' Hd|l' b Hl' Hd Hb Hlog|l' b log Hl' Hd Hb Hlog Hlc
       |l' b log lc Hl' Hd Hb Hlog Hlc Hn|l' b log lc name Hl' Hd Hb Hlog Hlc Hn Hv
       |l' b log lc name v Hl' Hd Hb Hlog Hlc Hn Hv]; simplify_eq; simpl.
  - rewrite deref_insert_eq by done. rewrite dom_insert_L.
    apply elem_of_union_l, elem_of_singleton_2. done.
  - by eapply elem_of_dom_2.
  - rewrite deref_insert_eq by done. rewrite dom_insert_L.
    apply elem_of_union_l, elem_of_singleton_2. done.
Qed.

(** After a loop that returned, every line it visited knows the identity. *)
Lemma line_loop_seen ts σ id s l :
  wf self σ →
  (line_loop self class_id tracker_id ts σ).2 = inr () →
  (id, s) ∈ ts →
  tracker_state_batch self !! id = Some l →
  tracker_id ∈ dom (deref (side_objs (line_loop self class_id tracker_id ts σ).1) l).
Proof.
  intros Hwf Hok Hin Hl. apply list_elem_of_split in Hin as (pre & post & ->).
  unfold line_loop in *. rewrite for_app in *.
  fold (line_loop self class_id tracker_id pre) in *.
  destruct (line_loop_wf self class_id tracker_id pre σ Hwf) as [Hwf1 _].
  destruct (line_loop self class_id tracker_id pre σ) as [σ1 [e|[]]]; [done|].
  rewrite for_cons in *. fold (line_loop self class_id tracker_id post) in *.
  pose proof (line_step_seen id s σ1 l Hwf1) as Hseen.
  pose proof (line_step_wf self class_id tracker_id id s σ1 Hwf1) as Hwf2.
  destruct (line_step self class_id tracker_id id s σ1) as [σ2 [e|[]]]; [done|].
  simpl in *. specialize (Hseen eq_refl Hl).
  destruct (line_loop_wf self class_id tracker_id post σ2 Hwf2) as [_ Hev].
  by apply (ev_side_dom _ _ Hev).
Qed.
End seen.

(** ** The invariant over whole [update] calls *)

Section triggers.
Context (self : LineCounter) (det : Detection).

Lemma triggers_batch_lookup i s :
  triggers_batch self det !! i = Some s ↔
  ∃ v, vector_batch self !! i = Some v ∧ s = Vector.is_in v (mean_anchor (xyxy det)).
Proof.
  unfold triggers_batch. rewrite list_lookup_fmap.
  destruct (vector_batch self !! i) as [v|]; simpl.
  - split; [intros [= <-]; eauto|]. by intros (? & [= <-] & ->).
  - split; [done|]. by intros (? & ? & _).
Qed.

Lemma triggers_batch_length : length (triggers_batch self det) = length (vector_batch self).
Proof. unfold triggers_batch. by rewrite length_fmap. Qed.

Lemma elem_of_triggers i s :
  (i, s) ∈ enumerate (triggers_batch self det) →
  (i < length (vector_batch self))%nat.
Proof.
  intros Hi%elem_of_enumerate%lookup_lt_Some. by rewrite triggers_batch_length in Hi.
Qed.
End triggers.

Lemma is_flip_unseen self σ tracker_id id s l :
  tracker_state_batch self !! id = Some l →
  tracker_id ∉ dom (deref (side_objs σ) l) →
  is_flip self σ tracker_id id s = false.
Proof.
  intros Hl Hd%not_elem_of_dom. unfold is_flip, side_of. rewrite Hl. simpl. by rewrite Hd.
Qed.

Lemma update_body_inv self det σ :
  inv self σ →
  inv self (update_body self det σ).1 ∧ evolves σ (update_body self det σ).1.
Proof.
  intros [Hwf Halike]. unfold update_body.
  destruct (det_tracker_id det) as [tid|]; [|by split; [split|apply evolves_refl]].
  set (ts := enumerate (triggers_batch self det)).
  destruct (line_loop_wf self (det_class_id det) tid ts σ Hwf) as [Hwf' Hev].
  pose proof (line_loop_adds_only self (det_class_id det) tid ts σ) as Hup.
  split; [split; [done|]|done].
  assert (∀ l, l ∈ tracker_state_batch self → tid ∈ dom (deref (side_objs σ) l) →
    dom (deref (side_objs (line_loop self (det_class_id det) tid ts σ).1) l)
    = dom (deref (side_objs σ) l)) as Hknown.
  { intros l Hl Hin. apply (anti_symm (⊆)); [|apply Hev].
    etrans; [apply Hup|]. apply union_least; [done|]. by apply singleton_subseteq_l. }
  intros l l' Hl Hl'.
  destruct (decide (tid ∈ dom (deref (side_objs σ) l))) as [Hin|Hnin].
  { rewrite !Hknown; [by apply Halike|done| |done|done].
    by rewrite <-(Halike l l'). }
  assert ((line_loop self (det_class_id det) tid ts σ).2 = inr ()) as Hok.
  { apply line_loop_ok; [done|apply enumerate_NoDup|].
    intros id s Hin. split; [by eapply elem_of_triggers|].
    destruct (lookup_lt_is_Some_2 (tracker_state_batch self) id) as [l0 Hl0].
    { rewrite (wf_len_side _ _ Hwf). by eapply elem_of_triggers. }
    rewrite (is_flip_unseen _ _ _ _ _ l0); [done..|].
    rewrite <-(Halike l l0); [done..|]. by eapply list_elem_of_lookup_2. }
  assert (∀ l, l ∈ tracker_state_batch self →
    dom (deref (side_objs (line_loop self (det_class_id det) tid ts σ).1) l)
    = dom (deref (side_objs σ) l) ∪ {[tid]}) as Hnew.
  { intros l0 Hl0. apply (anti_symm (⊆)); [apply Hup|].
    apply union_least; [apply Hev|]. apply singleton_subseteq_l.
    apply list_elem_of_lookup_1 in Hl0 as [i Hi].
    destruct (lookup_lt_is_Some_2 (triggers_batch self det) i) as [s Hs].
    { rewrite triggers_batch_length, <-(wf_len_side _ _ Hwf). by eapply lookup_lt_Some. }
    eapply line_loop_seen; [done..| |done]. by apply elem_of_enumerate. }
  rewrite !Hnew by done. f_equal. by apply Halike.
Qed.

Lemma update_inv self detections σ :
  inv self σ →
  inv self (update self detections σ).1 ∧ evolves σ (update self detections σ).1.
Proof.
  apply for_invariant; eauto using evolves_refl, evolves_trans.
  intros det σ1 _. apply update_body_inv.
Qed.

Lemma init_counts_fail class_name_dict (h : list (gmap string Z)) d1 d2 rest s t pre c post :
  (∀ c', c' ∈ pre → is_Some (class_name_dict !! c')) →
  class_name_dict !! c = None →
  init_counts (pre ++ c :: post) class_name_dict (length h) (S (length h))
    (mkStore (h ++ d1 :: d2 :: rest) s t)
  = (mkStore (h ++ zero_counts pre class_name_dict d1
                :: zero_counts pre class_name_dict d2 :: rest) s t,
     inl (KeyError (KInt c))).
Proof.
  intros Hpre Hc. unfold init_counts. rewrite for_app.
  fold (init_counts pre class_name_dict (length h) (S (length h))).
  rewrite init_counts_ok by done. rewrite for_cons.
  unfold zero_both. run_M. by run_M with Hc.
Qed.

(** The constructor raises [KeyError] at the first [id] of [class_id] that
    [class_name_dict] does not hold. *)
Lemma init_key_error start end_ class_name_dict σ0 pre c post :
  (length start ≤ length end_)%nat →
  (∀ c', c' ∈ pre → is_Some (class_name_dict !! c')) →
  class_name_dict !! c = None →
  (__init__ start end_ (pre ++ c :: post) class_name_dict σ0).2 = inl (KeyError (KInt c)).
Proof.
  intros Hlen Hpre Hc. unfold __init__. unfold mbind at 1, M_bind at 1.
  rewrite init_vectors_ok by done.
  unfold side_new, count_new. run_M. unfold with_line. simpl.
  rewrite length_app. simpl. rewrite Nat.add_1_r, <-app_assoc. simpl.
  by rewrite (init_counts_fail _ (count_objs σ0) ∅ ∅ []) by done.
Qed.

Lemma first_missing {A} (P : A → Prop) `{∀ a, Decision (P a)} (l : list A) :
  ¬ Forall P l → ∃ pre a post, l = pre ++ a :: post ∧ Forall P pre ∧ ¬ P a.
Proof.
  induction l as [|a l IH]; intros Hl; [by destruct Hl|].
  destruct (decide (P a)) as [Ha|Ha].
  - destruct IH as (pre & a' & post & -> & Hpre & Ha').
    { intros Hall. apply Hl. by constructor. }
    exists (a :: pre), a', post. split_and!; [done|by constructor|done].
  - by exists [], a, l.
Qed.

(** A constructor call that returns a tracker returns the closed form. *)
Lemma init_inv start end_ class_id class_name_dict σ0 σ self :
  __init__ start end_ class_id class_name_dict σ0 = (σ, inr self) →
  (length start ≤ length end_)%nat
  ∧ (∀ c, c ∈ class_id → is_Some (class_name_dict !! c))
  ∧ σ = init_store start class_id class_name_dict σ0
  ∧ self = init_self start end_ class_id class_name_dict σ0.
Proof.
  intros Hinit.
  destruct (decide (length start ≤ length end_)%nat) as [Hlen|Hlen];
    [|by rewrite init_index_error in Hinit by lia].
  destruct (decide (Forall (λ c, is_Some (class_name_dict !! c)) class_id)) as [Hall|Hall].
  - rewrite Forall_forall in Hall. rewrite init_ok in Hinit by done. by simplify_eq.
  - apply first_missing in Hall as (pre & c & post & -> & Hpre & Hc); [|apply _].
    rewrite Forall_forall in Hpre. apply eq_None_not_Some in Hc.
    pose proof (init_key_error start end_ class_name_dict σ0 pre c post Hlen Hpre Hc) as Herr.
    by rewrite Hinit in Herr.
Qed.

Theorem reachable_inv self σ : reachable self σ → inv self σ.
Proof.
  induction 1 as [start end_ class_id class_name_dict σ0 σ Hinit|detections σ _ IH].
  - apply init_inv in Hinit as (Hlen & Hall & -> & ->).
    split; [by apply (init_wf start end_)|].
    intros l l' Hl%init_side_locs Hl'%init_side_locs.
    by rewrite !init_side_deref by lia.
  - by apply update_inv.
Qed.

(** ** One observation, all lines *)

Lemma update_single self det σ : update self [det] σ = update_body self det σ.
Proof.
  unfold update. rewrite for_cons. by destruct (update_body self det σ) as [σ' [e|[]]].
Qed.

(** Raising stops the iteration over the detections. *)
Lemma update_cons_raise self det rest σ e :
  (update_body self det σ).2 = inl e →
  update self (det :: rest) σ = update_body self det σ.
Proof.
  intros He. unfold update. rewrite for_cons.
  by destruct (update_body self det σ) as [σ' [e'|[]]]; simplify_eq/=.
Qed.

Section visit.
Context (self : LineCounter) (class_id tracker_id : Z).
Local Abbreviation loop := (line_loop self class_id tracker_id).
Local Abbreviation step := (line_step self class_id tracker_id).

Lemma line_loop_view_frame ts σ i :
  wf self σ → i ∉ (ts.*1) → line_view self (loop ts σ).1 i = line_view self σ i.
Proof.
  intros Hwf Hi. unfold line_view.
  by destruct (line_loop_frame self class_id tracker_id ts σ i Hwf Hi) as (-> & -> & ->).
Qed.

(** The loop reaches line [i] in a store where the line is as it was
    before the loop; if the loop returns, line [i] ends as its own step
    left it. *)
Lemma line_loop_visit pre post σ i s :
  wf self σ → i ∉ (pre.*1) → i ∉ (post.*1) →
  ∃ σ1, wf self σ1 ∧ evolves σ σ1
    ∧ line_view self σ1 i = line_view self σ i
    ∧ (line_view self (loop (pre ++ (i, s) :: post) σ).1 i = line_view self σ i
       ∨ line_view self (loop (pre ++ (i, s) :: post) σ).1 i
         = line_view self (step i s σ1).1 i)
    ∧ ((loop (pre ++ (i, s) :: post) σ).2 = inr () →
       loop pre σ = (σ1, inr ())
       ∧ (step i s σ1).2 = inr ()
       ∧ evolves (step i s σ1).1 (loop (pre ++ (i, s) :: post) σ).1
       ∧ line_view self (loop (pre ++ (i, s) :: post) σ).1 i
         = line_view self (step i s σ1).1 i).
Proof.
  intros Hwf Hpre Hpost.
  destruct (line_loop_wf self class_id tracker_id pre σ Hwf) as [Hwf1 Hev1].
  pose proof (line_loop_view_frame pre σ i Hwf Hpre) as Hv1.
  exists (loop pre σ).1. split_and!; [done..| |].
  - unfold line_loop. rewrite for_app. fold (loop pre).
    destruct (loop pre σ) as [σ1 [e|[]]]; [by left|]. cbn [fst snd] in *.
    rewrite for_cons. fold (loop post).
    pose proof (line_step_wf self class_id tracker_id i s σ1 Hwf1) as Hwf2.
    destruct (step i s σ1) as [σ2 [e|[]]]; [by right|]. cbn [fst snd] in *.
    right. by apply line_loop_view_frame.
  - unfold line_loop. rewrite for_app. fold (loop pre).
    destruct (loop pre σ) as [σ1 [e|[]]]; [done|]. cbn [fst snd] in *.
    rewrite for_cons. fold (loop post).
    pose proof (line_step_wf self class_id tracker_id i s σ1 Hwf1) as Hwf2.
    destruct (step i s σ1) as [σ2 [e|[]]]; [done|]. cbn [fst snd] in *.
    intros _. split_and!; [done..| |by apply line_loop_view_frame].
    by apply line_loop_wf.
Qed.

(** An identity that sits on the recorded side of every line leaves the
    store as it is. *)
Lemma line_loop_same_side ts σ :
  (∀ id s, (id, s) ∈ ts → ∃ d, side_of self σ id = Some d ∧ d !! tracker_id = Some s) →
  loop ts σ = (σ, inr ()).
Proof.
  induction ts as [|[id s] ts IH]; intros Hts; [done|].
  unfold line_loop. rewrite for_cons. fold (loop ts).
  destruct (Hts id s) as (d & Hd & Hs); [by left|].
  rewrite (line_step_same_side _ _ _ _ _ _ d) by done.
  apply IH. intros id' s' Hin. apply Hts. by right.
Qed.
End visit.

(** ** The crossing log over one observation *)

Section crossing_log.
Context (self : LineCounter) (class_id tracker_id : Z).
Local Abbreviation loop := (line_loop self class_id tracker_id).

Lemma side_of_range σ id d :
  wf self σ → side_of self σ id = Some d → (id < length (vector_batch self))%nat.
Proof.
  intros Hwf (l & Hl & _)%side_of_Some. apply lookup_lt_Some in Hl.
  by rewrite (wf_len_side _ _ Hwf) in Hl.
Qed.

(** First sightings on every line of [ts]: each sets the entry to the class
    identifier. *)
Lemma line_loop_unseen_log ts σ :
  wf self σ → NoDup (ts.*1) →
  (∀ id s, (id, s) ∈ ts → ∃ d, side_of self σ id = Some d ∧ d !! tracker_id = None) →
  tracker_line (loop ts σ).1 !! tracker_id
  = match ts with [] => tracker_line σ !! tracker_id | _ => Some [class_id] end.
Proof.
  revert σ. induction ts as [|[id s] ts IH]; intros σ Hwf Hnd Hts; [done|].
  apply NoDup_cons in Hnd as [Hid Hnd].
  destruct (Hts id s) as (d & Hd & Hnone); [by left|].
  unfold line_loop. rewrite for_cons. fold (loop ts).
  destruct (line_step_first_sighting self class_id tracker_id id s σ d Hwf Hd Hnone)
    as (Hok & _ & _ & Hlog).
  pose proof (line_step_wf self class_id tracker_id id s σ Hwf) as Hwf1.
  pose proof (line_step_side_of_ne self class_id tracker_id id s σ Hwf) as Hframe.
  destruct (line_step self class_id tracker_id id s σ) as [σ1 [e|[]]]; [done|].
  cbn [fst snd] in *. rewrite IH; [|done..|].
  - destruct ts; [|done]. by rewrite Hlog, lookup_insert_eq.
  - intros id' s' Hin. rewrite Hframe; [apply (Hts id' s'); by right|].
    intros ->. apply Hid. apply list_elem_of_fmap. by exists (id, s').
Qed.

Lemma crossed_cons σ id s ts :
  crossed self tracker_id σ ((id, s) :: ts)
  = if is_flip self σ tracker_id id s then id :: crossed self tracker_id σ ts else crossed self tracker_id σ ts.
Proof.
  unfold crossed. rewrite filter_cons. simpl.
  destruct (is_flip self σ tracker_id id s); by case_decide.
Qed.

Lemma crossed_frame σ σ' ts :
  (∀ id s, (id, s) ∈ ts → side_of self σ' id = side_of self σ id) →
  crossed self tracker_id σ' ts = crossed self tracker_id σ ts.
Proof.
  induction ts as [|[id s] ts IH]; intros Hframe; [done|].
  rewrite !crossed_cons. unfold is_flip at 1. rewrite (Hframe id s) by (by left).
  fold (is_flip self σ tracker_id id s).
  rewrite IH; [done|]. intros id' s' Hin. apply (Hframe id' s'). by right.
Qed.

(** An identity that every line of [ts] knows: a loop that returns has
    appended the index of each line on which it flipped. *)
Lemma line_loop_seen_log ts σ log :
  wf self σ → NoDup (ts.*1) →
  (∀ id s, (id, s) ∈ ts → ∃ d, side_of self σ id = Some d ∧ is_Some (d !! tracker_id)) →
  tracker_line σ !! tracker_id = Some log →
  (loop ts σ).2 = inr () →
  tracker_line (loop ts σ).1 !! tracker_id = Some (log ++ (Z.of_nat <$> crossed self tracker_id σ ts)).
Proof.
  revert σ log. induction ts as [|[id s] ts IH]; intros σ log Hwf Hnd Hts Hlog Hok.
  { simpl. by rewrite app_nil_r. }
  apply NoDup_cons in Hnd as [Hid Hnd].
  destruct (Hts id s) as (d & Hd & [b Hb]); [by left|].
  assert (∀ id' s', (id', s') ∈ ts → id' ≠ id) as Hne.
  { intros id' s' Hin ->. apply Hid. apply list_elem_of_fmap. by exists (id, s'). }
  revert Hok. unfold line_loop. rewrite for_cons. fold (loop ts). rewrite crossed_cons.
  pose proof Hd as (l & Hl & ->)%side_of_Some.
  rewrite (is_flip_Some _ _ _ _ _ l b) by done.
  destruct (decide (b = s)) as [->|Hbs].
  - rewrite (line_step_same_side self _ _ _ _ σ _ Hd) by done.
    rewrite bool_decide_eq_false_2 by (intros Hs; by apply Hs).
    apply IH; [done..| |done]. intros id' s' Hin. apply (Hts id' s'). by right.
  - rewrite bool_decide_eq_true_2 by done.
    destruct (line_step_flip_state self class_id tracker_id id s σ _ Hwf Hd b Hb Hbs)
      as (_ & log' & Hlog' & Hline).
    pose proof (line_step_wf self class_id tracker_id id s σ Hwf) as Hwf1.
    pose proof (line_step_side_of_ne self class_id tracker_id id s σ Hwf) as Hframe.
    destruct (line_step self class_id tracker_id id s σ) as [σ1 [e|[]]]; [done|].
    cbn [fst snd] in *. intros Hok. simplify_eq.
    rewrite (IH σ1 (log ++ [Z.of_nat id])); [|done..| |by rewrite Hline, lookup_insert_eq|done].
    + rewrite (crossed_frame σ σ1); [by rewrite fmap_cons, <-app_assoc|].
      intros id' s' Hin. apply Hframe. by eapply Hne.
    + intros id' s' Hin. rewrite Hframe by (by eapply Hne). apply (Hts id' s'). by right.
Qed.
End crossing_log.

(** ** One observation of an identity that no line has seen *)

Lemma line_view_eq self σ σ' i :
  line_view self σ' i = line_view self σ i →
  side_of self σ' i = side_of self σ i
  ∧ in_of self σ' i = in_of self σ i
  ∧ out_of self σ' i = out_of self σ i.
Proof. unfold line_view. by intros [= -> -> ->]. Qed.

Lemma counts_of_count_objs self σ σ' i :
  count_objs σ' = count_objs σ →
  in_of self σ' i = in_of self σ i ∧ out_of self σ' i = out_of self σ i.
Proof. unfold in_of, out_of. by intros ->. Qed.

(** An identity that one line has not seen raises nothing: no line has seen
    it, so no line detects a flip. *)
Lemma unseen_no_flip self σ tracker_id i d :
  inv self σ → side_of self σ i = Some d → d !! tracker_id = None →
  ∀ id s, (id < length (vector_batch self))%nat →
    is_flip self σ tracker_id id s = false.
Proof.
  intros [Hwf Halike] (l & Hl & ->)%side_of_Some Hd%not_elem_of_dom id s Hid.
  destruct (lookup_lt_is_Some_2 (tracker_state_batch self) id) as [l0 Hl0].
  { by rewrite (wf_len_side _ _ Hwf). }
  apply (is_flip_unseen _ _ _ _ _ l0); [done|].
  rewrite (Halike l0 l); [done|by eapply list_elem_of_lookup_2..].
Qed.

Lemma unseen_everywhere self σ tracker_id i d :
  inv self σ → side_of self σ i = Some d → d !! tracker_id = None →
  ∀ id, (id < length (vector_batch self))%nat →
    ∃ d', side_of self σ id = Some d' ∧ d' !! tracker_id = None.
Proof.
  intros [Hwf Halike] (l & Hl & ->)%side_of_Some Hd%not_elem_of_dom id Hid.
  destruct (lookup_lt_is_Some_2 (tracker_state_batch self) id) as [l0 Hl0].
  { by rewrite (wf_len_side _ _ Hwf). }
  exists (deref (side_objs σ) l0). split; [unfold side_of; by rewrite Hl0|].
  apply not_elem_of_dom. rewrite (Halike l0 l); [done|by eapply list_elem_of_lookup_2..].
Qed.

Lemma seen_everywhere self σ tracker_id i d :
  inv self σ → side_of self σ i = Some d → is_Some (d !! tracker_id) →
  ∀ id, (id < length (vector_batch self))%nat →
    ∃ d', side_of self σ id = Some d' ∧ is_Some (d' !! tracker_id).
Proof.
  intros [Hwf Halike] (l & Hl & ->)%side_of_Some Hd%elem_of_dom id Hid.
  destruct (lookup_lt_is_Some_2 (tracker_state_batch self) id) as [l0 Hl0].
  { by rewrite (wf_len_side _ _ Hwf). }
  exists (deref (side_objs σ) l0). split; [unfold side_of; by rewrite Hl0|].
  apply elem_of_dom. rewrite (Halike l0 l); [done|by eapply list_elem_of_lookup_2..].
Qed.

(** The call returns normally; every line records the side and keeps its
    counts; the crossing log gets the entry [[class_id]]. *)
Lemma update_unseen self σ det (tracker_id : Z) (i : nat) (s : bool) (d : gmap Z bool) :
  inv self σ →
  det_tracker_id det = Some tracker_id →
  triggers_batch self det !! i = Some s →
  side_of self σ i = Some d →
  d !! tracker_id = None →
  (update self [det] σ).2 = inr ()
  ∧ side_of self (update self [det] σ).1 i = Some (<[tracker_id := s]> d)
  ∧ in_of self (update self [det] σ).1 i = in_of self σ i
  ∧ out_of self (update self [det] σ).1 i = out_of self σ i
  ∧ tracker_line (update self [det] σ).1 !! tracker_id = Some [det_class_id det].
Proof.
  intros Hinv Htid Hs Hside Hd. pose proof Hinv as [Hwf _].
  rewrite update_single. unfold update_body. rewrite Htid.
  assert ((line_loop self (det_class_id det) tracker_id
             (enumerate (triggers_batch self det)) σ).2 = inr ()) as Hok.
  { apply line_loop_ok; [done|apply enumerate_NoDup|].
    intros id s' Hin%elem_of_triggers. split; [done|].
    by rewrite (unseen_no_flip self σ tracker_id i d). }
  split; [done|].
  assert (tracker_line (line_loop self (det_class_id det) tracker_id
            (enumerate (triggers_batch self det)) σ).1 !! tracker_id
          = Some [det_class_id det]) as Hlog.
  { rewrite line_loop_unseen_log; [|done|apply enumerate_NoDup|].
    - pose proof (proj2 (elem_of_enumerate _ _ _) Hs) as Hin.
      destruct (enumerate (triggers_batch self det)); [by apply elem_of_nil in Hin|done].
    - intros id s' Hin%elem_of_triggers. by eapply unseen_everywhere. }
  destruct (enumerate_split _ _ _ Hs) as (pre & post & Hts & Hpre & Hpost & _).
  rewrite Hts in *.
  destruct (line_loop_visit self (det_class_id det) tracker_id pre post σ i s Hwf Hpre Hpost)
    as (σ1 & Hwf1 & _ & Hv1 & _ & Hvisit).
  destruct (Hvisit Hok) as (_ & _ & _ & Hv).
  apply line_view_eq in Hv as (-> & -> & ->). apply line_view_eq in Hv1 as (Hs1 & <- & <-).
  rewrite <-Hs1 in Hside.
  destruct (line_step_first_sighting self (det_class_id det) tracker_id i s σ1 d
              Hwf1 Hside Hd) as (_ & -> & Hcounts & _).
  split; [done|]. by destruct (counts_of_count_objs self σ1 _ i Hcounts) as [-> ->].
Qed.

(** ** One observation of an identity that the lines have seen *)

Lemma not_flip_same_side self σ tracker_id id s d :
  side_of self σ id = Some d → is_Some (d !! tracker_id) →
  is_flip self σ tracker_id id s = false →
  d !! tracker_id = Some s.
Proof.
  intros Hd [b Hb]. unfold is_flip. rewrite Hd, Hb.
  intros Hs%bool_decide_eq_false. f_equal. by destruct (decide (b = s)).
Qed.

(** When the first line on which the identity flips is line [i] and the
    class has no name, the observation is processed up to and including the
    writes of line [i], and raises there. *)
Lemma update_body_raises_at_first_flip self σ det tracker_id i s d b :
  inv self σ →
  det_tracker_id det = Some tracker_id →
  class_name_dict self !! det_class_id det = None →
  triggers_batch self det !! i = Some s →
  side_of self σ i = Some d → d !! tracker_id = Some b → b ≠ s →
  (∀ j s', (j < i)%nat → triggers_batch self det !! j = Some s' →
     is_flip self σ tracker_id j s' = false) →
  update_body self det σ = line_step self (det_class_id det) tracker_id i s σ
  ∧ (line_step self (det_class_id det) tracker_id i s σ).2
    = inl (KeyError (KInt (det_class_id det))).
Proof.
  intros Hinv Htid Hname Hs Hside Hd Hb Hfirst. pose proof Hinv as [Hwf _].
  assert (i < length (vector_batch self))%nat as Hi by (by eapply side_of_range).
  destruct (line_step_flip_unknown_class self (det_class_id det) tracker_id i s σ d
              Hwf Hside b Hd Hb Hname Hi) as [Herr _].
  split; [|done]. unfold update_body. rewrite Htid.
  destruct (enumerate_split _ _ _ Hs) as (pre & post & -> & _ & _ & Hpre & _).
  unfold line_loop. rewrite for_app.
  fold (line_loop self (det_class_id det) tracker_id pre).
  rewrite line_loop_same_side.
  - rewrite for_cons.
    by destruct (line_step self (det_class_id det) tracker_id i s σ) as [σ2 [e|[]]].
  - intros j s' [Hj Hs']%Hpre.
    destruct (seen_everywhere self σ tracker_id i d Hinv Hside (mk_is_Some _ _ Hd) j)
      as (d' & Hd' & Hseen); [lia|].
    exists d'. split; [done|]. eapply not_flip_same_side; eauto.
Qed.

Lemma reachable_init_self self σ :
  reachable self σ →
  ∃ start end_ class_id class_name_dict σ0,
    self = init_self start end_ class_id class_name_dict σ0.
Proof.
  induction 1 as [start end_ class_id class_name_dict σ0 σ Hinit|]; [|done].
  apply init_inv in Hinit as (_ & _ & _ & ->). by eexists _, _, _, _, _.
Qed.

(** ** Counts and their sums *)

Lemma in_count_of_Some self σ i name v :
  in_count_of self σ i name = Some v ↔
  ∃ l, in_count_dict_batch self !! i = Some l ∧ deref (count_objs σ) l !! name = Some v.
Proof.
  unfold in_count_of, in_of. destruct (in_count_dict_batch self !! i) as [l|]; simpl.
  - split; [eauto|]. by intros (? & [= <-] & ?).
  - split; [done|]. by intros (? & ? & _).
Qed.

Lemma out_count_of_Some self σ i name v :
  out_count_of self σ i name = Some v ↔
  ∃ l, out_count_dict_batch self !! i = Some l ∧ deref (count_objs σ) l !! name = Some v.
Proof.
  unfold out_count_of, out_of. destruct (out_count_dict_batch self !! i) as [l|]; simpl.
  - split; [eauto|]. by intros (? & [= <-] & ?).
  - split; [done|]. by intros (? & ? & _).
Qed.

Lemma dict_sum_insert d name v :
  d !! name = None → dict_sum (<[name := v]> d) = v + dict_sum d.
Proof. intros Hd. unfold dict_sum. rewrite map_fold_insert_L; [done| |done]. intros. lia. Qed.

Lemma dict_sum_incr d name a :
  d !! name = Some a → dict_sum (<[name := a + 1]> d) = dict_sum d + 1.
Proof.
  intros Ha. rewrite <-(insert_delete_id d name a) at 2 by done.
  rewrite <-(insert_delete_eq d), !dict_sum_insert by apply lookup_delete_eq. lia.
Qed.

Lemma dict_sum_zeros d : (∀ name v, d !! name = Some v → v = 0) → dict_sum d = 0.
Proof.
  induction d as [|name v d Hname IH] using map_ind; intros Hd; [done|].
  rewrite dict_sum_insert by done.
  rewrite (Hd name v) by apply lookup_insert_eq. rewrite IH; [done|].
  intros name' v' Hv'. apply (Hd name'). rewrite lookup_insert_ne; [done|congruence].
Qed.

(** ** The total of a line and its flips *)

Section totals.
Context (self : LineCounter) (i : nat).

Lemma line_total_count_objs σ σ' :
  count_objs σ' = count_objs σ → line_total self σ' i = line_total self σ i.
Proof. intros Heq. unfold line_total, in_of, out_of. by rewrite Heq. Qed.

(** With a counted class, a step returns, and it adds one to the total of
    its line exactly when it detects a flip. *)
Lemma line_step_total class_id tracker_id id s σ :
  wf self σ → counted self σ class_id → (id < length (vector_batch self))%nat →
  (line_step self class_id tracker_id id s σ).2 = inr ()
  ∧ line_total self (line_step self class_id tracker_id id s σ).1 i
    = line_total self σ i
      + Z.of_nat (if bool_decide (id = i) && is_flip self σ tracker_id id s then 1 else 0).
Proof.
  intros Hwf Hc Hid. split; [by apply line_step_ok|].
  destruct (line_has_state _ _ Hwf id Hid) as (ls & li & lo & Hls & Hli & Hlo).
  assert (side_of self σ id = Some (deref (side_objs σ) ls)) as Hside.
  { unfold side_of. by rewrite Hls. }
  destruct (deref (side_objs σ) ls !! tracker_id) as [b|] eqn:Hd.
  - rewrite (is_flip_Some _ _ _ _ _ ls b) by done.
    destruct (decide (b = s)) as [->|Hb].
    + rewrite (line_step_same_side self _ _ _ _ σ _ Hside) by done.
      rewrite (bool_decide_eq_false_2 (s ≠ s)) by (intros Hs; by apply Hs).
      rewrite andb_false_r. simpl. lia.
    + rewrite (bool_decide_eq_true_2 (b ≠ s)) by done. rewrite andb_true_r.
      destruct (decide (id = i)) as [->|Hne].
      * rewrite bool_decide_eq_true_2 by done.
        destruct Hc as (name & Hname & Hin).
        pose proof (Hin li (in_batch_count_locs _ _ _ Hli)) as [a Ha]%elem_of_dom.
        pose proof (Hin lo (out_batch_count_locs _ _ _ Hlo)) as [c Hc]%elem_of_dom.
        destruct (line_step_flip_counts self class_id tracker_id i s σ _ Hwf Hside b name
                    (deref (count_objs σ) li) (deref (count_objs σ) lo) a c)
          as (_ & Hin' & Hout'); [done..|unfold in_of; by rewrite Hli|done
                                  |unfold out_of; by rewrite Hlo|done|].
        unfold line_total. rewrite Hin', Hout'. unfold in_of, out_of. rewrite Hli, Hlo.
        simpl. destruct s; rewrite dict_sum_incr by done; lia.
      * rewrite bool_decide_eq_false_2 by done. simpl. unfold line_total.
        rewrite line_step_in_of_ne, line_step_out_of_ne by auto. lia.
  - destruct (line_step_first_sighting self class_id tracker_id id s σ _ Hwf Hside Hd)
      as (_ & _ & Hcounts & _).
    rewrite (line_total_count_objs _ _ Hcounts).
    unfold is_flip. rewrite Hside, Hd, andb_false_r. simpl. lia.
Qed.

Lemma line_loop_total class_id tracker_id ts σ :
  wf self σ → counted self σ class_id →
  (∀ id s, (id, s) ∈ ts → (id < length (vector_batch self))%nat) →
  (line_loop self class_id tracker_id ts σ).2 = inr ()
  ∧ line_total self (line_loop self class_id tracker_id ts σ).1 i
    = line_total self σ i + Z.of_nat (line_loop_flips self class_id tracker_id i ts σ).
Proof.
  revert σ. induction ts as [|[id s] ts IH]; intros σ Hwf Hc Hts.
  { split; [done|]. simpl. lia. }
  destruct (line_step_total class_id tracker_id id s σ Hwf Hc) as [Hok Htot].
  { apply (Hts id s). by left. }
  pose proof (line_step_wf self class_id tracker_id id s σ Hwf) as Hwf1.
  pose proof (line_step_evolves self class_id tracker_id id s σ) as Hev.
  unfold line_loop. rewrite for_cons. fold (line_loop self class_id tracker_id ts).
  cbn [line_loop_flips].
  destruct (line_step self class_id tracker_id id s σ) as [σ1 [e|[]]]; [done|].
  cbn [fst snd] in *. destruct (IH σ1) as [Hok' Htot']; [done| |  |].
  - by eapply counted_evolves.
  - intros id' s' Hin. apply (Hts id' s'). by right.
  - split; [done|]. rewrite Htot', Htot. lia.
Qed.

Lemma update_body_total det σ :
  wf self σ → det_class_id det ∈ class_id self →
  (update_body self det σ).2 = inr ()
  ∧ line_total self (update_body self det σ).1 i
    = line_total self σ i + Z.of_nat (update_body_flips self i det σ).
Proof.
  intros Hwf Hc. unfold update_body, update_body_flips.
  destruct (det_tracker_id det) as [tracker_id|]; [|split; [done|simpl; lia]].
  apply line_loop_total; [done|by apply (wf_classes _ _ Hwf)|].
  intros id s Hin. by eapply elem_of_triggers.
Qed.

Lemma update_total detections σ :
  inv self σ → (∀ det, det ∈ detections → det_class_id det ∈ class_id self) →
  (update self detections σ).2 = inr ()
  ∧ line_total self (update self detections σ).1 i
    = line_total self σ i + Z.of_nat (update_flips self i detections σ).
Proof.
  revert σ. induction detections as [|det dets IH]; intros σ Hinv Hall.
  { split; [done|]. simpl. lia. }
  destruct (update_body_total det σ (proj1 Hinv)) as [Hok Htot]; [apply Hall; by left|].
  destruct (update_body_inv self det σ Hinv) as [Hinv1 _].
  unfold update. rewrite for_cons. fold (update self dets). cbn [update_flips].
  destruct (update_body self det σ) as [σ1 [e|[]]]; [done|]. cbn [fst snd] in *.
  destruct (IH σ1) as [Hok' Htot']; [done| |].
  - intros det' Hin. apply Hall. by right.
  - split; [done|]. rewrite Htot', Htot. lia.
Qed.

Lemma run_total calls σ :
  inv self σ →
  (∀ detections det, detections ∈ calls → det ∈ detections →
     det_class_id det ∈ class_id self) →
  line_total self (run self calls σ) i
  = line_total self σ i + Z.of_nat (run_flips self i calls σ).
Proof.
  revert σ. induction calls as [|c cs IH]; intros σ Hinv Hall.
  { simpl. lia. }
  destruct (update_total c σ Hinv) as [_ Htot].
  { intros det Hin. apply (Hall c); [by left|done]. }
  destruct (update_inv self c σ Hinv) as [Hinv1 _].
  simpl. rewrite IH, Htot; [lia|done|].
  intros c' det Hc' Hdet. apply (Hall c'); [by right|done].
Qed.
End totals.

(** ** The scenario's stores are stores of its tracker *)

Lemma ex_init :
  __init__ ex_start ex_end [2; 5] ex_names ex_store0 = (ex_store, inr ex_self).
Proof. by vm_compute. Qed.

Lemma ex_reachable : reachable ex_self ex_store.
Proof. eapply reachable_init, ex_init. Qed.

Lemma run_reachable self calls σ : reachable self σ → reachable self (run self calls σ).
Proof.
  revert σ. induction calls as [|c cs IH]; intros σ Hσ; [done|].
  simpl. by apply IH, reachable_update.
Qed.

(** * The claims *)

(** ** Construction *)

(** C10.  When the list of start points is strictly longer than the list of
    end points, [__init__] raises [IndexError] while pairing [start[i]] with
    [end[i]], before anything is written to the store, and returns no
    tracker; a call that returns a tracker found an end point for every
    start point. *)
Theorem init_needs_an_end_per_start start end_ class_id class_name_dict σ0 :
  ((length end_ < length start)%nat →
   __init__ start end_ class_id class_name_dict σ0 = (σ0, inl IndexError))
  ∧ (∀ σ self, __init__ start end_ class_id class_name_dict σ0 = (σ, inr self) →
     ∀ i s, start !! i = Some s → is_Some (end_ !! i)).
Proof.
  split; [apply init_index_error|].
  intros σ self (Hlen & _)%init_inv i s Hi. apply lookup_lt_is_Some_2.
  apply lookup_lt_Some in Hi. lia.
Qed.

Lemma init_needs_an_end_per_start_witness :
  __init__ ex_start [ex_point 0 100] [2; 5] ex_names ex_store0 = (ex_store0, inl IndexError).
Proof.
  apply (proj1 (init_needs_an_end_per_start ex_start [ex_point 0 100] [2; 5]
                  ex_names ex_store0)).
  simpl. lia.
Defined.

(** C4, as the code has it.  An empty list of lines is no error: when every
    identifier of [class_id] has a name in [class_name_dict], [__init__]
    returns a tracker with no vector, no side map and no count dict. *)
Theorem init_accepts_no_lines end_ class_id class_name_dict σ0 :
  (∀ c, c ∈ class_id → is_Some (class_name_dict !! c)) →
  ∃ σ self, __init__ [] end_ class_id class_name_dict σ0 = (σ, inr self)
    ∧ vector_batch self = []
    ∧ tracker_state_batch self = []
    ∧ in_count_dict_batch self = []
    ∧ out_count_dict_batch self = [].
Proof.
  intros Hall. eexists _, _. split; [apply init_ok; [simpl; lia|done]|done].
Qed.

Lemma init_accepts_no_lines_witness :
  ∃ σ self, __init__ [] [] [2; 5] ex_names ex_store0 = (σ, inr self)
    ∧ vector_batch self = []
    ∧ tracker_state_batch self = []
    ∧ in_count_dict_batch self = []
    ∧ out_count_dict_batch self = [].
Proof.
  apply (init_accepts_no_lines [] [2; 5] ex_names ex_store0).
  intros c Hc. apply elem_of_dom. revert Hc. by rewrite !elem_of_cons, elem_of_nil;
    intros [->|[->|[]]]; vm_compute.
Defined.

(** C4 as stated fails: constructing a tracker from an empty list of lines
    returns a tracker. *)
Lemma init_no_lines_counterexample :
  ¬ ∃ σ e, __init__ [] [] [] ∅ ex_store0 = (σ, inl e).
Proof. intros (σ & e & Hinit). by vm_compute in Hinit. Qed.

(** ** One observation against one line

    The theorems of this part speak of [update self [det] σ] for a
    reachable store [σ].  That covers an observation at any place of a
    call: [update] handles its detections one after the other, and the
    store after the detections before [det] is reachable
    ([reachable_update]). *)

(** C5.  [update] is called with an observation of an identity that line
    [i] has not recorded.  The call returns normally, the side map of line
    [i] gains the identity with the side [s] the box centre is on, whichever
    side that is, and the in and out counts of line [i] are what they
    were. *)
Theorem first_sighting_records_side_only self σ det (tracker_id : Z) (i : nat)
    (s : bool) (d : gmap Z bool) :
  reachable self σ →
  det_tracker_id det = Some tracker_id →
  triggers_batch self det !! i = Some s →
  side_of self σ i = Some d →
  d !! tracker_id = None →
  (update self [det] σ).2 = inr ()
  ∧ side_of self (update self [det] σ).1 i = Some (<[tracker_id := s]> d)
  ∧ in_of self (update self [det] σ).1 i = in_of self σ i
  ∧ out_of self (update self [det] σ).1 i = out_of self σ i.
Proof.
  intros Hinv%reachable_inv Htid Hs Hside Hd.
  by destruct (update_unseen self σ det tracker_id i s d Hinv Htid Hs Hside Hd)
    as (? & ? & ? & ? & _).
Qed.

(** C1, as the code has it.  [update] is called with an observation of an
    identity that line [i] has recorded on side [b]; the box centre is on
    side [s] of the line.  If [s] is [b], the in and out counts of line [i]
    are what they were, whatever the class.  If [s] differs from [b], and
    line [i] has an in count [a] and an out count [c] for the object's class
    name, as it has for every class listed in [class_id], the call returns
    normally, the in count becomes [a + 1] when [s] is true, the out count
    becomes [c + 1] otherwise, and the other dict of the line is what it
    was, as is every other entry of the dict that changed.  The call holds
    this observation alone, so the change is the observation's own. *)
Theorem flip_counts_once self σ det (tracker_id : Z) (i : nat) (s b : bool)
    (d : gmap Z bool) :
  reachable self σ →
  det_tracker_id det = Some tracker_id →
  triggers_batch self det !! i = Some s →
  side_of self σ i = Some d →
  d !! tracker_id = Some b →
  (b = s →
     in_of self (update self [det] σ).1 i = in_of self σ i
     ∧ out_of self (update self [det] σ).1 i = out_of self σ i)
  ∧ (b ≠ s → ∀ name di do a c,
     class_name_dict self !! det_class_id det = Some name →
     in_of self σ i = Some di → di !! name = Some a →
     out_of self σ i = Some do → do !! name = Some c →
     (update self [det] σ).2 = inr ()
     ∧ in_of self (update self [det] σ).1 i
       = Some (if s then <[name := a + 1]> di else di)
     ∧ out_of self (update self [det] σ).1 i
       = Some (if s then do else <[name := c + 1]> do)).
Proof.
  intros Hinv%reachable_inv Htid Hs Hside Hd. pose proof Hinv as [Hwf _].
  rewrite update_single. unfold update_body. rewrite Htid.
  destruct (enumerate_split _ _ _ Hs) as (pre & post & Hts & Hpre & Hpost & _).
  rewrite Hts.
  destruct (line_loop_visit self (det_class_id det) tracker_id pre post σ i s Hwf Hpre Hpost)
    as (σ1 & Hwf1 & _ & Hv1 & Hv & Hvisit).
  apply line_view_eq in Hv1 as (Hs1 & Hi1 & Ho1).
  rewrite <-Hs1 in Hside. split.
  - intros ->. destruct Hv as [Hv|Hv].
    + by apply line_view_eq in Hv as (_ & -> & ->).
    + rewrite (line_step_same_side self _ _ _ _ σ1 d) in Hv by done. cbn [fst] in Hv.
      apply line_view_eq in Hv as (_ & -> & ->). by rewrite Hi1, Ho1.
  - intros Hb name di do a c Hname Hdi Ha Hdo Hc.
    assert ((line_loop self (det_class_id det) tracker_id
               (pre ++ (i, s) :: post) σ).2 = inr ()) as Hok.
    { rewrite <-Hts. apply line_loop_ok; [done|apply enumerate_NoDup|].
      intros id s' Hin%elem_of_triggers. split; [done|]. intros _.
      exists name. split; [done|]. intros l Hl.
      unfold in_of in Hdi.
      destruct (in_count_dict_batch self !! i) as [li|] eqn:Hli; [|done].
      simpl in Hdi. simplify_eq.
      rewrite (wf_keys _ _ Hwf l li); [by eapply elem_of_dom_2|done|].
      by eapply in_batch_count_locs. }
    split; [done|]. destruct (Hvisit Hok) as (_ & _ & _ & Hv').
    apply line_view_eq in Hv' as (_ & -> & ->).
    rewrite <-Hi1 in Hdi. rewrite <-Ho1 in Hdo.
    by destruct (line_step_flip_counts self (det_class_id det) tracker_id i s σ1 d
                   Hwf1 Hside b name di do a c) as (_ & -> & ->).
Qed.

Lemma ex_reachable1 : reachable ex_self ex_store1.
Proof. apply reachable_update, ex_reachable. Qed.

Lemma first_sighting_records_side_only_witness :
  (update ex_self [ex_det 2 7 5] ex_store).2 = inr ()
  ∧ side_of ex_self (update ex_self [ex_det 2 7 5] ex_store).1 0 = Some (<[7 := true]> ∅)
  ∧ in_of ex_self (update ex_self [ex_det 2 7 5] ex_store).1 0 = in_of ex_self ex_store 0
  ∧ out_of ex_self (update ex_self [ex_det 2 7 5] ex_store).1 0 = out_of ex_self ex_store 0.
Proof.
  apply (first_sighting_records_side_only ex_self ex_store (ex_det 2 7 5) 7 0 true ∅).
  - apply ex_reachable.
  - reflexivity.
  - by vm_compute.
  - by vm_compute.
  - by vm_compute.
Defined.

(** The car moves to x = -5: it crosses line 0 to the out side. *)
Lemma flip_counts_once_witness :
  (update ex_self [ex_det 2 7 (-5)] ex_store1).2 = inr ()
  ∧ in_of ex_self (update ex_self [ex_det 2 7 (-5)] ex_store1).1 0
    = Some (zero_counts [2; 5] ex_names ∅)
  ∧ out_of ex_self (update ex_self [ex_det 2 7 (-5)] ex_store1).1 0
    = Some (<["car" := 0 + 1]> (zero_counts [2; 5] ex_names ∅)).
Proof.
  apply (proj2 (flip_counts_once ex_self ex_store1 (ex_det 2 7 (-5)) 7 0 false true
                  (<[7 := true]> ∅) ex_reachable1 eq_refl
                  ltac:(by vm_compute) ltac:(by vm_compute) ltac:(by vm_compute))
           ltac:(done) "car" (zero_counts [2; 5] ex_names ∅)
           (zero_counts [2; 5] ex_names ∅) 0 0);
    by vm_compute.
Defined.

(** C1 as stated fails for a class without counts: with only class 2
    listed in [class_id], bus 7 (class 5, named "bus") is recorded on the in
    side of line 0 and is then seen on the out side.  The call raises
    [KeyError], and neither count dict of line 0 has changed. *)
Lemma flip_counts_once_counterexample :
  side_of ex_cars_self (update ex_cars_self [ex_det 5 7 5] ex_cars_store).1 0
  = Some (<[7 := true]> ∅)
  ∧ triggers_batch ex_cars_self (ex_det 5 7 (-5)) !! 0%nat = Some false
  ∧ class_name_dict ex_cars_self !! det_class_id (ex_det 5 7 (-5)) = Some "bus"
  ∧ (update ex_cars_self [ex_det 5 7 (-5)]
       (update ex_cars_self [ex_det 5 7 5] ex_cars_store).1).2
    = inl (KeyError (KStr "bus"))
  ∧ in_of ex_cars_self
      (update ex_cars_self [ex_det 5 7 (-5)]
         (update ex_cars_self [ex_det 5 7 5] ex_cars_store).1).1 0
    = in_of ex_cars_self (update ex_cars_self [ex_det 5 7 5] ex_cars_store).1 0
  ∧ out_of ex_cars_self
      (update ex_cars_self [ex_det 5 7 (-5)]
         (update ex_cars_self [ex_det 5 7 5] ex_cars_store).1).1 0
    = out_of ex_cars_self (update ex_cars_self [ex_det 5 7 5] ex_cars_store).1 0.
Proof. by vm_compute. Qed.

(** ** Independence of the lines *)

(** C6.  The count dicts and the side map of every line are dict objects of
    their own: no two batch entries are the same object, and none is one of
    the templates [in_count_dict], [out_count_dict], [tracker_state].  In
    every store that an [update] call passes through (a reachable store
    followed by any part of the inner loop), evaluating an observation
    against line [i] leaves the side map and both count dicts of every
    other line [j] as they were. *)
Theorem lines_are_independent self σ0 c t ts :
  reachable self σ0 →
  NoDup (in_count_dict self :: out_count_dict self
         :: in_count_dict_batch self ++ out_count_dict_batch self)
  ∧ NoDup (tracker_state self :: tracker_state_batch self)
  ∧ ∀ class_id tracker_id i s j, i ≠ j →
      side_of self (line_step self class_id tracker_id i s
                      (line_loop self c t ts σ0).1).1 j
      = side_of self (line_loop self c t ts σ0).1 j
      ∧ in_of self (line_step self class_id tracker_id i s
                      (line_loop self c t ts σ0).1).1 j
        = in_of self (line_loop self c t ts σ0).1 j
      ∧ out_of self (line_step self class_id tracker_id i s
                       (line_loop self c t ts σ0).1).1 j
        = out_of self (line_loop self c t ts σ0).1 j.
Proof.
  intros Hreach. split_and!.
  - destruct (reachable_init_self _ _ Hreach) as (? & ? & ? & ? & ? & ->).
    apply init_count_NoDup.
  - destruct (reachable_init_self _ _ Hreach) as (? & ? & ? & ? & ? & ->).
    apply init_side_NoDup.
  - intros class_id tracker_id i s j Hij.
    apply reachable_inv in Hreach as [Hwf _].
    destruct (line_loop_wf self c t ts σ0 Hwf) as [Hwf1 _].
    split_and!; [by apply line_step_side_of_ne|apply line_step_in_of_ne|
                 apply line_step_out_of_ne]; auto.
Qed.

(** The car crosses line 0 to the out side; line 1 keeps its side map and
    its counts. *)
Lemma lines_are_independent_witness :
  side_of ex_self (line_step ex_self 2 7 0 false
                     (line_loop ex_self 2 7 [] ex_store1).1).1 1
  = side_of ex_self (line_loop ex_self 2 7 [] ex_store1).1 1
  ∧ in_of ex_self (line_step ex_self 2 7 0 false
                     (line_loop ex_self 2 7 [] ex_store1).1).1 1
    = in_of ex_self (line_loop ex_self 2 7 [] ex_store1).1 1
  ∧ out_of ex_self (line_step ex_self 2 7 0 false
                      (line_loop ex_self 2 7 [] ex_store1).1).1 1
    = out_of ex_self (line_loop ex_self 2 7 [] ex_store1).1 1.
Proof.
  apply (proj2 (proj2 (lines_are_independent ex_self ex_store1 2 7 [] ex_reachable1))
           2 7 0%nat false 1%nat).
  lia.
Defined.

(** ** Unknown classes *)

(** C2, as the code has it.  An observation whose class identifier is not
    in [class_name_dict] raises [KeyError] exactly when some line detects a
    flip of its identity; the name is looked up nowhere else.  On a first
    sighting nothing is raised: the call returns and the line records the
    side. *)
Theorem unknown_class_raises_only_at_flip self σ det (tracker_id : Z) :
  reachable self σ →
  det_tracker_id det = Some tracker_id →
  class_name_dict self !! det_class_id det = None →
  (update self [det] σ).2
  = (if any_flip self σ tracker_id det
     then inl (KeyError (KInt (det_class_id det)))
     else inr ())
  ∧ ∀ (i : nat) (s : bool) (d : gmap Z bool),
      triggers_batch self det !! i = Some s →
      side_of self σ i = Some d → d !! tracker_id = None →
      (update self [det] σ).2 = inr ()
      ∧ side_of self (update self [det] σ).1 i = Some (<[tracker_id := s]> d).
Proof.
  intros Hinv%reachable_inv Htid Hname. pose proof Hinv as [Hwf _]. split.
  - rewrite update_single. unfold update_body. rewrite Htid. unfold any_flip.
    destruct (existsb _ _) eqn:Hany.
    + apply existsb_exists in Hany as ([id s] & Hin%list_elem_of_In & Hflip).
      apply line_loop_raises; [done|apply enumerate_NoDup| |done|by exists id, s].
      intros id' s' Hin'. by eapply elem_of_triggers.
    + apply line_loop_ok; [done|apply enumerate_NoDup|].
      intros id s Hin. split; [by eapply elem_of_triggers|]. intros Hflip.
      assert (existsb (λ p, is_flip self σ tracker_id p.1 p.2)
                (enumerate (triggers_batch self det)) = true) as Hex; [|congruence].
      apply existsb_exists. exists (id, s). split; [by apply list_elem_of_In|done].
  - intros i s d Hs Hside Hd.
    by destruct (update_unseen self σ det tracker_id i s d Hinv Htid Hs Hside Hd)
      as (? & ? & _).
Qed.

(** A lorry, class 7, which [ex_names] does not hold, comes to x = 5. *)
Lemma unknown_class_raises_only_at_flip_witness :
  (update ex_self [ex_det 7 8 5] ex_store).2
  = (if any_flip ex_self ex_store 8 (ex_det 7 8 5)
     then inl (KeyError (KInt 7)) else inr ())
  ∧ ∀ (i : nat) (s : bool) (d : gmap Z bool),
      triggers_batch ex_self (ex_det 7 8 5) !! i = Some s →
      side_of ex_self ex_store i = Some d → d !! 8 = None →
      (update ex_self [ex_det 7 8 5] ex_store).2 = inr ()
      ∧ side_of ex_self (update ex_self [ex_det 7 8 5] ex_store).1 i = Some (<[8 := s]> d).
Proof.
  apply (unknown_class_raises_only_at_flip ex_self ex_store (ex_det 7 8 5) 8).
  - apply ex_reachable.
  - reflexivity.
  - by vm_compute.
Defined.

(** C2 as stated fails: the first sighting of an object of unknown class 7
    raises nothing, and line 0 records its side. *)
Lemma unknown_class_counterexample :
  det_tracker_id (ex_det 7 8 5) = Some 8
  ∧ class_name_dict ex_self !! det_class_id (ex_det 7 8 5) = None
  ∧ (update ex_self [ex_det 7 8 5] ex_store).2 = inr ()
  ∧ side_of ex_self (update ex_self [ex_det 7 8 5] ex_store).1 0 = Some (<[8 := true]> ∅).
Proof. by vm_compute. Qed.

(** C3, as the code has it.  When the class of an observation has no name
    and line [i] is the first line on which its identity flips, [update]
    raises [KeyError] out of the whole call: the observations after it are
    not processed, whatever they are.  The side map of line [i] already
    holds the new side and the crossing log already ends in [i]; no count
    has changed, and the lines other than [i] are as they were. *)
Theorem unknown_class_flip_stops_update self σ det rest (tracker_id : Z) (i : nat)
    (s b : bool) (d : gmap Z bool) :
  reachable self σ →
  det_tracker_id det = Some tracker_id →
  class_name_dict self !! det_class_id det = None →
  triggers_batch self det !! i = Some s →
  side_of self σ i = Some d → d !! tracker_id = Some b → b ≠ s →
  (∀ j s', (j < i)%nat → triggers_batch self det !! j = Some s' →
     is_flip self σ tracker_id j s' = false) →
  update self (det :: rest) σ = update self [det] σ
  ∧ (update self (det :: rest) σ).2 = inl (KeyError (KInt (det_class_id det)))
  ∧ side_of self (update self (det :: rest) σ).1 i = Some (<[tracker_id := s]> d)
  ∧ (∃ log, tracker_line σ !! tracker_id = Some log
       ∧ tracker_line (update self (det :: rest) σ).1 !! tracker_id
         = Some (log ++ [Z.of_nat i]))
  ∧ count_objs (update self (det :: rest) σ).1 = count_objs σ
  ∧ ∀ j, j ≠ i →
      side_of self (update self (det :: rest) σ).1 j = side_of self σ j.
Proof.
  intros Hinv%reachable_inv Htid Hname Hs Hside Hd Hb Hfirst. pose proof Hinv as [Hwf _].
  assert (i < length (vector_batch self))%nat as Hi by (by eapply side_of_range).
  destruct (update_body_raises_at_first_flip self σ det tracker_id i s d b
              Hinv Htid Hname Hs Hside Hd Hb Hfirst) as [Hbody Herr].
  rewrite update_single, (update_cons_raise self det rest σ (KeyError (KInt (det_class_id det))))
    by (by rewrite Hbody).
  rewrite Hbody. split_and!; [done|done| | | |].
  - by destruct (line_step_flip_state self (det_class_id det) tracker_id i s σ d
                   Hwf Hside b Hd Hb) as [? _].
  - destruct (line_step_flip_state self (det_class_id det) tracker_id i s σ d
                Hwf Hside b Hd Hb) as (_ & log & Hlog & ->).
    exists log. by rewrite lookup_insert_eq.
  - by destruct (line_step_flip_unknown_class self (det_class_id det) tracker_id i s σ d
                   Hwf Hside b Hd Hb Hname Hi) as [_ ?].
  - intros j Hj. by apply line_step_side_of_ne.
Qed.

(** Identity 7 comes back to x = -5 labelled with the unknown class 7, in a
    call that also holds a car, identity 9, at x = 5. *)
Lemma unknown_class_flip_stops_update_witness :
  update ex_self [ex_det 7 7 (-5); ex_det 2 9 5] ex_store1
  = update ex_self [ex_det 7 7 (-5)] ex_store1
  ∧ (update ex_self [ex_det 7 7 (-5); ex_det 2 9 5] ex_store1).2 = inl (KeyError (KInt 7))
  ∧ side_of ex_self (update ex_self [ex_det 7 7 (-5); ex_det 2 9 5] ex_store1).1 0
    = Some (<[7 := false]> (<[7 := true]> ∅))
  ∧ (∃ log, tracker_line ex_store1 !! 7 = Some log
       ∧ tracker_line (update ex_self [ex_det 7 7 (-5); ex_det 2 9 5] ex_store1).1 !! 7
         = Some (log ++ [Z.of_nat 0]))
  ∧ count_objs (update ex_self [ex_det 7 7 (-5); ex_det 2 9 5] ex_store1).1
    = count_objs ex_store1
  ∧ ∀ j, j ≠ 0%nat →
      side_of ex_self (update ex_self [ex_det 7 7 (-5); ex_det 2 9 5] ex_store1).1 j
      = side_of ex_self ex_store1 j.
Proof.
  apply (unknown_class_flip_stops_update ex_self ex_store1 (ex_det 7 7 (-5))
           [ex_det 2 9 5] 7 0 false true (<[7 := true]> ∅)).
  - apply ex_reachable1.
  - reflexivity.
  - by vm_compute.
  - by vm_compute.
  - by vm_compute.
  - by vm_compute.
  - done.
  - intros j s' Hj. lia.
Defined.

(** C3 as stated fails on that call: the side of identity 7 on line 0 is
    changed although its observation raised, and the car with identity 9,
    which the same call on its own would record, is not recorded. *)
Lemma unknown_class_flip_counterexample :
  side_of ex_self ex_store1 0 = Some (<[7 := true]> ∅)
  ∧ side_of ex_self (update ex_self [ex_det 7 7 (-5); ex_det 2 9 5] ex_store1).1 0
    = Some (<[7 := false]> ∅)
  ∧ side_of ex_self (update ex_self [ex_det 2 9 5] ex_store1).1 0
    = Some (<[9 := true]> (<[7 := true]> ∅)).
Proof. by vm_compute. Qed.

(** ** The crossing log *)

(** C8, as the code has it.  The log entry of an identity starts with the
    class identifier of its first sighting, not with a line index: an
    observation of an identity that the lines have not seen sets the entry
    to [[class_id]].  An observation of an identity that the lines have
    seen appends, when the call returns, the indices of the lines on which
    it flips, in line order. *)
Theorem crossing_log_holds_class_then_lines self σ det (tracker_id : Z) :
  reachable self σ →
  det_tracker_id det = Some tracker_id →
  (∀ (i : nat) (s : bool) (d : gmap Z bool),
     triggers_batch self det !! i = Some s →
     side_of self σ i = Some d → d !! tracker_id = None →
     tracker_line (update self [det] σ).1 !! tracker_id = Some [det_class_id det])
  ∧ (∀ (i : nat) (s : bool) (d : gmap Z bool) log,
     triggers_batch self det !! i = Some s →
     side_of self σ i = Some d → is_Some (d !! tracker_id) →
     tracker_line σ !! tracker_id = Some log →
     (update self [det] σ).2 = inr () →
     tracker_line (update self [det] σ).1 !! tracker_id
     = Some (log ++ (Z.of_nat <$>
         crossed self tracker_id σ (enumerate (triggers_batch self det))))).
Proof.
  intros Hinv%reachable_inv Htid. pose proof Hinv as [Hwf _]. split.
  - intros i s d Hs Hside Hd.
    by destruct (update_unseen self σ det tracker_id i s d Hinv Htid Hs Hside Hd)
      as (_ & _ & _ & _ & ?).
  - intros i s d log Hs Hside Hseen Hlog. rewrite update_single. unfold update_body.
    rewrite Htid. apply line_loop_seen_log; [done|apply enumerate_NoDup| |done].
    intros id s' Hin%elem_of_triggers. by eapply seen_everywhere.
Qed.

Lemma crossing_log_holds_class_then_lines_witness :
  (∀ (i : nat) (s : bool) (d : gmap Z bool),
     triggers_batch ex_self (ex_det 2 7 5) !! i = Some s →
     side_of ex_self ex_store i = Some d → d !! 7 = None →
     tracker_line (update ex_self [ex_det 2 7 5] ex_store).1 !! 7 = Some [2])
  ∧ (∀ (i : nat) (s : bool) (d : gmap Z bool) log,
     triggers_batch ex_self (ex_det 2 7 5) !! i = Some s →
     side_of ex_self ex_store i = Some d → is_Some (d !! 7) →
     tracker_line ex_store !! 7 = Some log →
     (update ex_self [ex_det 2 7 5] ex_store).2 = inr () →
     tracker_line (update ex_self [ex_det 2 7 5] ex_store).1 !! 7
     = Some (log ++ (Z.of_nat <$>
         crossed ex_self 7 ex_store (enumerate (triggers_batch ex_self (ex_det 2 7 5)))))).
Proof.
  apply (crossing_log_holds_class_then_lines ex_self ex_store (ex_det 2 7 5) 7).
  - apply ex_reachable.
  - reflexivity.
Defined.

(** C8 as stated fails: the first sighting of car 7, a car being class 2,
    leaves the entry [[2]], which is the index of neither line; when the car
    then crosses line 0 the entry is [[2; 0]]. *)
Lemma crossing_log_counterexample :
  length (vector_batch ex_self) = 2%nat
  ∧ tracker_line ex_store1 !! 7 = Some [2]
  ∧ tracker_line (update ex_self [ex_det 2 7 (-5)] ex_store1).1 !! 7 = Some [2; 0].
Proof. by vm_compute. Qed.

(** ** Counts start at zero and never go down *)

(** C9, as the code has it.  The constructor gives every line a zero in and
    out count for the name of every identifier listed in [class_id], and
    for no other name of [class_name_dict].  In every store of the tracker
    the counts are non-negative, and no [update] call, returning or raising,
    lowers or removes a count. *)
Theorem counts_start_at_zero_and_grow start end_ class_id class_name_dict σ0 σ1 self :
  __init__ start end_ class_id class_name_dict σ0 = (σ1, inr self) →
  (∀ i c, (i < length start)%nat → c ∈ class_id →
     ∃ name, class_name_dict !! c = Some name
       ∧ in_count_of self σ1 i name = Some 0
       ∧ out_count_of self σ1 i name = Some 0)
  ∧ (∀ i name v,
       in_count_of self σ1 i name = Some v ∨ out_count_of self σ1 i name = Some v →
       v = 0 ∧ ∃ c, c ∈ class_id ∧ class_name_dict !! c = Some name)
  ∧ ∀ σ, reachable self σ →
      (∀ i name v,
         in_count_of self σ i name = Some v ∨ out_count_of self σ i name = Some v →
         0 ≤ v)
      ∧ ∀ detections i name v,
          (in_count_of self σ i name = Some v →
           ∃ v', in_count_of self (update self detections σ).1 i name = Some v' ∧ v ≤ v')
          ∧ (out_count_of self σ i name = Some v →
             ∃ v', out_count_of self (update self detections σ).1 i name = Some v' ∧ v ≤ v').
Proof.
  intros Hinit. pose proof Hinit as (Hlen & Hall & -> & ->)%init_inv. split_and!.
  - intros i c Hi Hc. destruct (Hall c Hc) as [name Hname]. exists name. split; [done|].
    destruct (init_line_state start end_ class_id class_name_dict σ0 i Hi) as (_ & Hin & Hout).
    unfold in_count_of, out_count_of. rewrite Hin, Hout. simpl.
    by rewrite (zero_counts_lookup class_id class_name_dict ∅ c name).
  - intros i name v Hv.
    assert (zero_counts class_id class_name_dict ∅ !! name = Some v) as Hz.
    { assert (i < length start)%nat as Hi.
      { destruct Hv as [(l & Hl & _)%in_count_of_Some|(l & Hl & _)%out_count_of_Some];
          apply lookup_lt_Some in Hl; simpl in Hl;
          by rewrite !length_fmap, length_seq in Hl. }
      destruct (init_line_state start end_ class_id class_name_dict σ0 i Hi)
        as (_ & Hin & Hout).
      unfold in_count_of, out_count_of in Hv. rewrite Hin, Hout in Hv. simpl in Hv.
      by destruct Hv. }
    destruct (zero_counts_origin _ _ _ _ _ Hz) as [Hd|?]; [|done].
    by rewrite lookup_empty in Hd.
  - intros σ Hinv%reachable_inv. split.
    + intros i name v [(l & Hl & Hv)%in_count_of_Some|(l & Hl & Hv)%out_count_of_Some].
      * eapply (wf_nonneg _ _ (proj1 Hinv)); [by eapply in_batch_count_locs|done].
      * eapply (wf_nonneg _ _ (proj1 Hinv)); [by eapply out_batch_count_locs|done].
    + intros detections i name v. destruct (update_inv _ detections σ Hinv) as [_ Hev].
      split.
      * intros (l & Hl & Hv)%in_count_of_Some.
        destruct (ev_count_le _ _ Hev l name v Hv) as (v' & Hv' & Hle).
        exists v'. split; [|done]. apply in_count_of_Some. eauto.
      * intros (l & Hl & Hv)%out_count_of_Some.
        destruct (ev_count_le _ _ Hev l name v Hv) as (v' & Hv' & Hle).
        exists v'. split; [|done]. apply out_count_of_Some. eauto.
Qed.

Lemma counts_start_at_zero_and_grow_witness :
  (∀ i c, (i < length ex_start)%nat → c ∈ [2; 5] →
     ∃ name, ex_names !! c = Some name
       ∧ in_count_of ex_self ex_store i name = Some 0
       ∧ out_count_of ex_self ex_store i name = Some 0)
  ∧ (∀ i name v,
       in_count_of ex_self ex_store i name = Some v
       ∨ out_count_of ex_self ex_store i name = Some v →
       v = 0 ∧ ∃ c, c ∈ [2; 5] ∧ ex_names !! c = Some name)
  ∧ ∀ σ, reachable ex_self σ →
      (∀ i name v,
         in_count_of ex_self σ i name = Some v ∨ out_count_of ex_self σ i name = Some v →
         0 ≤ v)
      ∧ ∀ detections i name v,
          (in_count_of ex_self σ i name = Some v →
           ∃ v', in_count_of ex_self (update ex_self detections σ).1 i name = Some v'
                 ∧ v ≤ v')
          ∧ (out_count_of ex_self σ i name = Some v →
             ∃ v', out_count_of ex_self (update ex_self detections σ).1 i name = Some v'
                   ∧ v ≤ v').
Proof.
  apply (counts_start_at_zero_and_grow ex_start ex_end [2; 5] ex_names ex_store0
           ex_store ex_self).
  by vm_compute.
Defined.

Lemma ex_cars_init :
  __init__ ex_start ex_end [2] ex_names ex_store0 = (ex_cars_store, inr ex_cars_self).
Proof. by vm_compute. Qed.

(** C9 as stated fails: class 5 is in the registry under the name "bus",
    yet after construction line 0 has no count for "bus", neither in nor
    out. *)
Lemma counts_start_at_zero_counterexample :
  __init__ ex_start ex_end [2] ex_names ex_store0 = (ex_cars_store, inr ex_cars_self)
  ∧ class_name_dict ex_cars_self !! 5 = Some "bus"
  ∧ in_count_of ex_cars_self ex_cars_store 0 "bus" = None
  ∧ out_count_of ex_cars_self ex_cars_store 0 "bus" = None.
Proof. by vm_compute. Qed.

(** ** The counts of a line add up to its flips *)

Lemma init_line_total start end_ class_id class_name_dict σ0 i :
  line_total (init_self start end_ class_id class_name_dict σ0)
    (init_store start class_id class_name_dict σ0) i = 0.
Proof.
  destruct (decide (i < length start)%nat) as [Hi|Hi].
  - destruct (init_line_state start end_ class_id class_name_dict σ0 i Hi)
      as (_ & Hin & Hout).
    unfold line_total. rewrite Hin, Hout. simpl.
    rewrite dict_sum_zeros; [done|].
    intros name v [->|Hv]%zero_counts_value; [done|]. by rewrite lookup_empty in Hv.
  - unfold line_total, in_of, out_of.
    rewrite init_in_batch, init_out_batch, !list_lookup_fmap.
    by rewrite (lookup_ge_None_2 (seq 0 (length start)) i) by (rewrite length_seq; lia).
Qed.

(** C7, as the code has it.  When the class identifier of every observation
    is one of the identifiers listed in [class_id] at construction, every
    [update] call returns normally and, for every line, the sum over all
    classes of the in and out counts is the number of flips that [update]
    detected for that line. *)
Theorem counts_add_up_to_flips start end_ class_id class_name_dict σ0 σ1 self calls :
  __init__ start end_ class_id class_name_dict σ0 = (σ1, inr self) →
  (∀ detections det, detections ∈ calls → det ∈ detections →
     det_class_id det ∈ class_id) →
  (∀ i, line_total self (run self calls σ1) i = Z.of_nat (run_flips self i calls σ1))
  ∧ ∀ before detections after, calls = before ++ detections :: after →
      (update self detections (run self before σ1)).2 = inr ().
Proof.
  intros Hinit Hall.
  assert (reachable self σ1) as Hreach by (by eapply reachable_init).
  apply init_inv in Hinit as (_ & _ & -> & ->). split.
  - intros i. rewrite run_total; [by rewrite init_line_total|by apply reachable_inv|done].
  - intros before detections after ->.
    eapply (update_total _ 0%nat); [by apply reachable_inv, run_reachable|].
    intros det Hdet. apply (Hall detections); [|done].
    apply elem_of_app. right. by left.
Qed.

(** Car 7 is seen at x = 5 and then at x = -5. *)
Lemma counts_add_up_to_flips_witness :
  (∀ i, line_total ex_self (run ex_self [[ex_det 2 7 5]; [ex_det 2 7 (-5)]] ex_store) i
        = Z.of_nat (run_flips ex_self i [[ex_det 2 7 5]; [ex_det 2 7 (-5)]] ex_store))
  ∧ ∀ before detections after,
      [[ex_det 2 7 5]; [ex_det 2 7 (-5)]] = before ++ detections :: after →
      (update ex_self detections (run ex_self before ex_store)).2 = inr ().
Proof.
  apply (counts_add_up_to_flips ex_start ex_end [2; 5] ex_names ex_store0 ex_store ex_self
           [[ex_det 2 7 5]; [ex_det 2 7 (-5)]]).
  - by vm_compute.
  - intros detections det Hc Hdet.
    apply elem_of_cons in Hc as [->|Hc]; [|apply elem_of_cons in Hc as [->|Hc]].
    + apply elem_of_cons in Hdet as [->|Hdet]; [by left|by apply elem_of_nil in Hdet].
    + apply elem_of_cons in Hdet as [->|Hdet]; [by left|by apply elem_of_nil in Hdet].
    + by apply elem_of_nil in Hc.
Defined.

(** C7 as stated fails: with only class 2 listed in [class_id], bus 7 (class
    5, which the registry names "bus") is seen at x = 5 and then at x = -5.
    Line 0 detects one flip, the increment raises [KeyError], and the counts
    of line 0 still add up to zero. *)
Lemma counts_add_up_counterexample :
  class_name_dict ex_cars_self !! det_class_id (ex_det 5 7 5) = Some "bus"
  ∧ class_name_dict ex_cars_self !! det_class_id (ex_det 5 7 (-5)) = Some "bus"
  ∧ run_flips ex_cars_self 0 [[ex_det 5 7 5]; [ex_det 5 7 (-5)]] ex_cars_store = 1%nat
  ∧ line_total ex_cars_self
      (run ex_cars_self [[ex_det 5 7 5]; [ex_det 5 7 (-5)]] ex_cars_store) 0 = 0
  ∧ (update ex_cars_self [ex_det 5 7 (-5)]
       (update ex_cars_self [ex_det 5 7 5] ex_cars_store).1).2
    = inl (KeyError (KStr "bus")).
Proof. by vm_compute. Qed.

(** ** Further properties *)

(** An observation without a tracker identifier is skipped: whatever the
    store and the class, the call returns normally and the store is
    unchanged. *)
Theorem untracked_observation_is_skipped self σ det :
  det_tracker_id det = None →
  update self [det] σ = (σ, inr ()).
Proof. intros Hnone. rewrite update_single. unfold update_body. by rewrite Hnone. Qed.

Lemma untracked_observation_is_skipped_witness :
  update ex_self [mkDetection (ex_box 5 50) 1 7 None] ex_store1 = (ex_store1, inr ()).
Proof. by apply (untracked_observation_is_skipped ex_self ex_store1). Defined.

(** When the start points have their end points, the constructor raises
    [KeyError] at the first identifier of [class_id] that [class_name_dict]
    does not hold, and returns no tracker. *)
Theorem init_needs_a_name_per_class start end_ class_name_dict σ0 known c others :
  (length start ≤ length end_)%nat →
  (∀ c', c' ∈ known → is_Some (class_name_dict !! c')) →
  class_name_dict !! c = None →
  (__init__ start end_ (known ++ c :: others) class_name_dict σ0).2 = inl (KeyError (KInt c)).
Proof. apply init_key_error. Qed.

Lemma init_needs_a_name_per_class_witness :
  (__init__ ex_start ex_end ([2] ++ 7 :: [5]) ex_names ex_store0).2 = inl (KeyError (KInt 7)).
Proof.
  apply (init_needs_a_name_per_class ex_start ex_end ex_names ex_store0 [2] 7 [5]).
  - simpl. lia.
  - intros c' [->|Hc']%elem_of_cons; [|by apply elem_of_nil in Hc'].
    apply elem_of_dom. by vm_compute.
  - by vm_compute.
Defined.

(** * Further properties

    Properties of the constructor, of [update] and of the annotator that
    the code shows besides. *)

(** ** What [update] writes *)

(** [update] writes to the count dicts and the side maps of the batches, and
    to no other dict object. *)
Section update_frame.
Context (self : LineCounter).

Lemma line_loop_frame_count class_id tracker_id ts σ l :
  l ∉ count_locs self →
  deref (count_objs (line_loop self class_id tracker_id ts σ).1) l = deref (count_objs σ) l.
Proof.
  intros Hl.
  enough (True ∧ deref (count_objs (line_loop self class_id tracker_id ts σ).1) l
                 = deref (count_objs σ) l) as [_ ?] by done.
  apply (for_invariant _ (λ _, True)
           (λ σ1 σ2, deref (count_objs σ2) l = deref (count_objs σ1) l)); [done| |  |done].
  - intros σ1 σ2 σ3 H12 H23. by rewrite H23.
  - intros [id s] σ1 _ _. split; [done|]. apply line_step_frame_count.
    intros Hid. apply Hl. by eapply count_batch_count_locs.
Qed.

Lemma line_loop_frame_side class_id tracker_id ts σ l :
  l ∉ tracker_state_batch self →
  deref (side_objs (line_loop self class_id tracker_id ts σ).1) l = deref (side_objs σ) l.
Proof.
  intros Hl.
  enough (True ∧ deref (side_objs (line_loop self class_id tracker_id ts σ).1) l
                 = deref (side_objs σ) l) as [_ ?] by done.
  apply (for_invariant _ (λ _, True)
           (λ σ1 σ2, deref (side_objs σ2) l = deref (side_objs σ1) l)); [done| |  |done].
  - intros σ1 σ2 σ3 H12 H23. by rewrite H23.
  - intros [id s] σ1 _ _. split; [done|]. apply line_step_frame_side.
    intros Hid. apply Hl. by eapply list_elem_of_lookup_2.
Qed.

Lemma update_frame_count detections σ l :
  l ∉ count_locs self →
  deref (count_objs (update self detections σ).1) l = deref (count_objs σ) l.
Proof.
  intros Hl.
  enough (True ∧ deref (count_objs (update self detections σ).1) l
                 = deref (count_objs σ) l) as [_ ?] by done.
  apply (for_invariant _ (λ _, True)
           (λ σ1 σ2, deref (count_objs σ2) l = deref (count_objs σ1) l)); [done| |  |done].
  - intros σ1 σ2 σ3 H12 H23. by rewrite H23.
  - intros det σ1 _ _. split; [done|]. unfold update_body.
    destruct (det_tracker_id det); [by apply line_loop_frame_count|done].
Qed.

Lemma update_frame_side detections σ l :
  l ∉ tracker_state_batch self →
  deref (side_objs (update self detections σ).1) l = deref (side_objs σ) l.
Proof.
  intros Hl.
  enough (True ∧ deref (side_objs (update self detections σ).1) l
                 = deref (side_objs σ) l) as [_ ?] by done.
  apply (for_invariant _ (λ _, True)
           (λ σ1 σ2, deref (side_objs σ2) l = deref (side_objs σ1) l)); [done| |  |done].
  - intros σ1 σ2 σ3 H12 H23. by rewrite H23.
  - intros det σ1 _ _. split; [done|]. unfold update_body.
    destruct (det_tracker_id det); [by apply line_loop_frame_side|done].
Qed.
End update_frame.

(** The templates are none of the dict objects of the batches. *)
Lemma reachable_templates_apart self σ :
  reachable self σ →
  (in_count_dict self ∉ count_locs self)
  ∧ (out_count_dict self ∉ count_locs self)
  ∧ (tracker_state self ∉ tracker_state_batch self).
Proof.
  intros (start & end_ & class_id & class_name_dict & σ0 & ->)%reachable_init_self.
  pose proof (init_count_NoDup start end_ class_id class_name_dict σ0) as Hc.
  pose proof (init_side_NoDup start end_ class_id class_name_dict σ0) as Hs.
  apply NoDup_cons in Hc as [Hin Hc]. apply NoDup_cons in Hc as [Hout _].
  apply NoDup_cons in Hs as [Hside _].
  split_and!; [|done..]. intros Hl. apply Hin. by right.
Qed.

(** ** Further properties of the constructor and of [update] *)

(** The constructor returns a tracker exactly when every start point has an
    end point and every identifier of [class_id] has a name.  The tracker
    then has one line per start point, line [i] from [start[i]] to [end[i]];
    end points beyond the last start point are not used. *)
Theorem init_returns_one_line_per_start start end_ class_id class_name_dict σ0 :
  ((∃ σ self, __init__ start end_ class_id class_name_dict σ0 = (σ, inr self))
   ↔ (length start ≤ length end_)%nat
     ∧ ∀ c, c ∈ class_id → is_Some (class_name_dict !! c))
  ∧ ∀ σ self, __init__ start end_ class_id class_name_dict σ0 = (σ, inr self) →
      length (vector_batch self) = length start
      ∧ ∀ i s, start !! i = Some s →
          ∃ e, end_ !! i = Some e ∧ vector_batch self !! i = Some (Vector.mk s e).
Proof.
  split; [split|].
  - by intros (σ & self & (? & ? & _)%init_inv).
  - intros [Hlen Hall]. eexists _, _. by apply init_ok.
  - intros σ self (Hlen & _ & _ & ->)%init_inv. split.
    + by apply init_vector_batch_length.
    + intros i s Hs.
      destruct (lookup_lt_is_Some_2 end_ i) as [e He].
      { apply lookup_lt_Some in Hs. lia. }
      exists e. split; [done|]. simpl. rewrite lookup_zip_with, Hs. simpl. by rewrite He.
Qed.

(** The three templates that the constructor copies for every line are not
    touched afterwards: whatever [update] has counted, [self.in_count_dict]
    and [self.out_count_dict] hold a zero for the name of every identifier of
    [class_id], and [self.tracker_state] is empty. *)
Theorem templates_stay_as_built self σ :
  reachable self σ →
  deref (count_objs σ) (in_count_dict self)
  = zero_counts (class_id self) (class_name_dict self) ∅
  ∧ deref (count_objs σ) (out_count_dict self)
    = zero_counts (class_id self) (class_name_dict self) ∅
  ∧ deref (side_objs σ) (tracker_state self) = ∅.
Proof.
  intros Hreach. destruct (reachable_templates_apart _ _ Hreach) as (Hin & Hout & Hside).
  induction Hreach as [start end_ class_id class_name_dict σ0 σ Hinit|detections σ _ IH].
  - apply init_inv in Hinit as (_ & _ & -> & ->).
    rewrite !init_count_deref, init_side_deref by (simpl; lia). done.
  - rewrite !update_frame_count, update_frame_side by done. by apply IH.
Qed.

Lemma templates_stay_as_built_witness :
  deref (count_objs (update ex_self [ex_det 2 7 (-5)] ex_store1).1) (in_count_dict ex_self)
  = zero_counts (class_id ex_self) (class_name_dict ex_self) ∅
  ∧ deref (count_objs (update ex_self [ex_det 2 7 (-5)] ex_store1).1) (out_count_dict ex_self)
    = zero_counts (class_id ex_self) (class_name_dict ex_self) ∅
  ∧ deref (side_objs (update ex_self [ex_det 2 7 (-5)] ex_store1).1) (tracker_state ex_self)
    = ∅.
Proof.
  apply (templates_stay_as_built ex_self (update ex_self [ex_det 2 7 (-5)] ex_store1).1).
  apply reachable_update, reachable_update, ex_reachable.
Defined.

(** A tracker without lines ignores every observation: whatever the
    detections, their classes among them, [update] returns normally and
    leaves the store as it is. *)
Theorem update_without_lines_does_nothing self detections σ :
  vector_batch self = [] →
  update self detections σ = (σ, inr ()).
Proof.
  intros Hnone. induction detections as [|det dets IH]; [done|].
  unfold update. rewrite for_cons. fold (update self dets).
  assert (update_body self det σ = (σ, inr ())) as ->; [|done].
  unfold update_body, triggers_batch. rewrite Hnone.
  by destruct (det_tracker_id det).
Qed.

Lemma update_without_lines_does_nothing_witness :
  update (init_self [] [] [2] ex_names ex_store0) [ex_det 7 8 5; ex_det 2 7 5]
    (init_store [] [2] ex_names ex_store0)
  = (init_store [] [2] ex_names ex_store0, inr ()).
Proof.
  apply (update_without_lines_does_nothing (init_self [] [] [2] ex_names ex_store0)).
  reflexivity.
Defined.

(** One call with the detections [ds1 ++ ds2] does what a call with [ds1]
    followed by a call with [ds2] does, when the first returns; when the
    first raises, so does the one call, in the same store, and [ds2] is not
    looked at. *)
Theorem update_splits_into_calls self ds1 ds2 σ :
  ((update self ds1 σ).2 = inr () →
   update self (ds1 ++ ds2) σ = update self ds2 (update self ds1 σ).1)
  ∧ ∀ e, (update self ds1 σ).2 = inl e →
      update self (ds1 ++ ds2) σ = update self ds1 σ.
Proof.
  unfold update. rewrite for_app.
  destruct (for_ ds1 (update_body self) σ) as [σ1 [e|[]]]; simpl.
  - split; [done|]. by intros e' [= <-].
  - split; [done|]. by intros e' [=].
Qed.

Lemma update_splits_into_calls_witness :
  update ex_self ([ex_det 2 7 5] ++ [ex_det 2 7 (-5)]) ex_store
  = update ex_self [ex_det 2 7 (-5)] (update ex_self [ex_det 2 7 5] ex_store).1.
Proof.
  apply (proj1 (update_splits_into_calls ex_self [ex_det 2 7 5] [ex_det 2 7 (-5)] ex_store)).
  by vm_compute.
Defined.

(** ** Only the centre of a box is tested *)

Lemma is_in_same_point v p p' :
  (Point.x p == Point.x p')%Q → (Point.y p == Point.y p')%Q →
  Vector.is_in v p = Vector.is_in v p'.
Proof. intros Hx Hy. unfold Vector.is_in. by rewrite Hx, Hy. Qed.

Lemma triggers_batch_same_centre self det det' :
  same_centre (xyxy det) (xyxy det') →
  triggers_batch self det = triggers_batch self det'.
Proof.
  intros [Hx Hy]. unfold triggers_batch. apply list_fmap_ext.
  intros _ v _. by apply is_in_same_point.
Qed.

(** [update] looks at the class identifier, the tracker identifier and the
    centre of the box of a detection, and at nothing else: two detections that
    agree on these are treated alike, whatever the extent of their boxes and
    their confidence. *)
Theorem update_tests_the_box_centre self det det' rest σ :
  det_class_id det = det_class_id det' →
  det_tracker_id det = det_tracker_id det' →
  same_centre (xyxy det) (xyxy det') →
  update self (det :: rest) σ = update self (det' :: rest) σ.
Proof.
  intros Hc Ht Hxy. unfold update. rewrite !for_cons.
  assert (update_body self det σ = update_body self det' σ) as ->; [|done].
  unfold update_body. by rewrite Hc, Ht, (triggers_batch_same_centre self det det').
Qed.

(** A box of width 6 and height 20 around (-5, 50), with another
    confidence. *)
Lemma update_tests_the_box_centre_witness :
  update ex_self [ex_det 2 7 (-5)] ex_store1
  = update ex_self
      [mkDetection (inject_Z (-8), inject_Z 40, inject_Z (-2), inject_Z 60) (1 # 2) 2 (Some 7)]
      ex_store1.
Proof.
  apply (update_tests_the_box_centre ex_self (ex_det 2 7 (-5))
           (mkDetection (inject_Z (-8), inject_Z 40, inject_Z (-2), inject_Z 60) (1 # 2) 2
              (Some 7)) [] ex_store1).
  - reflexivity.
  - reflexivity.
  - split; reflexivity.
Defined.

(** ** What [update] can raise *)

Section raises.
Context (self : LineCounter) (c tracker_id : Z).

Lemma line_step_raise_inv σ id triggers e :
  wf self σ → (id < length (vector_batch self))%nat →
  (line_step self c tracker_id id triggers σ).2 = inl e →
  uncounted_class self c e.
Proof.
  intros Hwf Hid Herr.
  destruct (line_step_inv self σ c tracker_id id triggers)
    as [Hl|l Hl Hd|l Hl Hd|l b Hl Hd Hb Hlog|l b log Hl Hd Hb Hlog Hlc
       |l b log lc Hl Hd Hb Hlog Hlc Hn|l b log lc name Hl Hd Hb Hlog Hlc Hn Hv
       |l b log lc name v Hl Hd Hb Hlog Hlc Hn Hv]; simplify_eq.
  - by destruct (wf_side_batch_Some self σ id).
  - by destruct (wf_logged_lookup self tracker_id σ id l b).
  - by destruct (wf_count_batch_Some self σ id triggers).
  - split; [|by left]. intros Hc.
    destruct (wf_classes _ _ Hwf _ Hc) as (? & ? & _). congruence.
  - assert (∀ c', c' ∈ class_id self → class_name_dict self !! c' ≠ Some name) as Hnone.
    { intros c' Hc' Hname. destruct (wf_classes _ _ Hwf _ Hc') as (name' & ? & Hin).
      simplify_eq. apply not_elem_of_dom in Hv. apply Hv, Hin.
      by eapply count_batch_count_locs. }
    split; [|right; by exists name]. intros Hc. by eapply Hnone.
Qed.

Lemma line_loop_raise_inv ts σ e :
  wf self σ →
  (∀ id s, (id, s) ∈ ts → (id < length (vector_batch self))%nat) →
  (line_loop self c tracker_id ts σ).2 = inl e →
  uncounted_class self c e.
Proof.
  revert σ. induction ts as [|[id s] ts IH]; intros σ Hwf Hts; [done|].
  unfold line_loop. rewrite for_cons. fold (line_loop self c tracker_id ts).
  pose proof (line_step_raise_inv σ id s) as Hstep.
  pose proof (line_step_wf self c tracker_id id s σ Hwf) as Hwf1.
  destruct (line_step self c tracker_id id s σ) as [σ1 [e'|[]]]; simpl in *.
  - intros [= ->]. apply Hstep; [done| |done]. apply (Hts id s). by left.
  - apply IH; [done|]. intros id' s' Hin. apply (Hts id' s'). by right.
Qed.
End raises.

(** On a tracker that the constructor built, [update] raises nothing but
    [KeyError], and that for the class of a detection that is not listed in
    [class_id]: for the class identifier when [class_name_dict] has no name
    for it, for the name when no listed identifier bears it.  It raises no
    [IndexError] and no [KeyError] for a tracker identifier. *)
Theorem update_raises_for_unlisted_classes_only self σ detections e :
  reachable self σ →
  (update self detections σ).2 = inl e →
  ∃ det, det ∈ detections
    ∧ is_Some (det_tracker_id det)
    ∧ (det_class_id det ∉ class_id self)
    ∧ ((e = KeyError (KInt (det_class_id det))
        ∧ class_name_dict self !! det_class_id det = None)
       ∨ ∃ name, e = KeyError (KStr name)
           ∧ class_name_dict self !! det_class_id det = Some name
           ∧ ∀ c, c ∈ class_id self → class_name_dict self !! c ≠ Some name).
Proof.
  intros Hinv%reachable_inv. revert σ Hinv.
  induction detections as [|det dets IH]; intros σ Hinv; [done|].
  unfold update. rewrite for_cons. fold (update self dets).
  destruct (update_body_inv self det σ Hinv) as [Hinv1 _].
  destruct (update_body self det σ) as [σ1 [e'|[]]] eqn:Hbody; simpl in *.
  - intros [= ->]. exists det. split; [by left|].
    unfold update_body in Hbody.
    destruct (det_tracker_id det) as [tracker_id|]; [|done]. split; [done|].
    eapply (line_loop_raise_inv self (det_class_id det) tracker_id
              (enumerate (triggers_batch self det)) σ e); [apply Hinv| |by rewrite Hbody].
    intros id s Hin. by eapply elem_of_triggers.
  - intros Herr. destruct (IH σ1 Hinv1 Herr) as (det' & ? & ?).
    exists det'. split; [by right|done].
Qed.

Lemma ex_cars_reachable : reachable ex_cars_self ex_cars_store.
Proof. eapply reachable_init, ex_cars_init. Qed.

(** Bus 7, of a class that has a name and no count, is seen at x = 5 and
    then at x = -5. *)
Lemma update_raises_for_unlisted_classes_only_witness :
  ∃ det, det ∈ [ex_det 5 7 (-5)]
    ∧ is_Some (det_tracker_id det)
    ∧ (det_class_id det ∉ class_id ex_cars_self)
    ∧ ((KeyError (KStr "bus") = KeyError (KInt (det_class_id det))
        ∧ class_name_dict ex_cars_self !! det_class_id det = None)
       ∨ ∃ name, KeyError (KStr "bus") = KeyError (KStr name)
           ∧ class_name_dict ex_cars_self !! det_class_id det = Some name
           ∧ ∀ c, c ∈ class_id ex_cars_self → class_name_dict ex_cars_self !! c ≠ Some name).
Proof.
  apply (update_raises_for_unlisted_classes_only ex_cars_self
           (update ex_cars_self [ex_det 5 7 5] ex_cars_store).1 [ex_det 5 7 (-5)]).
  - apply reachable_update, ex_cars_reachable.
  - by vm_compute.
Defined.

(** ** The side that a line records *)

Section records_side.
Context (self : LineCounter) (c tracker_id : Z).

(** A step that returns leaves the identity on side [triggers]. *)
Lemma line_step_records_side σ id triggers l :
  wf self σ →
  (line_step self c tracker_id id triggers σ).2 = inr () →
  tracker_state_batch self !! id = Some l →
  deref (side_objs (line_step self c tracker_id id triggers σ).1) l !! tracker_id
  = Some triggers.
Proof.
  intros Hwf Hok Hl.
  assert (l < length (side_objs σ))%nat as Hlt.
  { apply (wf_side_live _ _ Hwf). by eapply list_elem_of_lookup_2. }
  destruct (line_step_inv self σ c tracker_id id triggers)
    as [Hl'|l' Hl' Hd|l' Hl' Hd|l' b Hl' Hd Hb Hlog|l' b log Hl' Hd Hb Hlog Hlc
       |l' b log lc Hl' Hd Hb Hlog Hlc Hn|l' b log lc name Hl' Hd Hb Hlog Hlc Hn Hv
       |l' b log lc name v Hl' Hd Hb Hlog Hlc Hn Hv]; simplify_eq; simpl.
  - rewrite deref_insert_eq by done. apply lookup_insert_eq.
  - done.
  - rewrite deref_insert_eq by done. apply lookup_insert_eq.
Qed.

(** A loop that returns leaves the identity, on every line that it visited,
    on the side that it was given for the line. *)
Lemma line_loop_records_sides ts σ id s :
  wf self σ → NoDup (ts.*1) →
  (line_loop self c tracker_id ts σ).2 = inr () →
  (id, s) ∈ ts →
  ∃ d, side_of self (line_loop self c tracker_id ts σ).1 id = Some d
    ∧ d !! tracker_id = Some s.
Proof.
  intros Hwf Hnd Hok Hin. apply list_elem_of_split in Hin as (pre & post & ->).
  rewrite fmap_app, fmap_cons in Hnd. apply NoDup_app in Hnd as (_ & Hpre & Hpost).
  apply NoDup_cons in Hpost as [Hpost _]. simpl in *.
  destruct (line_loop_visit self c tracker_id pre post σ id s Hwf) as
    (σ1 & Hwf1 & _ & _ & _ & Hvisit); [|done|].
  { intros Hin. eapply Hpre; [done|]. by left. }
  destruct (Hvisit Hok) as (_ & Hstep & _ & Hview).
  apply line_view_eq in Hview as (-> & _ & _).
  destruct (tracker_state_batch self !! id) as [l|] eqn:Hl.
  - exists (deref (side_objs (line_step self c tracker_id id s σ1).1) l).
    split; [unfold side_of; by rewrite Hl|]. by apply line_step_records_side.
  - by rewrite line_step_out_of_range in Hstep.
Qed.
End records_side.

(** After a call that returns, every line records the identity of the
    last observation on the side of the line on which the centre of its box
    lies. *)
Theorem update_records_the_observed_side self σ detections det (tracker_id : Z) :
  reachable self σ →
  det_tracker_id det = Some tracker_id →
  (update self (detections ++ [det]) σ).2 = inr () →
  ∀ (i : nat) (s : bool), triggers_batch self det !! i = Some s →
    ∃ d, side_of self (update self (detections ++ [det]) σ).1 i = Some d
      ∧ d !! tracker_id = Some s.
Proof.
  intros Hreach Htid Hok i s Hs.
  pose proof (reachable_inv _ _ (reachable_update self detections σ Hreach)) as [Hwf _].
  revert Hok. unfold update. rewrite for_app. fold (update self detections).
  destruct (update self detections σ) as [σ1 [e|[]]]; [done|]. simpl in Hwf.
  rewrite for_cons. unfold update_body at 1 3. rewrite Htid.
  destruct (line_loop self (det_class_id det) tracker_id
              (enumerate (triggers_batch self det)) σ1) as [σ2 [e|[]]] eqn:Hloop; [done|].
  intros _. simpl.
  replace σ2 with (line_loop self (det_class_id det) tracker_id
                     (enumerate (triggers_batch self det)) σ1).1 by (by rewrite Hloop).
  apply line_loop_records_sides; [done|apply enumerate_NoDup|by rewrite Hloop|].
  by apply elem_of_enumerate.
Qed.

(** A bus is seen beyond line 1, then car 7 at x = -5, on the out side of
    line 0. *)
Lemma update_records_the_observed_side_witness :
  ∃ d, side_of ex_self (update ex_self ([ex_det 5 8 15] ++ [ex_det 2 7 (-5)]) ex_store1).1 0
       = Some d
    ∧ d !! 7 = Some false.
Proof.
  apply (update_records_the_observed_side ex_self ex_store1 [ex_det 5 8 15]
           (ex_det 2 7 (-5)) 7 ex_reachable1 eq_refl ltac:(by vm_compute) 0%nat false).
  by vm_compute.
Defined.

(** An observation that [update] has processed changes nothing when it is
    given again: the second call returns normally and leaves every dict as
    the first left it. *)
Theorem repeated_observation_changes_nothing self σ det :
  reachable self σ →
  (update self [det] σ).2 = inr () →
  update self [det] (update self [det] σ).1 = ((update self [det] σ).1, inr ()).
Proof.
  intros [Hwf _]%reachable_inv. rewrite !update_single. unfold update_body.
  destruct (det_tracker_id det) as [tracker_id|]; [|done].
  intros Hok. apply line_loop_same_side. intros id s Hin.
  by apply line_loop_records_sides; [|apply enumerate_NoDup| |].
Qed.

(** The car has crossed line 0; seen again at x = -5 it is counted no
    second time. *)
Lemma repeated_observation_changes_nothing_witness :
  update ex_self [ex_det 2 7 (-5)] (update ex_self [ex_det 2 7 (-5)] ex_store1).1
  = ((update ex_self [ex_det 2 7 (-5)] ex_store1).1, inr ()).
Proof.
  apply (repeated_observation_changes_nothing ex_self ex_store1 (ex_det 2 7 (-5))).
  - apply ex_reachable1.
  - by vm_compute.
Defined.

(** ** Identities stay, and their crossing logs grow at the end *)

Lemma log_extends_refl tracker_id σ : log_extends tracker_id σ σ.
Proof. intros log Hlog. exists []. by rewrite app_nil_r. Qed.

Lemma log_extends_trans tracker_id σ1 σ2 σ3 :
  log_extends tracker_id σ1 σ2 → log_extends tracker_id σ2 σ3 →
  log_extends tracker_id σ1 σ3.
Proof.
  intros H12 H23 log Hlog. destruct (H12 log Hlog) as [more Hmore].
  destruct (H23 _ Hmore) as [more' Hmore']. exists (more ++ more').
  by rewrite app_assoc.
Qed.

Lemma seen_by_all_evolves self tracker_id σ σ' :
  seen_by_all self tracker_id σ → evolves σ σ' → seen_by_all self tracker_id σ'.
Proof. intros Hseen Hev l Hl. by apply (ev_side_dom _ _ Hev), Hseen. Qed.

Section log_grows.
Context (self : LineCounter) (tracker_id : Z).

(** Only a first sighting overwrites a log, and an identity that every line
    has seen is sighted first by none. *)
Lemma line_step_log_extends c t id s σ :
  seen_by_all self tracker_id σ →
  log_extends tracker_id σ (line_step self c t id s σ).1.
Proof.
  intros Hseen log Hlog.
  destruct (line_step_inv self σ c t id s)
    as [Hl|l Hl Hd|l Hl Hd|l b Hl Hd Hb Hlog'|l b log' Hl Hd Hb Hlog' Hlc
       |l b log' lc Hl Hd Hb Hlog' Hlc Hn|l b log' lc name Hl Hd Hb Hlog' Hlc Hn Hv
       |l b log' lc name v Hl Hd Hb Hlog' Hlc Hn Hv]; simpl;
    try (exists []; by rewrite app_nil_r).
  - destruct (decide (t = tracker_id)) as [->|Hne].
    + apply not_elem_of_dom in Hd. destruct Hd. apply Hseen. by eapply list_elem_of_lookup_2.
    + exists []. by rewrite lookup_insert_ne, app_nil_r.
  - destruct (decide (t = tracker_id)) as [->|Hne].
    + exists [Z.of_nat id]. rewrite lookup_insert_eq. congruence.
    + exists []. by rewrite lookup_insert_ne, app_nil_r.
  - destruct (decide (t = tracker_id)) as [->|Hne].
    + exists [Z.of_nat id]. rewrite lookup_insert_eq. congruence.
    + exists []. by rewrite lookup_insert_ne, app_nil_r.
  - destruct (decide (t = tracker_id)) as [->|Hne].
    + exists [Z.of_nat id]. rewrite lookup_insert_eq. congruence.
    + exists []. by rewrite lookup_insert_ne, app_nil_r.
  - destruct (decide (t = tracker_id)) as [->|Hne].
    + exists [Z.of_nat id]. rewrite lookup_insert_eq. congruence.
    + exists []. by rewrite lookup_insert_ne, app_nil_r.
Qed.

Lemma update_log_extends detections σ :
  seen_by_all self tracker_id σ →
  seen_by_all self tracker_id (update self detections σ).1
  ∧ log_extends tracker_id σ (update self detections σ).1.
Proof.
  apply for_invariant; eauto using log_extends_refl, log_extends_trans.
  intros det σ1 _ Hseen1. unfold update_body.
  destruct (det_tracker_id det) as [t|]; [|split; [done|apply log_extends_refl]].
  apply for_invariant; eauto using log_extends_refl, log_extends_trans.
  intros [id s] σ2 _ Hseen2. split; [|by apply line_step_log_extends].
  eapply seen_by_all_evolves; [done|apply line_step_evolves].
Qed.
End log_grows.

(** [update] forgets no identity.  Once a line has recorded an identity,
    every later store of the tracker, after calls that returned and calls
    that raised, has a side for it on that line, and its crossing log is the
    log it had followed by further entries: the first entry of a log stays
    the class identifier of the first sighting. *)
Theorem seen_identities_stay self σ detections (tracker_id : Z) (i : nat)
    (d : gmap Z bool) :
  reachable self σ →
  side_of self σ i = Some d →
  is_Some (d !! tracker_id) →
  (∃ d', side_of self (update self detections σ).1 i = Some d'
     ∧ is_Some (d' !! tracker_id))
  ∧ ∃ log more,
      tracker_line σ !! tracker_id = Some log
      ∧ tracker_line (update self detections σ).1 !! tracker_id = Some (log ++ more).
Proof.
  intros [Hwf Halike]%reachable_inv Hside Hd.
  pose proof Hside as (l & Hl & ->)%side_of_Some.
  apply elem_of_dom in Hd.
  assert (seen_by_all self tracker_id σ) as Hseen.
  { intros l' Hl'. rewrite (Halike l' l); [done..|]. by eapply list_elem_of_lookup_2. }
  destruct (update_log_extends self tracker_id detections σ Hseen) as [Hseen' Hlog].
  split.
  - exists (deref (side_objs (update self detections σ).1) l).
    split; [unfold side_of; by rewrite Hl|].
    apply elem_of_dom, Hseen'. by eapply list_elem_of_lookup_2.
  - assert (is_Some (tracker_line σ !! tracker_id)) as [log Hlog0].
    { apply elem_of_dom. eapply (wf_logged _ _ Hwf); [|done]. by eapply list_elem_of_lookup_2. }
    destruct (Hlog log Hlog0) as [more Hmore]. by exists log, more.
Qed.

(** Car 7 was first seen as class 2; it comes back labelled with the
    unknown class 7 and the call raises. *)
Lemma seen_identities_stay_witness :
  (∃ d', side_of ex_self (update ex_self [ex_det 7 7 (-5)] ex_store1).1 0 = Some d'
     ∧ is_Some (d' !! 7))
  ∧ ∃ log more,
      tracker_line ex_store1 !! 7 = Some log
      ∧ tracker_line (update ex_self [ex_det 7 7 (-5)] ex_store1).1 !! 7 = Some (log ++ more).
Proof.
  apply (seen_identities_stay ex_self ex_store1 [ex_det 7 7 (-5)] 7 0 (<[7 := true]> ∅)).
  - apply ex_reachable1.
  - by vm_compute.
  - exists true. by vm_compute.
Defined.

(** ** The order of iteration over a dict *)

Section iter_keys.
Context `{DictOrder}.

Lemma iter_keys_NoDup l d : NoDup (iter_keys l d).
Proof. rewrite iter_keys_perm. apply NoDup_fst_map_to_list. Qed.

Lemma elem_of_iter_keys l d k : k ∈ iter_keys l d ↔ k ∈ dom d.
Proof.
  rewrite iter_keys_perm, elem_of_dom, list_elem_of_fmap. split.
  - intros ([k' v] & -> & Hin%elem_of_map_to_list). by exists v.
  - intros [v Hv]. exists (k, v). split; [done|]. by apply elem_of_map_to_list.
Qed.
End iter_keys.

(** ** Copying the entries of a dict, key by key *)

Lemma copy_keys_cons k ks src dst :
  copy_keys (k :: ks) src dst
  = copy_keys ks src (match src !! k with Some v => <[k := v]> dst | None => dst end).
Proof. done. Qed.

Lemma copy_keys_lookup ks src dst k :
  copy_keys ks src dst !! k
  = if decide (k ∈ ks) then (match src !! k with Some v => Some v | None => dst !! k end)
    else dst !! k.
Proof.
  revert dst. induction ks as [|k' ks IH]; intros dst.
  { by rewrite decide_False by apply not_elem_of_nil. }
  rewrite copy_keys_cons, IH.
  destruct (decide (k' = k)) as [->|Hne].
  - rewrite (decide_True (P := k ∈ k :: ks)) by (by left).
    destruct (src !! k) as [v|] eqn:Hsrc; [|by destruct (decide _)].
    rewrite lookup_insert_eq. by destruct (decide _).
  - assert ((match src !! k' with Some v => <[k' := v]> dst | None => dst end) !! k
            = dst !! k) as Hdst.
    { destruct (src !! k'); [by rewrite lookup_insert_ne|done]. }
    rewrite Hdst. destruct (decide (k ∈ ks)) as [Hin|Hnin].
    + by rewrite (decide_True (P := k ∈ k' :: ks)) by (by right).
    + by rewrite (decide_False (P := k ∈ k' :: ks))
        by (intros [?|?]%elem_of_cons; [congruence|done]).
Qed.

Lemma copy_keys_restrict `{DictOrder} l keys src :
  copy_keys (iter_keys l keys) src ∅ = restrict_to keys src.
Proof.
  apply map_eq. intros k. rewrite copy_keys_lookup, lookup_empty. unfold restrict_to.
  destruct (decide (k ∈ iter_keys l keys)) as [Hin|Hnin].
  - rewrite elem_of_iter_keys in Hin. destruct (src !! k) as [v|] eqn:Hsrc.
    + symmetry. by apply map_lookup_filter_Some_2.
    + symmetry. apply map_lookup_filter_None. by left.
  - rewrite elem_of_iter_keys in Hnin. symmetry. apply map_lookup_filter_None.
    right. intros v _. done.
Qed.

Lemma restrict_to_all keys d : dom d ⊆ dom keys → restrict_to keys d = d.
Proof.
  intros Hdom. apply map_filter_id. intros k v Hk. apply Hdom. by eapply elem_of_dom_2.
Qed.

(** ** [result] adds dicts and changes none *)

Lemma adds_counts_refl σ : adds_counts σ σ.
Proof. split_and!; [done..|]. exists []. by rewrite app_nil_r. Qed.

Lemma adds_counts_trans σ1 σ2 σ3 :
  adds_counts σ1 σ2 → adds_counts σ2 σ3 → adds_counts σ1 σ3.
Proof.
  intros (Hs & Ht & new & Hc) (Hs' & Ht' & new' & Hc'). split_and!; [congruence..|].
  exists (new ++ new'). by rewrite Hc', Hc, app_assoc.
Qed.

Lemma collect_invariant {A B} (body : A → M B) (P : Store → Prop)
    (R : Store → Store → Prop) l σ :
  (∀ σ, R σ σ) →
  (∀ σ1 σ2 σ3, R σ1 σ2 → R σ2 σ3 → R σ1 σ3) →
  (∀ a σ, a ∈ l → P σ → P (body a σ).1 ∧ R σ (body a σ).1) →
  P σ → P (collect l body σ).1 ∧ R σ (collect l body σ).1.
Proof.
  intros Hrefl Htrans. revert σ. induction l as [|a l IH]; intros σ Hbody HP; [by split|].
  rewrite collect_cons. destruct (Hbody a σ) as [HP' HR']; [by left|done|].
  destruct (body a σ) as [σ' [e|b]]; [done|]. simpl in *.
  destruct (IH σ') as [? ?]; [|done|].
  - intros a' σ'' Ha'. apply Hbody. by right.
  - destruct (collect l body σ') as [σ'' [e|bs]]; simpl in *; split; eauto.
Qed.

Section new_counts.
Context (σ : Store).
Local Abbreviation n := (length (count_objs σ)).

Lemma with_new_counts_nil : with_new_counts [] σ = σ.
Proof. unfold with_new_counts. rewrite app_nil_r. by destruct σ. Qed.

Lemma with_new_counts_app new new' :
  with_new_counts new' (with_new_counts new σ) = with_new_counts (new ++ new') σ.
Proof. unfold with_new_counts. simpl. by rewrite app_assoc. Qed.

Lemma adds_counts_with_new_counts new : adds_counts σ (with_new_counts new σ).
Proof. split_and!; [done..|]. by exists new. Qed.

Lemma deref_new_counts new k :
  deref (count_objs σ ++ new) (n + k)%nat = deref new k.
Proof. unfold deref. rewrite lookup_app_r by lia. by replace (n + k - n)%nat with k by lia. Qed.

Lemma count_new_with_new_counts new d :
  count_new d (with_new_counts new σ)
  = (with_new_counts (new ++ [d]) σ, inr (n + length new)%nat).
Proof. unfold count_new, with_new_counts. simpl. by rewrite length_app, app_assoc. Qed.

(** Writing one of the two dicts that were created last. *)
Lemma with_count_last_but_one new a b x :
  with_count (n + length new)%nat x (with_new_counts (new ++ [a; b]) σ)
  = with_new_counts (new ++ [x; b]) σ.
Proof.
  unfold with_count, with_new_counts. simpl. f_equal.
  rewrite !app_assoc. rewrite (insert_app_r_alt (count_objs σ ++ new)) by (rewrite length_app; lia).
  rewrite length_app. by replace (n + length new - (n + length new))%nat with 0%nat by lia.
Qed.

Lemma with_count_last new a b x :
  with_count (S (n + length new))%nat x (with_new_counts (new ++ [a; b]) σ)
  = with_new_counts (new ++ [a; x]) σ.
Proof.
  unfold with_count, with_new_counts. simpl. f_equal.
  rewrite !app_assoc. rewrite (insert_app_r_alt (count_objs σ ++ new)) by (rewrite length_app; lia).
  rewrite length_app. by replace (S (n + length new) - (n + length new))%nat with 1%nat by lia.
Qed.

Lemma deref_last_but_one new a b :
  deref (count_objs σ ++ new ++ [a; b]) (n + length new)%nat = a.
Proof.
  rewrite deref_new_counts. apply deref_lookup. by apply list_lookup_middle.
Qed.

Lemma deref_last new a b :
  deref (count_objs σ ++ new ++ [a; b]) (S (n + length new))%nat = b.
Proof.
  replace (S (n + length new))%nat with (n + S (length new))%nat by lia.
  rewrite deref_new_counts. apply deref_lookup.
  rewrite (lookup_app_r new) by lia. by replace (S (length new) - length new)%nat with 1%nat by lia.
Qed.
End new_counts.

Section result.
Context `{DictOrder}.
Context (line_counter : LineCounter) (i : nat) (σ : Store) (new : list (gmap string Z)).
Local Abbreviation n := (length (count_objs σ) + length new)%nat.
Local Abbreviation entry := (LineCounterAnnotator.result_entry line_counter i n (S n)).

(** Whatever it finds, an iteration writes to the two new dicts only. *)
Lemma result_entry_shape a b id :
  ∃ a' b', (entry id (with_new_counts (new ++ [a; b]) σ)).1
           = with_new_counts (new ++ [a'; b']) σ.
Proof.
  unfold LineCounterAnnotator.result_entry. run_M.
  destruct (in_count_dict_batch line_counter !! i) as [li|]; run_M; [|by eexists _, _].
  destruct (deref _ li !! id) as [va|]; run_M; [|by eexists _, _].
  rewrite with_count_last_but_one.
  destruct (out_count_dict_batch line_counter !! i) as [lo|]; run_M; [|by eexists _, _].
  destruct (deref _ lo !! id) as [vb|]; run_M; [|by eexists _, _].
  rewrite with_count_last. by eexists _, _.
Qed.

Lemma result_entries_shape ks a b :
  ∃ a' b', (for_ ks entry (with_new_counts (new ++ [a; b]) σ)).1
           = with_new_counts (new ++ [a'; b']) σ.
Proof.
  revert a b. induction ks as [|k ks IH]; intros a b; [by eexists _, _|].
  rewrite for_cons. destruct (result_entry_shape a b k) as (a' & b' & Heq).
  destruct (entry k _) as [σ' [e|[]]]; simpl in *; [by eexists _, _|].
  rewrite Heq. apply IH.
Qed.

Lemma result_line_shape :
  ∃ a b, (LineCounterAnnotator.result_line line_counter i (with_new_counts new σ)).1
         = with_new_counts (new ++ [a; b]) σ.
Proof.
  unfold LineCounterAnnotator.result_line.
  unfold mbind at 1, M_bind at 1. rewrite count_new_with_new_counts.
  unfold mbind at 1, M_bind at 1. rewrite count_new_with_new_counts.
  rewrite length_app, <-app_assoc. simpl.
  replace (length (count_objs σ) + (length new + 1))%nat with (S n) by lia.
  run_M. destruct (in_count_dict_batch line_counter !! i) as [li|]; run_M; [|by eexists _, _].
  destruct (result_entries_shape
              (iter_keys li (deref (count_objs σ ++ new ++ [∅; ∅]) li)) ∅ ∅) as (a & b & Heq).
  destruct (for_ _ _ _) as [σ' [e|[]]]; simpl in *; by eexists _, _.
Qed.
End result.

(** ** [result] on a line that has its two count dicts *)

Section result_line.
Context `{DictOrder}.
Context (line_counter : LineCounter) (i : nat) (σ : Store) (new : list (gmap string Z)).
Context (li lo : loc).
Hypothesis Hli : in_count_dict_batch line_counter !! i = Some li.
Hypothesis Hlo : out_count_dict_batch line_counter !! i = Some lo.
Hypothesis Hlive_in : (li < length (count_objs σ))%nat.
Hypothesis Hlive_out : (lo < length (count_objs σ))%nat.
Local Abbreviation n := (length (count_objs σ) + length new)%nat.
Local Abbreviation entry := (LineCounterAnnotator.result_entry line_counter i n (S n)).
Local Abbreviation di := (deref (count_objs σ) li).
Local Abbreviation do := (deref (count_objs σ) lo).

Lemma result_entry_ok a b id va vb :
  di !! id = Some va → do !! id = Some vb →
  entry id (with_new_counts (new ++ [a; b]) σ)
  = (with_new_counts (new ++ [<[id := va]> a; <[id := vb]> b]) σ, inr ()).
Proof.
  intros Hva Hvb. unfold LineCounterAnnotator.result_entry. run_M. run_M with Hli.
  rewrite (deref_app_l (count_objs σ) _ li Hlive_in). run_M with Hva.
  rewrite (deref_last_but_one σ new a b), with_count_last_but_one. run_M with Hlo.
  rewrite (deref_app_l (count_objs σ) _ lo Hlive_out). run_M with Hvb.
  by rewrite (deref_last σ new _ b), with_count_last.
Qed.

Lemma result_entry_fail a b id va :
  di !! id = Some va → do !! id = None →
  entry id (with_new_counts (new ++ [a; b]) σ)
  = (with_new_counts (new ++ [<[id := va]> a; b]) σ, inl (KeyError (KStr id))).
Proof.
  intros Hva Hvb. unfold LineCounterAnnotator.result_entry. run_M. run_M with Hli.
  rewrite (deref_app_l (count_objs σ) _ li Hlive_in). run_M with Hva.
  rewrite (deref_last_but_one σ new a b), with_count_last_but_one. run_M with Hlo.
  rewrite (deref_app_l (count_objs σ) _ lo Hlive_out). by run_M with Hvb.
Qed.

(** The loop copies the entries of the keys it visits, as long as the out
    dict has them. *)
Lemma result_entries_ok ks a b :
  (∀ k, k ∈ ks → k ∈ dom di ∧ k ∈ dom do) →
  for_ ks entry (with_new_counts (new ++ [a; b]) σ)
  = (with_new_counts (new ++ [copy_keys ks di a; copy_keys ks do b]) σ, inr ()).
Proof.
  revert a b. induction ks as [|k ks IH]; intros a b Hks; [done|].
  destruct (Hks k) as [[va Hva]%elem_of_dom [vb Hvb]%elem_of_dom]; [by left|].
  rewrite for_cons, (result_entry_ok a b k va vb) by done.
  rewrite IH by (intros k' Hk'; apply Hks; by right).
  by rewrite !copy_keys_cons, Hva, Hvb.
Qed.

(** It raises [KeyError] at the first key that the out dict lacks. *)
Lemma result_entries_fail ks a b :
  (∀ k, k ∈ ks → k ∈ dom di) →
  (∃ k, k ∈ ks ∧ k ∉ dom do) →
  ∃ name a' b', name ∈ ks ∧ (name ∉ dom do)
    ∧ for_ ks entry (with_new_counts (new ++ [a; b]) σ)
      = (with_new_counts (new ++ [a'; b']) σ, inl (KeyError (KStr name))).
Proof.
  revert a b. induction ks as [|k ks IH]; intros a b Hks (k0 & Hk0 & Hout).
  { by apply elem_of_nil in Hk0. }
  pose proof (Hks k ltac:(by left)) as [va Hva]%elem_of_dom.
  rewrite for_cons. destruct (do !! k) as [vb|] eqn:Hvb.
  - rewrite (result_entry_ok a b k va vb) by done.
    destruct (IH (<[k := va]> a) (<[k := vb]> b)) as (name & a' & b' & Hin & Hname & ->).
    + intros k' Hk'. apply Hks. by right.
    + exists k0. split; [|done]. apply elem_of_cons in Hk0 as [->|?]; [|done].
      destruct Hout. by eapply elem_of_dom_2.
    + exists name, a', b'. split_and!; [by right|done..].
  - rewrite (result_entry_fail a b k va) by done.
    exists k, (<[k := va]> a), b. split_and!; [by left|by apply not_elem_of_dom|done].
Qed.

Lemma result_line_ok :
  dom di ⊆ dom do →
  LineCounterAnnotator.result_line line_counter i (with_new_counts new σ)
  = (with_new_counts (new ++ [di; restrict_to di do]) σ, inr (n, S n)).
Proof.
  intros Hdom. unfold LineCounterAnnotator.result_line.
  unfold mbind at 1, M_bind at 1. rewrite count_new_with_new_counts.
  unfold mbind at 1, M_bind at 1. rewrite count_new_with_new_counts.
  rewrite length_app, <-app_assoc. simpl app. simpl length.
  replace (length (count_objs σ) + (length new + 1))%nat with (S n) by lia.
  run_M. run_M with Hli.
  rewrite (deref_app_l (count_objs σ) _ li Hlive_in).
  rewrite result_entries_ok.
  - rewrite !copy_keys_restrict. by rewrite (restrict_to_all di di).
  - intros k Hk%elem_of_iter_keys. split; [done|by apply Hdom].
Qed.

Lemma result_line_fail :
  ¬ (dom di ⊆ dom do) →
  ∃ name a b, name ∈ dom di ∧ (name ∉ dom do)
    ∧ LineCounterAnnotator.result_line line_counter i (with_new_counts new σ)
      = (with_new_counts (new ++ [a; b]) σ, inl (KeyError (KStr name))).
Proof.
  intros Hdom. unfold LineCounterAnnotator.result_line.
  unfold mbind at 1, M_bind at 1. rewrite count_new_with_new_counts.
  unfold mbind at 1, M_bind at 1. rewrite count_new_with_new_counts.
  rewrite length_app, <-app_assoc. simpl app. simpl length.
  replace (length (count_objs σ) + (length new + 1))%nat with (S n) by lia.
  run_M. run_M with Hli.
  rewrite (deref_app_l (count_objs σ) _ li Hlive_in).
  destruct (result_entries_fail (iter_keys li di) ∅ ∅) as (name & a & b & Hin & Hout & ->).
  - by intros k Hk%elem_of_iter_keys.
  - apply (not_set_Forall_Exists (λ k, k ∈ dom do)) in Hdom as (k & ? & ?).
    exists k. split; [by apply elem_of_iter_keys|done].
  - exists name, a, b. by rewrite elem_of_iter_keys in Hin.
Qed.
End result_line.

(** ** [result] over all lines *)

Section result_all.
Context `{DictOrder}.
Context (line_counter : LineCounter) (σ : Store).
Local Abbreviation line := (LineCounterAnnotator.result_line line_counter).

(** The lines [k], ..., [k + m - 1], each with its two dicts and with an
    out count for every name of an in count. *)
Lemma collect_result_ok k m new :
  (∀ i, (k ≤ i < k + m)%nat → has_counts line_counter σ i) →
  (∀ i di do, (k ≤ i < k + m)%nat →
     in_of line_counter σ i = Some di → out_of line_counter σ i = Some do →
     dom di ⊆ dom do) →
  ∃ new' result_batch,
    collect (seq k m) line (with_new_counts new σ)
    = (with_new_counts (new ++ new') σ, inr result_batch)
    ∧ length result_batch = m
    ∧ ∀ j, (j < m)%nat →
        ∃ di do (p : loc * loc), in_of line_counter σ (k + j) = Some di
          ∧ out_of line_counter σ (k + j) = Some do
          ∧ result_batch !! j = Some p
          ∧ (length (count_objs σ) ≤ p.1)%nat ∧ (length (count_objs σ) ≤ p.2)%nat
          ∧ deref (count_objs σ ++ new ++ new') p.1 = di
          ∧ deref (count_objs σ ++ new ++ new') p.2 = restrict_to di do.
Proof.
  revert k new. induction m as [|m IH]; intros k new Hhas Hdom.
  { exists [], []. rewrite app_nil_r. split_and!; [done..|]. intros j Hj. lia. }
  destruct (Hhas k) as (li & lo & Hli & Hlo & Hlive_in & Hlive_out); [lia|].
  assert (in_of line_counter σ k = Some (deref (count_objs σ) li)) as Hin.
  { unfold in_of. by rewrite Hli. }
  assert (out_of line_counter σ k = Some (deref (count_objs σ) lo)) as Hout.
  { unfold out_of. by rewrite Hlo. }
  assert (dom (deref (count_objs σ) li) ⊆ dom (deref (count_objs σ) lo)) as Hsub.
  { apply (Hdom k); [lia|done..]. }
  simpl seq. rewrite collect_cons.
  rewrite (result_line_ok line_counter k σ new li lo) by done.
  set (di := deref (count_objs σ) li). set (do := restrict_to di (deref (count_objs σ) lo)).
  destruct (IH (S k) (new ++ [di; do])) as (new' & rb & -> & Hlen & Hrb).
  { intros i Hi. apply Hhas. lia. }
  { intros i di' do' Hi. apply Hdom. lia. }
  exists ([di; do] ++ new'), ((length (count_objs σ) + length new,
                               S (length (count_objs σ) + length new)) :: rb)%nat.
  rewrite <-(app_assoc new). split_and!; [done|simpl; by rewrite Hlen|].
  intros [|j] Hj.
  - exists di, (deref (count_objs σ) lo), (length (count_objs σ) + length new,
                                          S (length (count_objs σ) + length new))%nat.
    rewrite Nat.add_0_r. split_and!; [done|done|done|simpl; lia|simpl; lia| |].
    + simpl fst. rewrite app_assoc, <-(length_app (count_objs σ) new).
      apply deref_lookup. by apply list_lookup_middle.
    + simpl snd. rewrite app_assoc, <-(length_app (count_objs σ) new).
      apply deref_lookup. rewrite lookup_app_r by lia.
      by replace (S (length (count_objs σ ++ new)) - length (count_objs σ ++ new))%nat
        with 1%nat by lia.
  - destruct (Hrb j) as (di' & do' & p & Hin' & Hout' & Hp & ? & ? & Hdi & Hdo); [lia|].
    exists di', do', p. replace (k + S j)%nat with (S k + j)%nat by lia.
    rewrite <-(app_assoc new) in Hdi, Hdo. by split_and!.
Qed.

(** A line without an out count for a name of an in count stops it. *)
Lemma collect_result_fail k m new :
  (∀ i, (k ≤ i < k + m)%nat → has_counts line_counter σ i) →
  (∃ i di do, (k ≤ i < k + m)%nat
     ∧ in_of line_counter σ i = Some di ∧ out_of line_counter σ i = Some do
     ∧ ¬ (dom di ⊆ dom do)) →
  ∃ i di do name, (k ≤ i < k + m)%nat
    ∧ in_of line_counter σ i = Some di ∧ out_of line_counter σ i = Some do
    ∧ name ∈ dom di ∧ (name ∉ dom do)
    ∧ (collect (seq k m) line (with_new_counts new σ)).2 = inl (KeyError (KStr name)).
Proof.
  revert k new. induction m as [|m IH]; intros k new Hhas (i0 & di0 & do0 & Hi0 & Hin0 & Hout0 & Hbad).
  { lia. }
  destruct (Hhas k) as (li & lo & Hli & Hlo & Hlive_in & Hlive_out); [lia|].
  assert (in_of line_counter σ k = Some (deref (count_objs σ) li)) as Hin.
  { unfold in_of. by rewrite Hli. }
  assert (out_of line_counter σ k = Some (deref (count_objs σ) lo)) as Hout.
  { unfold out_of. by rewrite Hlo. }
  simpl seq. rewrite collect_cons.
  destruct (decide (dom (deref (count_objs σ) li) ⊆ dom (deref (count_objs σ) lo)))
    as [Hdom|Hdom].
  - rewrite (result_line_ok line_counter k σ new li lo) by done.
    destruct (IH (S k) (new ++ [deref (count_objs σ) li;
                                 restrict_to (deref (count_objs σ) li)
                                   (deref (count_objs σ) lo)]))
      as (i & di & do & name & Hi & ? & ? & ? & ? & Herr).
    + intros i Hi. apply Hhas. lia.
    + exists i0, di0, do0.
      assert (i0 ≠ k) as Hne; [|split_and!; [lia|lia|done..]].
      intros ->. rewrite Hin0 in Hin. rewrite Hout0 in Hout. by simplify_eq.
    + exists i, di, do, name. split_and!; [lia|lia|done|done|done|done|].
      destruct (collect _ _ _) as [σ' [e|bs]]; simpl in *; [done|done].
  - destruct (result_line_fail line_counter k σ new li lo) as (name & a & b & ? & ? & ->);
      [done..|].
    exists k, (deref (count_objs σ) li), (deref (count_objs σ) lo), name.
    split_and!; [lia|lia|done..].
Qed.
End result_all.

(** The counts of a line of a tracker that the constructor built. *)
Lemma reachable_has_counts self σ i :
  wf self σ → (i < length (vector_batch self))%nat →
  has_counts self σ i
  ∧ ∀ di do, in_of self σ i = Some di → out_of self σ i = Some do → dom di = dom do.
Proof.
  intros Hwf Hi. destruct (line_has_state _ _ Hwf i Hi) as (ls & li & lo & _ & Hli & Hlo).
  pose proof (in_batch_count_locs _ _ _ Hli) as Hin.
  pose proof (out_batch_count_locs _ _ _ Hlo) as Hout.
  split.
  - exists li, lo. split_and!; [done..|by apply (wf_count_live _ _ Hwf)|
                               by apply (wf_count_live _ _ Hwf)].
  - unfold in_of, out_of. rewrite Hli, Hlo. simpl. intros di do [= <-] [= <-].
    by apply (wf_keys _ _ Hwf).
Qed.

(** [result] hands out the counts: on a tracker that the constructor built
    it returns normally, with one pair of dicts per line, and the pair of
    line [i] holds what the in count dict and the out count dict of line [i]
    hold, for whichever order of iteration over the keys. *)
Theorem result_reports_the_counts `{Drawing} `{DictOrder}
    (annotator : LineCounterAnnotator.t) (line_counter : LineCounter) (σ : Store) :
  reachable line_counter σ →
  ∃ σ' result_batch,
    LineCounterAnnotator.result annotator line_counter σ = (σ', inr result_batch)
    ∧ length result_batch = length (vector_batch line_counter)
    ∧ ∀ i, (i < length (vector_batch line_counter))%nat →
        ∃ di do, in_of line_counter σ i = Some di
          ∧ out_of line_counter σ i = Some do
          ∧ report_of σ' result_batch i = Some (di, do).
Proof.
  intros [Hwf _]%reachable_inv. unfold LineCounterAnnotator.result.
  destruct (collect_result_ok line_counter σ 0 (length (vector_batch line_counter)) [])
    as (new & rb & Heq & Hlen & Hrb).
  { intros i Hi. apply reachable_has_counts; [done|lia]. }
  { intros i di do Hi Hdi Hdo.
    destruct (reachable_has_counts line_counter σ i Hwf) as [_ Hdom]; [lia|].
    by rewrite (Hdom di do). }
  rewrite with_new_counts_nil in Heq. rewrite Heq.
  eexists _, _. split_and!; [done..|]. intros i Hi.
  destruct (Hrb i Hi) as (di & do & p & Hdi & Hdo & Hp & _ & _ & Hin & Hout).
  exists di, do. split_and!; [done..|]. unfold report_of. rewrite Hp. simpl in *.
  rewrite Hin, Hout. do 2 f_equal. apply restrict_to_all.
  destruct (reachable_has_counts line_counter σ i Hwf Hi) as [_ Hdom].
  by rewrite (Hdom di do).
Qed.

(** Whatever the tracker and the store, and whether it returns or raises,
    [result] changes no dict that exists when it is called, neither a count
    dict nor a side map nor the crossing log: what it writes to are the
    dicts that it creates. *)
Theorem result_changes_no_dict `{Drawing} `{DictOrder}
    (annotator : LineCounterAnnotator.t) (line_counter : LineCounter) (σ : Store) :
  adds_counts σ (LineCounterAnnotator.result annotator line_counter σ).1.
Proof.
  unfold LineCounterAnnotator.result.
  enough (True ∧ adds_counts σ
            (collect (seq 0 (length (vector_batch line_counter)))
               (LineCounterAnnotator.result_line line_counter) σ).1) as [_ ?] by done.
  apply (collect_invariant _ (λ _, True) adds_counts);
    eauto using adds_counts_refl, adds_counts_trans.
  intros i σ1 _ _. split; [done|].
  destruct (result_line_shape line_counter i σ1 []) as (a & b & Heq).
  rewrite with_new_counts_nil in Heq. rewrite Heq. apply adds_counts_with_new_counts.
Qed.

(** ** [update] does not look at the dicts of a report *)

Section update_with_new_counts.
Context (self : LineCounter) (new : list (gmap string Z)).

Lemma with_count_with_new_counts σ l d :
  (l < length (count_objs σ))%nat →
  with_count l d (with_new_counts new σ) = with_new_counts new (with_count l d σ).
Proof. intros Hl. unfold with_count, with_new_counts. simpl. by rewrite insert_app_l. Qed.

Lemma line_step_with_new_counts c t id s σ :
  wf self σ →
  line_step self c t id s (with_new_counts new σ)
  = (with_new_counts new (line_step self c t id s σ).1, (line_step self c t id s σ).2).
Proof.
  intros Hwf.
  destruct (line_step_inv self σ c t id s)
    as [Hl|l Hl Hd|l Hl Hd|l b Hl Hd Hb Hlog|l b log Hl Hd Hb Hlog Hlc
       |l b log lc Hl Hd Hb Hlog Hlc Hn|l b log lc name Hl Hd Hb Hlog Hlc Hn Hv
       |l b log lc name v Hl Hd Hb Hlog Hlc Hn Hv].
  - by rewrite line_step_out_of_range.
  - by rewrite (line_step_first _ _ _ _ _ _ l).
  - by rewrite (line_step_same _ _ _ _ _ _ l).
  - by rewrite (line_step_unlogged _ _ _ _ _ _ l Hl b).
  - rewrite (line_step_flip _ _ _ _ _ _ l Hl b log) by done.
    by rewrite count_incr_no_counts.
  - rewrite (line_step_flip _ _ _ _ _ _ l Hl b log) by done.
    by rewrite (count_incr_unknown_class _ _ _ _ _ lc).
  - rewrite (line_step_flip _ _ _ _ _ _ l Hl b log) by done.
    assert (lc < length (count_objs σ))%nat as Hlive.
    { apply (wf_count_live _ _ Hwf). by eapply count_batch_count_locs. }
    rewrite (count_incr_uncounted _ _ _ _ _ lc Hlc name); [done|done|].
    simpl. by rewrite deref_app_l.
  - rewrite (line_step_flip _ _ _ _ _ _ l Hl b log) by done.
    pose proof (deref_Some_lt _ _ _ _ Hv) as Hlive.
    rewrite (count_incr_ok _ _ _ _ _ lc Hlc name v); [|done|simpl; by rewrite deref_app_l].
    simpl. rewrite deref_app_l by done. unfold with_count, with_new_counts. simpl.
    by rewrite insert_app_l.
Qed.

Lemma for_with_new_counts {A} (body : A → M unit) (P : Store → Prop) l σ :
  (∀ a σ, a ∈ l → P σ →
     P (body a σ).1
     ∧ body a (with_new_counts new σ) = (with_new_counts new (body a σ).1, (body a σ).2)) →
  P σ →
  for_ l body (with_new_counts new σ)
  = (with_new_counts new (for_ l body σ).1, (for_ l body σ).2).
Proof.
  revert σ. induction l as [|a l IH]; intros σ Hbody HP; [done|].
  rewrite !for_cons. destruct (Hbody a σ) as [HP' ->]; [by left|done|].
  destruct (body a σ) as [σ' [e|[]]]; simpl in *; [done|].
  apply IH; [|done]. intros a' σ'' Ha'. apply Hbody. by right.
Qed.

Lemma update_with_new_counts detections σ :
  wf self σ →
  update self detections (with_new_counts new σ)
  = (with_new_counts new (update self detections σ).1, (update self detections σ).2).
Proof.
  apply (for_with_new_counts _ (wf self)). intros det σ1 _ Hwf. unfold update_body.
  destruct (det_tracker_id det) as [t|]; [|done]. split; [by apply line_loop_wf|].
  apply (for_with_new_counts _ (wf self)); [|done].
  intros [id s] σ2 _ Hwf2. split; [by apply line_step_wf|by apply line_step_with_new_counts].
Qed.
End update_with_new_counts.

(** The locations of a store's own count dicts are not those of dicts added
    to it. *)
Lemma deref_new_counts_frame (h h' new : list (gmap string Z)) l :
  length h' = length h → (length h ≤ l)%nat →
  deref (h' ++ new) l = deref (h ++ new) l.
Proof. intros Hlen Hl. unfold deref. by rewrite !lookup_app_r, Hlen by lia. Qed.

(** A report is a snapshot, and taking it leaves the tracker alone.  After
    [result] has returned its report, an [update] call ends as it would have
    ended without the report, with the same side maps, counts and crossing
    log; and the dicts of the report hold after the call what they held
    before it, whatever the call has counted. *)
Theorem result_is_a_snapshot `{Drawing} `{DictOrder}
    (annotator : LineCounterAnnotator.t) (line_counter : LineCounter)
    (σ σ1 : Store) (result_batch : list (loc * loc)) (detections : list Detection) :
  reachable line_counter σ →
  LineCounterAnnotator.result annotator line_counter σ = (σ1, inr result_batch) →
  (update line_counter detections σ1).2 = (update line_counter detections σ).2
  ∧ (∀ i, line_view line_counter (update line_counter detections σ1).1 i
          = line_view line_counter (update line_counter detections σ).1 i)
  ∧ tracker_line (update line_counter detections σ1).1
    = tracker_line (update line_counter detections σ).1
  ∧ ∀ i, report_of (update line_counter detections σ1).1 result_batch i
         = report_of σ1 result_batch i.
Proof.
  intros Hinv%reachable_inv. pose proof Hinv as [Hwf _].
  unfold LineCounterAnnotator.result.
  destruct (collect_result_ok line_counter σ 0 (length (vector_batch line_counter)) [])
    as (new & rb & Heq & Hlen & Hrb).
  { intros i Hi. apply reachable_has_counts; [done|lia]. }
  { intros i di do Hi Hdi Hdo.
    destruct (reachable_has_counts line_counter σ i Hwf) as [_ Hdom]; [lia|].
    by rewrite (Hdom di do). }
  rewrite with_new_counts_nil in Heq. rewrite Heq. simpl app. intros [= <- <-].
  rewrite (update_with_new_counts line_counter new detections σ Hwf).
  destruct (update_inv line_counter detections σ Hinv) as [[Hwf' _] Hev].
  set (σ' := (update line_counter detections σ).1) in *.
  split_and!; [done| |done|].
  - intros i. unfold line_view, side_of, in_of, out_of. simpl. f_equal; [f_equal|].
    + destruct (in_count_dict_batch line_counter !! i) as [l|] eqn:Hl; [|done]. simpl.
      rewrite deref_app_l; [done|].
      apply (wf_count_live _ _ Hwf'). by eapply in_batch_count_locs.
    + destruct (out_count_dict_batch line_counter !! i) as [l|] eqn:Hl; [|done]. simpl.
      rewrite deref_app_l; [done|].
      apply (wf_count_live _ _ Hwf'). by eapply out_batch_count_locs.
  - intros i. unfold report_of. destruct (rb !! i) as [p|] eqn:Hp; [|done]. simpl.
    assert (i < length (vector_batch line_counter))%nat as Hi.
    { rewrite <-Hlen. by eapply lookup_lt_Some. }
    destruct (Hrb i Hi) as (_ & _ & p' & _ & _ & Hp' & Hin & Hout & _).
    simplify_eq.
    by rewrite !(deref_new_counts_frame (count_objs σ) (count_objs σ') new)
      by (try done; apply (ev_count_len _ _ Hev)).
Qed.

(** ** Drawing *)

(** [run_D] unfolds the drawing computations. *)
Ltac run_D :=
  repeat progress
    (unfold mbind, Draw_bind, mret, Draw_ret, item, item_str, draw; simpl).

Section annotate.
Context `{Drawing} `{DictOrder}.
Context (self : LineCounterAnnotator.t) (line_counter : LineCounter) (σ : Store).
Local Abbreviation line := (LineCounterAnnotator.annotate_line self line_counter σ).

Lemma fold_for_cons {A B} (body : B → A → Draw B) a l acc frame :
  fold_for (a :: l) body acc frame =
    match body acc a frame with
    | (frame', inr acc') => fold_for l body acc' frame'
    | (frame', inl e) => (frame', inl e)
    end.
Proof. done. Qed.

Lemma fold_for_app {A B} (body : B → A → Draw B) l1 l2 acc frame :
  fold_for (l1 ++ l2) body acc frame =
    match fold_for l1 body acc frame with
    | (frame', inr acc') => fold_for l2 body acc' frame'
    | (frame', inl e) => (frame', inl e)
    end.
Proof.
  revert acc frame. induction l1 as [|a l1 IH]; intros acc frame; [done|].
  rewrite <-app_comm_cons, !fold_for_cons.
  destruct (body acc a frame) as [frame' [e|acc']]; [done|]. apply IH.
Qed.

(** A label is made of the keys of a dict and of their values: building
    it raises nothing once the dict is found, and draws nothing. *)
Lemma label_entries (batch : list loc) i (l : loc) ks head frame :
  batch !! i = Some l →
  (∀ k, k ∈ ks → k ∈ dom (deref (count_objs σ) l)) →
  ∃ text,
    fold_for ks
      (λ text_result id,
         l' ← item batch i;
         n ← item_str (deref (count_objs σ) l') id;
         mret (text_result +:+ id +:+ " : " +:+ pretty n +:+ " ")) head frame
    = (frame, inr text).
Proof.
  intros Hl Hks.
  set (body := λ text_result id,
         l' ← item batch i;
         n ← item_str (deref (count_objs σ) l') id;
         mret (text_result +:+ id +:+ " : " +:+ pretty n +:+ " ")).
  assert (∀ text_result id v, deref (count_objs σ) l !! id = Some v →
    body text_result id frame
    = (frame, inr (text_result +:+ id +:+ " : " +:+ pretty v +:+ " "))) as Hbody.
  { intros text_result id v Hv. unfold body. run_D. by rewrite Hl, Hv. }
  clearbody body. revert head. induction ks as [|k ks IH]; intros head; [by eexists|].
  pose proof (Hks k ltac:(by left)) as [v Hv]%elem_of_dom.
  rewrite fold_for_cons, (Hbody head k v Hv). apply IH. intros k' Hk'. apply Hks. by right.
Qed.

Lemma label_ok (batch : list loc) i (l : loc) head frame :
  batch !! i = Some l →
  ∃ text, LineCounterAnnotator.label σ batch i head frame = (frame, inr text).
Proof.
  intros Hl. unfold LineCounterAnnotator.label.
  unfold mbind at 1, Draw_bind at 1, item at 1. rewrite Hl.
  apply (label_entries batch i l); [done|]. by intros k Hk%elem_of_iter_keys.
Qed.

Lemma label_fail (batch : list loc) i head frame :
  batch !! i = None →
  LineCounterAnnotator.label σ batch i head frame = (frame, inl IndexError).
Proof.
  intros Hl. unfold LineCounterAnnotator.label.
  unfold mbind at 1, Draw_bind at 1, item at 1. by rewrite Hl.
Qed.

(** An iteration for which the annotator has no colour raises [IndexError]
    before it draws. *)
Lemma annotate_line_no_colour i frame :
  LineCounterAnnotator.color_batch self !! i = None →
  line i frame = (frame, inl IndexError).
Proof.
  intros Hc. unfold LineCounterAnnotator.annotate_line. run_D.
  destruct (vector_batch line_counter !! i); [|done]. by rewrite Hc.
Qed.

(** An iteration raises nothing but [IndexError]. *)
Lemma annotate_line_raises i frame e :
  (line i frame).2 = inl e → e = IndexError.
Proof.
  unfold LineCounterAnnotator.annotate_line. run_D.
  destruct (vector_batch line_counter !! i) as [v|] eqn:Hv; [|by intros [= <-]].
  destruct (LineCounterAnnotator.color_batch self !! i) as [c|] eqn:Hc; [|by intros [= <-]].
  destruct (in_count_dict_batch line_counter !! i) as [li|] eqn:Hli;
    [|rewrite label_fail by done; by intros [= <-]].
  match goal with
  | |- context [LineCounterAnnotator.label σ ?b i ?h ?f] =>
      destruct (label_ok b i li h f Hli) as [in_text ->]
  end.
  destruct (out_count_dict_batch line_counter !! i) as [lo|] eqn:Hlo;
    [|rewrite label_fail by done; by intros [= <-]].
  match goal with
  | |- context [LineCounterAnnotator.label σ ?b i ?h ?f] =>
      destruct (label_ok b i lo h f Hlo) as [out_text ->]
  end.
  destruct (cv2_getTextSize in_text _ _) as [[in_w in_h] ?].
  destruct (cv2_getTextSize out_text _ _) as [[out_w out_h] ?].
  done.
Qed.

(** An iteration for a line that has its vector, its colour and its two
    count dicts returns. *)
Lemma annotate_line_ok i frame :
  is_Some (vector_batch line_counter !! i) →
  is_Some (LineCounterAnnotator.color_batch self !! i) →
  is_Some (in_count_dict_batch line_counter !! i) →
  is_Some (out_count_dict_batch line_counter !! i) →
  (line i frame).2 = inr ().
Proof.
  intros [v Hv] [c Hc] [li Hli] [lo Hlo].
  unfold LineCounterAnnotator.annotate_line. run_D. rewrite Hv, Hc.
  match goal with
  | |- context [LineCounterAnnotator.label σ ?b i ?h ?f] =>
      destruct (label_ok b i li h f Hli) as [in_text ->]
  end.
  match goal with
  | |- context [LineCounterAnnotator.label σ ?b i ?h ?f] =>
      destruct (label_ok b i lo h f Hlo) as [out_text ->]
  end.
  destruct (cv2_getTextSize in_text _ _) as [[in_w in_h] ?].
  destruct (cv2_getTextSize out_text _ _) as [[out_w out_h] ?].
  done.
Qed.

(** The loop stops at the first line for which the annotator has no
    colour. *)
Lemma annotate_lines_raise k m frame :
  (∀ i, (i < k)%nat → is_Some (LineCounterAnnotator.color_batch self !! i)) →
  LineCounterAnnotator.color_batch self !! k = None →
  fold_for (seq 0 (S k + m)) (λ _ i, line i) () frame
  = ((annotate_lines self line_counter σ k frame).1, inl IndexError).
Proof.
  intros Hk Hnone. unfold annotate_lines.
  replace (S k + m)%nat with (k + S m)%nat by lia.
  rewrite seq_app, fold_for_app. simpl seq.
  destruct (fold_for (seq 0 k) _ () frame) as [frame' [e|[]]] eqn:Hfold.
  - simpl. f_equal. f_equal.
    assert (∀ l frame0, (fold_for l (λ _ i, line i) () frame0).2 = inl e → e = IndexError)
      as Hraise; [|apply (Hraise (seq 0 k) frame); by rewrite Hfold].
    induction l as [|i l IH]; intros frame0; [done|]. rewrite fold_for_cons.
    pose proof (annotate_line_raises i frame0) as Hline.
    destruct (line i frame0) as [frame1 [e'|[]]]; simpl in *; [|apply IH].
    intros [= <-]. by apply Hline.
  - rewrite fold_for_cons, annotate_line_no_colour by done. done.
Qed.

Lemma annotate_lines_ok k frame :
  (∀ i, (i < k)%nat →
     is_Some (vector_batch line_counter !! i)
     ∧ is_Some (LineCounterAnnotator.color_batch self !! i)
     ∧ is_Some (in_count_dict_batch line_counter !! i)
     ∧ is_Some (out_count_dict_batch line_counter !! i)) →
  (fold_for (seq 0 k) (λ _ i, line i) () frame).2 = inr ().
Proof.
  intros Hk.
  assert (∀ l frame0, (∀ i, i ∈ l → (i < k)%nat) →
    (fold_for l (λ _ i, line i) () frame0).2 = inr ()) as Hfold.
  { induction l as [|i l IH]; intros frame0 Hl; [done|]. rewrite fold_for_cons.
    destruct (Hk i) as (? & ? & ? & ?); [apply Hl; by left|].
    pose proof (annotate_line_ok i frame0) as Hline.
    destruct (line i frame0) as [frame1 [e|[]]]; simpl in *; [by destruct Hline|].
    apply IH. intros i' Hi'. apply Hl. by right. }
  apply Hfold. intros i Hi%elem_of_seq. lia.
Qed.
End annotate.

(** ** The further properties of the annotator *)

(** The state of the scenario after car 7 has crossed line 0. *)
Lemma ex_reachable2 : reachable ex_self (update ex_self [ex_det 2 7 (-5)] ex_store1).1.
Proof. apply reachable_update, ex_reachable1. Qed.

Lemma result_reports_the_counts_witness :
  ∃ σ' result_batch,
    @LineCounterAnnotator.result ex_drawing map_order ex_annotator ex_self
      (update ex_self [ex_det 2 7 (-5)] ex_store1).1 = (σ', inr result_batch)
    ∧ length result_batch = length (vector_batch ex_self)
    ∧ ∀ i, (i < length (vector_batch ex_self))%nat →
        ∃ di do, in_of ex_self (update ex_self [ex_det 2 7 (-5)] ex_store1).1 i = Some di
          ∧ out_of ex_self (update ex_self [ex_det 2 7 (-5)] ex_store1).1 i = Some do
          ∧ report_of σ' result_batch i = Some (di, do).
Proof.
  apply (@result_reports_the_counts ex_drawing map_order ex_annotator ex_self
           (update ex_self [ex_det 2 7 (-5)] ex_store1).1).
  apply ex_reachable2.
Defined.

Lemma result_is_a_snapshot_witness :
  (update ex_self [ex_det 2 7 (-5)]
     (@LineCounterAnnotator.result ex_drawing map_order ex_annotator ex_self ex_store1).1).2
  = (update ex_self [ex_det 2 7 (-5)] ex_store1).2
  ∧ (∀ i, line_view ex_self
            (update ex_self [ex_det 2 7 (-5)]
               (@LineCounterAnnotator.result ex_drawing map_order ex_annotator ex_self
                  ex_store1).1).1 i
          = line_view ex_self (update ex_self [ex_det 2 7 (-5)] ex_store1).1 i)
  ∧ tracker_line
      (update ex_self [ex_det 2 7 (-5)]
         (@LineCounterAnnotator.result ex_drawing map_order ex_annotator ex_self
            ex_store1).1).1
    = tracker_line (update ex_self [ex_det 2 7 (-5)] ex_store1).1
  ∧ ∀ i, report_of
           (update ex_self [ex_det 2 7 (-5)]
              (@LineCounterAnnotator.result ex_drawing map_order ex_annotator ex_self
                 ex_store1).1).1 [(6, 7); (8, 9)]%nat i
         = report_of
             (@LineCounterAnnotator.result ex_drawing map_order ex_annotator ex_self
                ex_store1).1 [(6, 7); (8, 9)]%nat i.
Proof.
  apply (@result_is_a_snapshot ex_drawing map_order ex_annotator ex_self ex_store1).
  - apply ex_reachable1.
  - by vm_compute.
Defined.

(** A tracker may have a line whose out dict lacks a name of its in dict only
    if its dicts were changed from outside; [result] relies on their having
    the same names.  On a tracker whose lines have their two count dicts,
    [result] copies, for every name of the in dict of a line, the in count and
    the out count: if every out dict has the names of its in dict, it returns
    the in dict and the part of the out dict under these names, and it raises
    [KeyError] for a name that an out dict lacks otherwise. *)
Theorem result_reads_the_names_of_the_in_counts `{Drawing} `{DictOrder}
    (annotator : LineCounterAnnotator.t) (line_counter : LineCounter) (σ : Store) :
  (∀ i, (i < length (vector_batch line_counter))%nat → has_counts line_counter σ i) →
  ((∀ i di do, (i < length (vector_batch line_counter))%nat →
      in_of line_counter σ i = Some di → out_of line_counter σ i = Some do →
      dom di ⊆ dom do) →
   ∃ σ' result_batch,
     LineCounterAnnotator.result annotator line_counter σ = (σ', inr result_batch)
     ∧ ∀ i, (i < length (vector_batch line_counter))%nat →
         ∃ di do, in_of line_counter σ i = Some di
           ∧ out_of line_counter σ i = Some do
           ∧ report_of σ' result_batch i = Some (di, restrict_to di do))
  ∧ ((∃ i di do, (i < length (vector_batch line_counter))%nat
        ∧ in_of line_counter σ i = Some di ∧ out_of line_counter σ i = Some do
        ∧ ¬ (dom di ⊆ dom do)) →
     ∃ i di do name, (i < length (vector_batch line_counter))%nat
       ∧ in_of line_counter σ i = Some di ∧ out_of line_counter σ i = Some do
       ∧ name ∈ dom di ∧ (name ∉ dom do)
       ∧ (LineCounterAnnotator.result annotator line_counter σ).2
         = inl (KeyError (KStr name))).
Proof.
  intros Hhas. unfold LineCounterAnnotator.result. split.
  - intros Hdom.
    destruct (collect_result_ok line_counter σ 0 (length (vector_batch line_counter)) [])
      as (new & rb & Heq & Hlen & Hrb).
    { intros i Hi. apply Hhas. lia. }
    { intros i di do Hi. apply Hdom. lia. }
    rewrite with_new_counts_nil in Heq. rewrite Heq.
    eexists _, _. split; [done|]. intros i Hi.
    destruct (Hrb i Hi) as (di & do & p & Hdi & Hdo & Hp & _ & _ & Hin & Hout).
    exists di, do. split_and!; [done..|]. unfold report_of. rewrite Hp. simpl in *.
    by rewrite Hin, Hout.
  - intros (i & di & do & Hi & Hdi & Hdo & Hbad).
    destruct (collect_result_fail line_counter σ 0 (length (vector_batch line_counter)) [])
      as (i' & di' & do' & name & Hi' & ? & ? & ? & ? & Herr).
    { intros j Hj. apply Hhas. lia. }
    { exists i, di, do. split_and!; [lia|lia|done..]. }
    rewrite with_new_counts_nil in Herr.
    exists i', di', do', name. split_and!; [lia|done..].
Qed.

(** The out dict of line 0 has lost its counts. *)
Lemma result_reads_the_names_of_the_in_counts_witness :
  ∃ i di do name, (i < length (vector_batch ex_self))%nat
    ∧ in_of ex_self (with_count 3%nat ∅ ex_store1) i = Some di
    ∧ out_of ex_self (with_count 3%nat ∅ ex_store1) i = Some do
    ∧ name ∈ dom di ∧ (name ∉ dom do)
    ∧ (@LineCounterAnnotator.result ex_drawing map_order ex_annotator ex_self
         (with_count 3%nat ∅ ex_store1)).2
      = inl (KeyError (KStr name)).
Proof.
  apply (proj2 (@result_reads_the_names_of_the_in_counts ex_drawing map_order ex_annotator
                  ex_self (with_count 3%nat ∅ ex_store1)
                  ltac:(intros [|[|i]] Hi;
                          [exists 2%nat, 3%nat|exists 4%nat, 5%nat|simpl in Hi; lia];
                          (split_and!; [reflexivity|reflexivity|vm_compute; lia
                                        |vm_compute; lia])))).
  exists 0%nat, (zero_counts [2; 5] ex_names ∅), ∅. split_and!.
  - simpl. lia.
  - by vm_compute.
  - by vm_compute.
  - intros Hsub. assert ("car" ∈ dom (∅ : gmap string Z)) as Hin.
    { apply Hsub, elem_of_dom. exists 0. by vm_compute. }
    by rewrite dom_empty_L in Hin.
Defined.

(** [LineCounterAnnotator.__init__] gives every annotator the same four
    colours, and [annotate] draws line [i] in the colour [color_batch[i]].
    For a tracker with more than four lines [annotate] therefore raises
    [IndexError], with any tracker state and any arguments of the
    constructor; the image is then as the first four iterations of the loop
    leave it. *)
Theorem annotate_raises_beyond_four_lines `{Drawing} `{DictOrder}
    (thickness : Q) (color : Color) (text_thickness : Q) (text_color : Color)
    (text_scale text_offset : Q) (text_padding : Z)
    (line_counter : LineCounter) (σ : Store) (frame : Frame) :
  (4 < length (vector_batch line_counter))%nat →
  LineCounterAnnotator.annotate
    (LineCounterAnnotator.__init__ thickness color text_thickness text_color
       text_scale text_offset text_padding) line_counter σ frame
  = ((annotate_lines
        (LineCounterAnnotator.__init__ thickness color text_thickness text_color
           text_scale text_offset text_padding) line_counter σ 4 frame).1,
     inl IndexError).
Proof.
  intros Hlen. unfold LineCounterAnnotator.annotate.
  replace (length (vector_batch line_counter))
    with (S 4 + (length (vector_batch line_counter) - 5))%nat by lia.
  apply annotate_lines_raise; [|done].
  intros i Hi. apply lookup_lt_is_Some_2. simpl. lia.
Qed.

Lemma annotate_raises_beyond_four_lines_witness :
  @LineCounterAnnotator.annotate ex_drawing map_order ex_annotator ex_five_self ex_five_store []
  = ((@annotate_lines ex_drawing map_order ex_annotator ex_five_self ex_five_store 4 []).1,
     inl IndexError).
Proof.
  apply (@annotate_raises_beyond_four_lines ex_drawing map_order 2 (255, 255, 255) 2 (0, 0, 0)
           (1 # 2) (3 # 2) 10 ex_five_self ex_five_store []).
  simpl. lia.
Defined.

(** For a tracker that the constructor built with at most four lines,
    [annotate] returns normally, in every state of the tracker. *)
Theorem annotate_returns_up_to_four_lines `{Drawing} `{DictOrder}
    (thickness : Q) (color : Color) (text_thickness : Q) (text_color : Color)
    (text_scale text_offset : Q) (text_padding : Z)
    (line_counter : LineCounter) (σ : Store) (frame : Frame) :
  reachable line_counter σ →
  (length (vector_batch line_counter) ≤ 4)%nat →
  (LineCounterAnnotator.annotate
     (LineCounterAnnotator.__init__ thickness color text_thickness text_color
        text_scale text_offset text_padding) line_counter σ frame).2 = inr ().
Proof.
  intros [Hwf _]%reachable_inv Hlen. unfold LineCounterAnnotator.annotate.
  apply annotate_lines_ok. intros i Hi.
  destruct (line_has_state _ _ Hwf i Hi) as (ls & li & lo & _ & Hli & Hlo).
  split_and!; [by apply lookup_lt_is_Some_2|apply lookup_lt_is_Some_2; simpl; lia|
               by exists li|by exists lo].
Qed.

Lemma annotate_returns_up_to_four_lines_witness :
  (@LineCounterAnnotator.annotate ex_drawing map_order ex_annotator ex_self
     (update ex_self [ex_det 2 7 (-5)] ex_store1).1 []).2 = inr ().
Proof.
  apply (@annotate_returns_up_to_four_lines ex_drawing map_order 2 (255, 255, 255) 2 (0, 0, 0)
           (1 # 2) (3 # 2) 10 ex_self (update ex_self [ex_det 2 7 (-5)] ex_store1).1 []).
  - apply ex_reachable2.
  - simpl. lia.
Defined.

(** ** A flip at which [update] raises *)

Lemma is_flip_recorded self σ tracker_id id s d :
  side_of self σ id = Some d → d !! tracker_id = Some s →
  is_flip self σ tracker_id id s = false.
Proof.
  intros Hd Hs. unfold is_flip. rewrite Hd, Hs. apply bool_decide_eq_false_2.
  intros Hne. by apply Hne.
Qed.

Section raised_flip.
Context (self : LineCounter) (c tracker_id : Z).
Local Abbreviation loop := (line_loop self c tracker_id).
Local Abbreviation step := (line_step self c tracker_id).

(** A step that raises has found a flip, has recorded the new side, and has
    changed no count. *)
Lemma line_step_raise_state σ id s e :
  wf self σ → (id < length (vector_batch self))%nat →
  (step id s σ).2 = inl e →
  is_flip self σ tracker_id id s = true
  ∧ count_objs (step id s σ).1 = count_objs σ
  ∧ ∃ d, side_of self (step id s σ).1 id = Some d ∧ d !! tracker_id = Some s.
Proof.
  intros Hwf Hid Herr.
  assert (∀ l : loc, tracker_state_batch self !! id = Some l →
            (l < length (side_objs σ))%nat) as Hlive.
  { intros l Hl. apply (wf_side_live _ _ Hwf). by eapply list_elem_of_lookup_2. }
  destruct (line_step_inv self σ c tracker_id id s)
    as [Hl|l Hl Hd|l Hl Hd|l b Hl Hd Hb Hlog|l b log Hl Hd Hb Hlog Hlc
       |l b log lc Hl Hd Hb Hlog Hlc Hn|l b log lc name Hl Hd Hb Hlog Hlc Hn Hv
       |l b log lc name v Hl Hd Hb Hlog Hlc Hn Hv]; simplify_eq.
  - by destruct (wf_side_batch_Some self σ id).
  - by destruct (wf_logged_lookup self tracker_id σ id l b).
  - by destruct (wf_count_batch_Some self σ id s).
  - split_and!; [|done|].
    + rewrite (is_flip_Some _ _ _ _ _ l b) by done. by apply bool_decide_eq_true_2.
    + eexists. split; [apply (side_of_with_side self id l σ); auto|]. apply lookup_insert_eq.
  - split_and!; [|done|].
    + rewrite (is_flip_Some _ _ _ _ _ l b) by done. by apply bool_decide_eq_true_2.
    + eexists. split; [apply (side_of_with_side self id l σ); auto|]. apply lookup_insert_eq.
Qed.

(** A step that returns has found no flip and changed no count, or it has
    counted for a class that every line counts. *)
Lemma line_step_ok_cases σ id s :
  wf self σ →
  (step id s σ).2 = inr () →
  (is_flip self σ tracker_id id s = false ∧ count_objs (step id s σ).1 = count_objs σ)
  ∨ counted self σ c.
Proof.
  intros Hwf Hok.
  destruct (line_step_inv self σ c tracker_id id s)
    as [Hl|l Hl Hd|l Hl Hd|l b Hl Hd Hb Hlog|l b log Hl Hd Hb Hlog Hlc
       |l b log lc Hl Hd Hb Hlog Hlc Hn|l b log lc name Hl Hd Hb Hlog Hlc Hn Hv
       |l b log lc name v Hl Hd Hb Hlog Hlc Hn Hv]; simplify_eq.
  - left. split; [|done]. unfold is_flip, side_of. rewrite Hl. simpl. by rewrite Hd.
  - left. split; [|done]. rewrite (is_flip_Some _ _ _ _ _ l s) by done.
    apply bool_decide_eq_false_2. intros Hne. by apply Hne.
  - right. exists name. split; [done|]. intros l' Hl'.
    rewrite (wf_keys _ _ Hwf l' lc); [by eapply elem_of_dom_2|done|].
    by eapply count_batch_count_locs.
Qed.

(** A loop that raises has raised at the first flip of the identity, has
    recorded the side beyond it, and has changed no count. *)
Lemma line_loop_raise_consumes ts σ e :
  wf self σ → NoDup (ts.*1) →
  (∀ id s, (id, s) ∈ ts → (id < length (vector_batch self))%nat) →
  (loop ts σ).2 = inl e →
  count_objs (loop ts σ).1 = count_objs σ
  ∧ ∃ i rest, crossed self tracker_id σ ts = i :: rest
      ∧ crossed self tracker_id (loop ts σ).1 ts = rest.
Proof.
  revert σ. induction ts as [|[id s] ts IH]; intros σ Hwf Hnd Hts; [done|].
  apply NoDup_cons in Hnd as [Hid Hnd].
  assert (id < length (vector_batch self))%nat as Hlt by (apply (Hts id s); by left).
  assert (∀ id' s', (id', s') ∈ ts → id' ≠ id) as Hne.
  { intros id' s' Hin ->. apply Hid. apply list_elem_of_fmap. by exists (id, s'). }
  assert (∀ σ0, wf self σ0 → ∀ id' s', (id', s') ∈ ts →
            side_of self (step id s σ0).1 id' = side_of self σ0 id') as Hframe.
  { intros σ0 Hwf0 id' s' Hin. apply line_step_side_of_ne; [done|]. by eapply Hne. }
  unfold line_loop. rewrite for_cons. fold (loop ts). rewrite !crossed_cons.
  pose proof (line_step_raise_state σ id s) as Hraise.
  pose proof (line_step_ok_cases σ id s Hwf) as Hcases.
  pose proof (line_step_records_side self c tracker_id σ id s) as Hside.
  pose proof (line_step_wf self c tracker_id id s σ Hwf) as Hwf1.
  pose proof (line_step_evolves self c tracker_id id s σ) as Hev.
  pose proof (line_step_ok self c tracker_id σ id s Hwf Hlt) as Hok.
  specialize (Hframe σ Hwf).
  destruct (step id s σ) as [σ1 [e'|[]]] eqn:Hstep; simpl in *.
  - intros [= ->]. destruct (Hraise e Hwf Hlt eq_refl) as (-> & Hc & d & Hd & Hs).
    split; [done|]. exists id, (crossed self tracker_id σ ts). split; [done|].
    rewrite (is_flip_recorded self σ1 tracker_id id s d) by done.
    by apply crossed_frame.
  - intros Herr. destruct (Hcases eq_refl) as [[-> Hc]|Hcounted].
    + destruct (IH σ1) as (Hc' & i & rest & Hcrossed & Hrest); [done..| |done|].
      { intros id' s' Hin. apply (Hts id' s'). by right. }
      split; [congruence|]. exists i, rest. split.
      * rewrite <-Hcrossed. symmetry. by apply crossed_frame.
      * destruct (line_has_state _ _ Hwf id Hlt) as (ls & _ & _ & Hls & _ & _).
        specialize (Hside ls Hwf eq_refl Hls).
        destruct (line_loop_frame self c tracker_id ts σ1 id Hwf1 Hid) as (Hsame & _ & _).
        rewrite (is_flip_recorded self _ tracker_id id s (deref (side_objs σ1) ls));
          [done| |done].
        rewrite Hsame. unfold side_of. by rewrite Hls.
    + assert ((loop ts σ1).2 = inr ()) as Hret; [|by rewrite Herr in Hret].
      apply line_loop_ok; [done..|]. intros id' s' Hin.
      split; [apply (Hts id' s'); by right|]. intros _. by eapply counted_evolves.
Qed.
End raised_flip.

(** When [update] raises for an observation, no count has changed, and the
    line at which it raised, the first on which the identity had changed
    sides, has recorded the new side.  Of the lines [i :: rest] on which the
    observation finds the identity on the other side, the store that the call
    leaves has [rest] only: an observation given again does not find the
    crossing of line [i], which is counted nowhere. *)
Theorem raised_flip_is_lost self σ det (tracker_id : Z) e :
  reachable self σ →
  det_tracker_id det = Some tracker_id →
  (update self [det] σ).2 = inl e →
  count_objs (update self [det] σ).1 = count_objs σ
  ∧ ∃ i rest,
      crossed self tracker_id σ (enumerate (triggers_batch self det)) = i :: rest
      ∧ crossed self tracker_id (update self [det] σ).1
          (enumerate (triggers_batch self det)) = rest.
Proof.
  intros [Hwf _]%reachable_inv Htid. rewrite update_single. unfold update_body. rewrite Htid.
  apply line_loop_raise_consumes; [done|apply enumerate_NoDup|].
  intros id s Hin. by eapply elem_of_triggers.
Qed.

(** Bus 7 has been seen between the lines, at x = 5; it is then seen at
    x = 15, beyond line 1, and there is no count for buses. *)
Lemma raised_flip_is_lost_witness :
  count_objs (update ex_cars_self [ex_det 5 7 15]
                (update ex_cars_self [ex_det 5 7 5] ex_cars_store).1).1
  = count_objs (update ex_cars_self [ex_det 5 7 5] ex_cars_store).1
  ∧ ∃ i rest,
      crossed ex_cars_self 7 (update ex_cars_self [ex_det 5 7 5] ex_cars_store).1
        (enumerate (triggers_batch ex_cars_self (ex_det 5 7 15))) = i :: rest
      ∧ crossed ex_cars_self 7
          (update ex_cars_self [ex_det 5 7 15]
             (update ex_cars_self [ex_det 5 7 5] ex_cars_store).1).1
          (enumerate (triggers_batch ex_cars_self (ex_det 5 7 15))) = rest.
Proof.
  apply (raised_flip_is_lost ex_cars_self (update ex_cars_self [ex_det 5 7 5] ex_cars_store).1
           (ex_det 5 7 15) 7 (KeyError (KStr "bus"))).
  - apply reachable_update, ex_cars_reachable.
  - reflexivity.
  - by vm_compute.
Defined.

(** ** The net count of a line and the identities on its in side *)

Lemma on_in_side_insert_fresh d t (x : bool) :
  d !! t = None →
  on_in_side (<[t := x]> d) = on_in_side d + (if x then 1 else 0).
Proof.
  intros Hd. unfold on_in_side. destruct x.
  - rewrite map_filter_insert_True by done.
    rewrite map_size_insert_None by (by apply map_lookup_filter_None_2; left). lia.
  - rewrite map_filter_insert_False by done. rewrite delete_id by done. lia.
Qed.

Lemma on_in_side_insert d t (b s : bool) :
  d !! t = Some b →
  on_in_side (<[t := s]> d)
  = on_in_side d - (if b then 1 else 0) + (if s then 1 else 0).
Proof.
  intros Hd. rewrite <-(insert_delete_id d t b) at 2 by done.
  rewrite <-(insert_delete_eq d), !on_in_side_insert_fresh by apply lookup_delete_eq. lia.
Qed.

Section net.
Context (self : LineCounter) (i : nat).
Local Abbreviation balance :=
  (λ σ : Store, net_count self σ i - identities_in self σ i).

(** A step for an identity that its line has recorded, of a counted
    class: what it adds to the net count of line [i], it adds to the
    identities on the in side of line [i]. *)
Lemma line_step_balance c t id s σ :
  wf self σ → counted self σ c → (id < length (vector_batch self))%nat →
  (∀ l, tracker_state_batch self !! id = Some l → t ∈ dom (deref (side_objs σ) l)) →
  balance (line_step self c t id s σ).1 = balance σ.
Proof.
  intros Hwf Hc Hid Hseen.
  destruct (decide (id = i)) as [->|Hne].
  - destruct (line_has_state _ _ Hwf i Hid) as (ls & li & lo & Hls & Hli & Hlo).
    assert (side_of self σ i = Some (deref (side_objs σ) ls)) as Hside.
    { unfold side_of. by rewrite Hls. }
    pose proof (Hseen ls Hls) as [b Hb]%elem_of_dom.
    destruct (decide (b = s)) as [->|Hbs].
    { by rewrite (line_step_same_side self c t i s σ _ Hside). }
    destruct Hc as (name & Hname & Hin).
    pose proof (Hin li (in_batch_count_locs _ _ _ Hli)) as [a Ha]%elem_of_dom.
    pose proof (Hin lo (out_batch_count_locs _ _ _ Hlo)) as [o Ho]%elem_of_dom.
    destruct (line_step_flip_counts self c t i s σ _ Hwf Hside b name
                (deref (count_objs σ) li) (deref (count_objs σ) lo) a o)
      as (_ & Hin' & Hout'); [done..|unfold in_of; by rewrite Hli|done
                              |unfold out_of; by rewrite Hlo|done|].
    destruct (line_step_flip_state self c t i s σ _ Hwf Hside b Hb Hbs) as [Hside' _].
    unfold net_count, identities_in. rewrite Hin', Hout', Hside', Hside.
    unfold in_of, out_of. rewrite Hli, Hlo. simpl.
    rewrite (on_in_side_insert _ t b s) by done.
    destruct s, b; try done; rewrite dict_sum_incr by done; lia.
  - unfold net_count, identities_in.
    rewrite line_step_side_of_ne, line_step_in_of_ne, line_step_out_of_ne by auto. done.
Qed.
End net.

Lemma update_balance self i detections σ :
  inv self σ →
  (∀ det, det ∈ detections → det_class_id det ∈ class_id self) →
  (∀ det t, det ∈ detections → det_tracker_id det = Some t → seen_by_all self t σ) →
  net_count self (update self detections σ).1 i - identities_in self (update self detections σ).1 i
  = net_count self σ i - identities_in self σ i.
Proof.
  intros Hinv Hcls Hseen.
  pose (P := λ σ1 : Store, inv self σ1 ∧ evolves σ σ1).
  pose (R := λ σ1 σ2 : Store,
    net_count self σ2 i - identities_in self σ2 i
    = net_count self σ1 i - identities_in self σ1 i).
  enough (P (update self detections σ).1 ∧ R σ (update self detections σ).1) as [_ ?] by done.
  apply for_invariant; [done|intros σ1 σ2 σ3 H12 H23; unfold R in *; congruence|
                        |split; [done|apply evolves_refl]].
  intros det σ1 Hdet [Hinv1 Hev1]. split.
  { destruct (update_body_inv self det σ1 Hinv1) as [? Hev]. split; [done|].
    by eapply evolves_trans. }
  unfold update_body. destruct (det_tracker_id det) as [t|] eqn:Htid; [|done].
  pose (P' := λ σ2 : Store, wf self σ2 ∧ evolves σ σ2).
  enough (P' (line_loop self (det_class_id det) t (enumerate (triggers_batch self det)) σ1).1
          ∧ R σ1 (line_loop self (det_class_id det) t
                    (enumerate (triggers_batch self det)) σ1).1) as [_ ?] by done.
  apply for_invariant; [done|intros σa σb σc H12 H23; unfold R in *; congruence|
                        |split; [apply Hinv1|done]].
  intros [id s] σ2 Hin [Hwf2 Hev2]. split.
  { split; [by apply line_step_wf|]. eapply evolves_trans; [done|apply line_step_evolves]. }
  apply line_step_balance; [done| |by eapply elem_of_triggers|].
  - eapply counted_evolves; [|done]. apply (wf_classes _ _ (proj1 Hinv)). by apply Hcls.
  - intros l Hl. apply (ev_side_dom _ _ Hev2). apply (Hseen det t); [done..|].
    by eapply list_elem_of_lookup_2.
Qed.

(** What [update] adds to the net count of a line, the in counts less the
    out counts, it adds to the number of identities that the line records
    on its in side: a crossing to the in side adds one to both, a crossing
    to the out side takes one from both.  This holds for a call whose
    observations are of classes listed in [class_id] and of identities that
    the line has recorded before the call. *)
Theorem net_count_follows_the_sides self σ detections (i : nat) :
  reachable self σ →
  (∀ det, det ∈ detections → det_class_id det ∈ class_id self) →
  (∀ det t, det ∈ detections → det_tracker_id det = Some t →
     ∃ d, side_of self σ i = Some d ∧ is_Some (d !! t)) →
  net_count self (update self detections σ).1 i - net_count self σ i
  = identities_in self (update self detections σ).1 i - identities_in self σ i.
Proof.
  intros Hinv%reachable_inv Hcls Hseen.
  enough (net_count self (update self detections σ).1 i
          - identities_in self (update self detections σ).1 i
          = net_count self σ i - identities_in self σ i) by lia.
  apply update_balance; [done..|]. intros det t Hdet Htid l' Hl'.
  destruct (Hseen det t Hdet Htid) as (d & (l & Hl & ->)%side_of_Some & Hd%elem_of_dom).
  rewrite (proj2 Hinv l' l); [done..|]. by eapply list_elem_of_lookup_2.
Qed.

(** Car 7, recorded on the in side of line 0, crosses it to the out side. *)
Lemma net_count_follows_the_sides_witness :
  net_count ex_self (update ex_self [ex_det 2 7 (-5)] ex_store1).1 0
  - net_count ex_self ex_store1 0
  = identities_in ex_self (update ex_self [ex_det 2 7 (-5)] ex_store1).1 0
    - identities_in ex_self ex_store1 0.
Proof.
  apply (net_count_follows_the_sides ex_self ex_store1 [ex_det 2 7 (-5)] 0).
  - apply ex_reachable1.
  - intros det [->|Hdet]%elem_of_cons; [|by apply elem_of_nil in Hdet]. by left.
  - intros det t [->|Hdet]%elem_of_cons Htid; [|by apply elem_of_nil in Hdet].
    injection Htid as <-. exists (<[7 := true]> ∅). split; [by vm_compute|]. exists true. by vm_compute.
Defined.

(** ** What all lines have in common *)

(** Between two calls of [update], also after a call that raised, all lines
    have recorded the same identities, and all count dicts, in and out, of
    all lines, have counts for the same names: the names of the identifiers
    of [class_id].  [update] adds no name and removes none. *)
Theorem lines_share_identities_and_names self σ (i j : nat) :
  reachable self σ →
  (i < length (vector_batch self))%nat → (j < length (vector_batch self))%nat →
  ∃ si sj di do,
    side_of self σ i = Some si ∧ side_of self σ j = Some sj ∧ dom si = dom sj
    ∧ in_of self σ i = Some di ∧ out_of self σ j = Some do
    ∧ dom di = dom (zero_counts (class_id self) (class_name_dict self) ∅)
    ∧ dom do = dom (zero_counts (class_id self) (class_name_dict self) ∅).
Proof.
  intros Hreach Hi Hj. pose proof (reachable_inv _ _ Hreach) as [Hwf Halike].
  destruct (line_has_state _ _ Hwf i Hi) as (lsi & lii & loi & Hlsi & Hlii & Hloi).
  destruct (line_has_state _ _ Hwf j Hj) as (lsj & lij & loj & Hlsj & Hlij & Hloj).
  exists (deref (side_objs σ) lsi), (deref (side_objs σ) lsj),
    (deref (count_objs σ) lii), (deref (count_objs σ) loj).
  unfold side_of, in_of, out_of. rewrite Hlsi, Hlsj, Hlii, Hloj.
  split_and!; [done|done|apply Halike; by eapply list_elem_of_lookup_2|done|done| |].
  - clear Hlsi Hlsj Hloi Hlij Hloj Halike Hwf Hj.
    induction Hreach as [start end_ class_id class_name_dict σ0 σ Hinit|detections σ Hr IH].
    + apply init_inv in Hinit as (_ & _ & -> & ->).
      pose proof (init_count_locs start end_ class_id class_name_dict σ0 lii
                    (in_batch_count_locs _ _ _ Hlii)) as Hrange.
      by rewrite init_count_deref by lia.
    + destruct (update_inv self detections σ) as [_ Hev]; [by apply reachable_inv|].
      rewrite (ev_count_dom _ _ Hev). by apply IH.
  - clear Hlsi Hlsj Hloi Hlij Hlii Halike Hwf Hi.
    induction Hreach as [start end_ class_id class_name_dict σ0 σ Hinit|detections σ Hr IH].
    + apply init_inv in Hinit as (_ & _ & -> & ->).
      pose proof (init_count_locs start end_ class_id class_name_dict σ0 loj
                    (out_batch_count_locs _ _ _ Hloj)) as Hrange.
      by rewrite init_count_deref by lia.
    + destruct (update_inv self detections σ) as [_ Hev]; [by apply reachable_inv|].
      rewrite (ev_count_dom _ _ Hev). by apply IH.
Qed.

Lemma lines_share_identities_and_names_witness :
  ∃ si sj di do,
    side_of ex_self (update ex_self [ex_det 7 7 (-5)] ex_store1).1 0 = Some si
    ∧ side_of ex_self (update ex_self [ex_det 7 7 (-5)] ex_store1).1 1 = Some sj
    ∧ dom si = dom sj
    ∧ in_of ex_self (update ex_self [ex_det 7 7 (-5)] ex_store1).1 0 = Some di
    ∧ out_of ex_self (update ex_self [ex_det 7 7 (-5)] ex_store1).1 1 = Some do
    ∧ dom di = dom (zero_counts (class_id ex_self) (class_name_dict ex_self) ∅)
    ∧ dom do = dom (zero_counts (class_id ex_self) (class_name_dict ex_self) ∅).
Proof.
  apply (lines_share_identities_and_names ex_self
           (update ex_self [ex_det 7 7 (-5)] ex_store1).1 0 1).
  - apply reachable_update, ex_reachable1.
  - simpl. lia.
  - simpl. lia.
Defined.

(** Two start points and three end points: the third end point is not
    used. *)
Lemma init_returns_one_line_per_start_witness :
  length (vector_batch
            (init_self ex_start (ex_end ++ [ex_point 20 100]) [2; 5] ex_names ex_store0))
  = length ex_start
  ∧ ∀ i s, ex_start !! i = Some s →
      ∃ e, (ex_end ++ [ex_point 20 100]) !! i = Some e
        ∧ vector_batch
            (init_self ex_start (ex_end ++ [ex_point 20 100]) [2; 5] ex_names ex_store0) !! i
          = Some (Vector.mk s e).
Proof.
  apply (proj2 (init_returns_one_line_per_start ex_start (ex_end ++ [ex_point 20 100])
                  [2; 5] ex_names ex_store0) ex_store
           (init_self ex_start (ex_end ++ [ex_point 20 100]) [2; 5] ex_names ex_store0)).
  by vm_compute.
Defined.

Lemma result_changes_no_dict_witness :
  adds_counts (with_count 3%nat ∅ ex_store1)
    (@LineCounterAnnotator.result ex_drawing map_order ex_annotator ex_self
       (with_count 3%nat ∅ ex_store1)).1.
Proof.
  apply (@result_changes_no_dict ex_drawing map_order ex_annotator ex_self
           (with_count 3%nat ∅ ex_store1)).
Defined.

(** ** A call on listed classes, in closed form *)

Lemma set_side_id l t s (sides : list (gmap Z bool)) :
  deref sides l !! t = Some s → set_side l t s sides = sides.
Proof.
  intros Hd. unfold set_side. rewrite insert_id by done.
  apply list_insert_id'. intros Hl. apply lookup_lt_is_Some in Hl as [d Hl].
  by rewrite (deref_lookup _ _ _ Hl).
Qed.

Lemma set_side_lookup_ne l1 t1 l2 t2 s2 (sides : list (gmap Z bool)) :
  t1 ≠ t2 → deref (set_side l2 t2 s2 sides) l1 !! t1 = deref sides l1 !! t1.
Proof.
  intros Hne. unfold set_side. destruct (decide (l2 = l1)) as [->|Hl].
  - destruct (decide (l1 < length sides)%nat).
    + rewrite deref_insert_eq by done. by rewrite lookup_insert_ne.
    + by rewrite list_insert_ge by lia.
  - by rewrite deref_insert_ne.
Qed.

Lemma set_side_commute l1 t1 s1 l2 t2 s2 (sides : list (gmap Z bool)) :
  t1 ≠ t2 →
  set_side l1 t1 s1 (set_side l2 t2 s2 sides) = set_side l2 t2 s2 (set_side l1 t1 s1 sides).
Proof.
  intros Hne. unfold set_side. destruct (decide (l1 = l2)) as [->|Hl].
  - destruct (decide (l2 < length sides)%nat).
    + rewrite !deref_insert_eq by done. rewrite !list_insert_insert_eq.
      by rewrite insert_insert_ne.
    + by rewrite !(list_insert_ge sides) by lia.
  - rewrite !deref_insert_ne by done. by apply list_insert_insert_ne.
Qed.

Lemma alter_alter_ne {K A} `{Countable K} (f g : A → A) (i j : K) (m : gmap K A) :
  i ≠ j → alter f i (alter g j m) = alter g j (alter f i m).
Proof.
  intros Hne. apply map_eq. intros k.
  destruct (decide (k = i)) as [Hi|Hi]; destruct (decide (k = j)) as [Hj|Hj].
  - congruence.
  - subst k. by repeat (rewrite lookup_alter_eq || rewrite lookup_alter_ne by done).
  - subst k. by repeat (rewrite lookup_alter_eq || rewrite lookup_alter_ne by done).
  - by rewrite !lookup_alter_ne by done.
Qed.

Lemma add_one_commute l1 n1 l2 n2 (counts : list (gmap string Z)) :
  add_one l1 n1 (add_one l2 n2 counts) = add_one l2 n2 (add_one l1 n1 counts).
Proof.
  unfold add_one. destruct (decide (l1 = l2)) as [->|Hl].
  - destruct (decide (l2 < length counts)%nat).
    + rewrite !deref_insert_eq by done. rewrite !list_insert_insert_eq. f_equal.
      destruct (decide (n1 = n2)) as [->|Hn]; [done|]. by apply alter_alter_ne.
    + by rewrite !(list_insert_ge counts) by lia.
  - rewrite !deref_insert_ne by done. by apply list_insert_insert_ne.
Qed.

Lemma log_effect_commute c1 t1 id1 s1 f1 c2 t2 id2 s2 f2 (tl : gmap Z (list Z)) :
  t1 ≠ t2 →
  log_effect c1 t1 id1 s1 f1 (log_effect c2 t2 id2 s2 f2 tl)
  = log_effect c2 t2 id2 s2 f2 (log_effect c1 t1 id1 s1 f1 tl).
Proof.
  intros Hne. unfold log_effect.
  destruct f1 as [b1|], f2 as [b2|]; repeat case_bool_decide; try done.
  - by apply alter_alter_ne.
  - by rewrite alter_insert_ne.
  - by rewrite alter_insert_ne.
  - by apply insert_insert_ne.
Qed.

Lemma count_effect_commute l1 n1 s1 f1 l2 n2 s2 f2 (counts : list (gmap string Z)) :
  count_effect l1 n1 s1 f1 (count_effect l2 n2 s2 f2 counts)
  = count_effect l2 n2 s2 f2 (count_effect l1 n1 s1 f1 counts).
Proof.
  unfold count_effect.
  destruct f1 as [b1|], f2 as [b2|]; repeat case_bool_decide; try done.
  apply add_one_commute.
Qed.

(** Observations of two identities touch different entries of the side maps
    and of the crossing log, and the counts that they add commute. *)
Lemma step_effect_commute self c1 t1 id1 s1 c2 t2 id2 s2 σ :
  t1 ≠ t2 →
  step_effect self c1 t1 id1 s1 (step_effect self c2 t2 id2 s2 σ)
  = step_effect self c2 t2 id2 s2 (step_effect self c1 t1 id1 s1 σ).
Proof.
  intros Hne. unfold step_effect.
  destruct (tracker_state_batch self !! id1) as [l1|]; [|done].
  destruct (count_batch self s1 !! id1) as [lc1|]; [|by destruct (tracker_state_batch self !! id2)].
  destruct (class_name_dict self !! c1) as [n1|];
    [|by destruct (tracker_state_batch self !! id2), (count_batch self s2 !! id2)].
  destruct (tracker_state_batch self !! id2) as [l2|]; [|done].
  destruct (count_batch self s2 !! id2) as [lc2|]; [|done].
  destruct (class_name_dict self !! c2) as [n2|]; [|done].
  simpl. rewrite !set_side_lookup_ne by done. f_equal.
  - apply count_effect_commute.
  - by apply set_side_commute.
  - by apply log_effect_commute.
Qed.

Lemma foldl_commute {S A B} (f : S → A → S) (g : S → B → S) (xs : list A) (ys : list B) :
  (∀ σ a b, f (g σ b) a = g (f σ a) b) →
  ∀ σ, foldl f (foldl g σ ys) xs = foldl g (foldl f σ xs) ys.
Proof.
  intros Hfg.
  assert (∀ a σ, f (foldl g σ ys) a = foldl g (f σ a) ys) as Hone.
  { intros a. induction ys as [|b ys IH]; intros σ; [done|].
    simpl. by rewrite IH, Hfg. }
  induction xs as [|a xs IH]; intros σ; [done|].
  simpl. by rewrite Hone, IH.
Qed.

Lemma update_body_effect_commute self det1 det2 σ :
  (∀ t, det_tracker_id det1 = Some t → det_tracker_id det2 ≠ Some t) →
  update_body_effect self det1 (update_body_effect self det2 σ)
  = update_body_effect self det2 (update_body_effect self det1 σ).
Proof.
  intros Hne. unfold update_body_effect.
  destruct (det_tracker_id det1) as [t1|]; [|done].
  destruct (det_tracker_id det2) as [t2|]; [|done].
  apply foldl_commute. intros σ1 p1 p2. apply step_effect_commute.
  intros ->. by apply (Hne t2).
Qed.

Lemma update_effect_perm self ds ds' :
  ds ≡ₚ ds' → NoDup (omap det_tracker_id ds) →
  ∀ σ, update_effect self ds σ = update_effect self ds' σ.
Proof.
  unfold update_effect.
  induction 1 as [|det ds ds' Hp IH|det1 det2 ds|ds1 ds2 ds3 Hp1 IH1 Hp2 IH2];
    intros Hnd σ.
  - done.
  - simpl. apply IH. simpl in Hnd.
    destruct (det_tracker_id det); [by apply NoDup_cons in Hnd as [_ ?]|done].
  - simpl. f_equal. apply update_body_effect_commute.
    intros t Ht1 Ht2. simpl in Hnd. rewrite Ht1, Ht2 in Hnd.
    apply NoDup_cons in Hnd as [Hin _]. apply Hin. by left.
  - rewrite IH1 by done. apply IH2. by rewrite <-Hp1.
Qed.

(** [update] on listed classes is its closed form. *)
Lemma line_step_effect self class_id tracker_id id triggers σ :
  wf self σ → counted self σ class_id → (id < length (vector_batch self))%nat →
  line_step self class_id tracker_id id triggers σ
  = (step_effect self class_id tracker_id id triggers σ, inr ()).
Proof.
  intros Hwf (name & Hname & Hdom) Hid. unfold step_effect.
  destruct (tracker_state_batch self !! id) as [l|] eqn:Hl;
    [|by destruct (wf_side_batch_Some self σ id)].
  destruct (count_batch self triggers !! id) as [lc|] eqn:Hlc;
    [|by destruct (wf_count_batch_Some self σ id triggers)].
  rewrite Hname. simpl.
  destruct (deref (side_objs σ) l !! tracker_id) as [b|] eqn:Hd.
  - simpl. case_bool_decide as Hb.
    + subst b. rewrite (line_step_same _ _ _ _ _ _ l) by done.
      rewrite set_side_id by done. by destruct σ.
    + destruct (tracker_line σ !! tracker_id) as [log|] eqn:Hlog;
        [|by destruct (wf_logged_lookup self tracker_id σ id l b)].
      assert (lc ∈ count_locs self) as Hin by by eapply count_batch_count_locs.
      apply Hdom, elem_of_dom in Hin as [v Hv].
      rewrite (line_step_flip _ _ _ _ _ _ l Hl b log) by done.
      rewrite (count_incr_ok _ _ _ _ _ lc Hlc name v) by done.
      unfold add_one. rewrite (alter_alt_Some _ _ _ v) by done.
      unfold log_effect. by rewrite (alter_alt_Some _ _ _ log) by done.
  - by rewrite (line_step_first _ _ _ _ _ _ l) by done.
Qed.

Lemma line_loop_effect self class_id tracker_id ts σ :
  wf self σ → counted self σ class_id →
  (∀ id s, (id, s) ∈ ts → (id < length (vector_batch self))%nat) →
  line_loop self class_id tracker_id ts σ
  = (foldl (λ σ p, step_effect self class_id tracker_id p.1 p.2 σ) σ ts, inr ()).
Proof.
  revert σ. induction ts as [|[id s] ts IH]; intros σ Hwf Hc Hts; [done|].
  unfold line_loop. rewrite for_cons. fold (line_loop self class_id tracker_id ts).
  pose proof (line_step_wf self class_id tracker_id id s σ Hwf) as Hwf1.
  pose proof (line_step_evolves self class_id tracker_id id s σ) as Hev.
  rewrite line_step_effect in * by (try done; apply (Hts id s); by left).
  simpl in *. apply IH; [done|by eapply counted_evolves|].
  intros id' s' Hin. apply (Hts id' s'). by right.
Qed.

Lemma update_body_is_effect self det σ :
  wf self σ →
  (∀ t, det_tracker_id det = Some t → det_class_id det ∈ class_id self) →
  update_body self det σ = (update_body_effect self det σ, inr ()).
Proof.
  intros Hwf Hc. unfold update_body, update_body_effect.
  destruct (det_tracker_id det) as [t|]; [|done].
  apply line_loop_effect; [done|by apply (wf_classes _ _ Hwf), (Hc t)|].
  intros id s. apply elem_of_triggers.
Qed.

Lemma update_is_effect self detections σ :
  wf self σ →
  (∀ det t, det ∈ detections → det_tracker_id det = Some t →
     det_class_id det ∈ class_id self) →
  update self detections σ = (update_effect self detections σ, inr ()).
Proof.
  revert σ. induction detections as [|det ds IH]; intros σ Hwf Hc; [done|].
  unfold update. rewrite for_cons. fold (update self ds).
  assert (wf self (update_body self det σ).1) as Hwf1.
  { unfold update_body. destruct (det_tracker_id det); [|done]. by apply line_loop_wf. }
  rewrite update_body_is_effect in * by (try done; intros t; apply Hc; by left).
  simpl in *. apply IH; [done|]. intros det' t Hin. apply Hc. by right.
Qed.

(** ** The order of the detections of a call *)

(** Within a call the order of the detections of different objects does not
    matter.  For detections whose classes are listed in [class_id] (as far
    as they have a tracker identifier) and of which no two have the same
    tracker identifier, [update] returns normally, and on any rearrangement
    of the list it returns as well and leaves the same side maps, counts
    and crossing log. *)
Theorem detections_of_distinct_identities_commute self σ detections detections' :
  reachable self σ →
  (∀ det t, det ∈ detections → det_tracker_id det = Some t →
     det_class_id det ∈ class_id self) →
  NoDup (omap det_tracker_id detections) →
  detections' ≡ₚ detections →
  update self detections' σ = update self detections σ
  ∧ (update self detections σ).2 = inr ().
Proof.
  intros [Hwf _]%reachable_inv Hc Hnd Hp.
  rewrite !update_is_effect; try done.
  - split; [|done]. f_equal. symmetry. by apply update_effect_perm.
  - intros det t Hin. apply Hc. by rewrite <-Hp.
Qed.

(** Identity 7, which the lines have seen at x = 5, is now at x = 15 and
    has crossed the second line; identity 8 is new. *)
Lemma detections_of_distinct_identities_commute_witness :
  update ex_self [ex_det 5 8 5; ex_det 2 7 15] ex_store1
  = update ex_self [ex_det 2 7 15; ex_det 5 8 5] ex_store1
  ∧ (update ex_self [ex_det 2 7 15; ex_det 5 8 5] ex_store1).2 = inr ().
Proof.
  apply detections_of_distinct_identities_commute.
  - apply ex_reachable1.
  - intros det t Hin _. apply list_elem_of_In in Hin. simpl in Hin.
    destruct Hin as [<-|[<-|[]]]; vm_compute; [by left|by right; left].
  - simpl. apply NoDup_cons. split; [|apply NoDup_singleton].
    intros Hin%list_elem_of_singleton. done.
  - apply Permutation_swap.
Defined.
